(** * Voxa front end: transcript export, time codec, player sync and proxy routes

  A shallow embedding of the logic of [src/app/transcripts/page.tsx] and of
  the three API proxy routes, over a model of ECMAScript numbers (IEEE 754
  binary64, taken from the standard library's [SpecFloat]) and strings;
  then of the home page, of the earlier transcript page and of the quiz
  component, which call the routes. *)

From Stdlib Require Import ZArith List Bool Ascii String Lia.
From Stdlib Require Import QArith Qround Qpower.
From Stdlib Require Import Floats.SpecFloat.
From Stdlib Require Import DecimalString.
Import ListNotations.

Local Open Scope string_scope.
Local Open Scope Z_scope.

(** ** ECMAScript Number values *)

Module JSNumber.

(** A Number is an IEEE 754 binary64 value; NaN carries no payload. *)
Definition number : Type := spec_float.

Definition prec : Z := 53.
Definition emax : Z := 1024.

Definition NaN : number := S754_nan.
Definition Infinity : number := S754_infinity false.
Definition pos_zero : number := S754_zero false.
Definition neg_zero : number := S754_zero true.

(** The Number nearest to an integer, as an integer literal denotes it. *)
Definition of_Z (z : Z) : number := binary_normalize prec emax z 0 false.

(** [x + y], [x * y], [x / y]: round to nearest, ties to even. *)
Definition add (x y : number) : number := SFadd prec emax x y.
Definition mul (x y : number) : number := SFmul prec emax x y.
Definition div (x y : number) : number := SFdiv prec emax x y.

(** The Number nearest to [n / d], for integers [n] and [d] that are
    Numbers themselves; so [of_ratio 1197 10] is what the literal [119.7]
    denotes. *)
Definition of_ratio (n d : Z) : number := div (of_Z n) (of_Z d).

Definition valid (x : number) : bool := valid_binary prec emax x.

Definition is_finite (x : number) : bool :=
  match x with
  | S754_zero _ | S754_finite _ _ _ => true
  | _ => false
  end.

Definition is_nan (x : number) : bool :=
  match x with S754_nan => true | _ => false end.

(** [x < y], [x <= y] and the strict equality [x === y] of two Numbers:
    every comparison with NaN is false and the two zeros are equal. *)
Definition ltb (x y : number) : bool := SFltb x y.
Definition leb (x y : number) : bool := SFleb x y.
Definition strict_eq (x y : number) : bool := SFeqb x y.

(** [n % d] (Number::remainder): the sign follows the dividend and the
    result is exact. *)
Definition rem (n d : number) : number :=
  match n, d with
  | S754_nan, _ | _, S754_nan => S754_nan
  | S754_infinity _, _ => S754_nan
  | _, S754_infinity _ => n
  | _, S754_zero _ => S754_nan
  | S754_zero _, _ => n
  | S754_finite sn mn en, S754_finite _ md ed =>
      let e := Z.min en ed in
      let r := (Zpos mn * 2 ^ (en - e)) mod (Zpos md * 2 ^ (ed - e)) in
      binary_normalize prec emax (cond_Zopp sn r) e sn
  end.

(** [Math.floor x]. *)
Definition floor (x : number) : number :=
  match x with
  | S754_finite s m e =>
      if 0 <=? e then x
      else binary_normalize prec emax (cond_Zopp s (Zpos m) / 2 ^ (- e)) 0 s
  | _ => x
  end.

End JSNumber.

(** ** ECMAScript strings *)

Module JSString.

Fixpoint repeat (c : ascii) (n : nat) : string :=
  match n with
  | O => ""
  | S n' => String c (repeat c n')
  end.

(** [s.padStart(targetLength, "0")]. *)
Definition padStart (targetLength : nat) (s : string) : string :=
  repeat "0"%char (targetLength - String.length s) ++ s.

(** [parts.join(sep)] on an array of strings. *)
Fixpoint join (sep : string) (parts : list string) : string :=
  match parts with
  | [] => ""
  | [s] => s
  | s :: rest => s ++ sep ++ join sep rest
  end.

(** The line feed character, as a string. *)
Definition nl : string := String (ascii_of_nat 10) "".

(** The decimal numeral of a natural number, without leading zeros. *)
Definition decimal (n : N) : string := NilZero.string_of_uint (N.to_uint n).

(** The first index [n] from [lo] on, within [fuel] steps, at which [p]
    holds. *)
Fixpoint first_from (p : Z -> bool) (fuel : nat) (lo : Z) : Z :=
  match fuel with
  | O => lo
  | S fuel' => if p lo then lo else first_from p fuel' (lo + 1)
  end.

Section ShortestDigits.

(** The positive finite Number [x = num / den] being printed. *)
Variable x : JSNumber.number.
Variables num den : Z.

(** [lt_pow10 n]: [x < 10 ^ n]. *)
Definition lt_pow10 (n : Z) : bool :=
  if 0 <=? n then num <? 10 ^ n * den else num * 10 ^ (- n) <? den.

(** The decimal exponent [n0] with [10 ^ (n0 - 1) <= x < 10 ^ n0],
    searched upwards from a lower estimate: with [b] the binary exponent
    of [x], [10 ^ (b * 30103 / 100000 - 1) <= 2 ^ b <= x]. *)
Definition decimal_exponent : Z :=
  let b := Z.log2 num - Z.log2 den in
  first_from lt_pow10 8 (b * 30103 / 100000 - 1).

(** [scaled_floor p]: the integer part of [x / 10 ^ p]. *)
Definition scaled_floor (p : Z) : Z :=
  if 0 <=? p then num / (den * 10 ^ p) else (num * 10 ^ (- p)) / den.

(** The Number value for the decimal [s * 10 ^ p], with [0 < s]. *)
Definition number_value (s p : Z) : JSNumber.number :=
  if 0 <=? p then JSNumber.of_Z (s * 10 ^ p)
  else JSNumber.div (S754_finite false (Z.to_pos s) 0)
                    (S754_finite false (Z.to_pos (10 ^ (- p))) 0).

(** Whether the decimal [s * 10 ^ p] has [x] as its Number value. *)
Definition reads_back (s p : Z) : bool :=
  match number_value s p, x with
  | S754_finite _ m1 e1, S754_finite _ m2 e2 =>
      Pos.eqb m1 m2 && Z.eqb e1 e2
  | _, _ => false
  end.

(** How [x] compares with the midpoint of [s * 10 ^ p] and
    [(s + 1) * 10 ^ p]. *)
Definition compare_midpoint (s p : Z) : comparison :=
  if 0 <=? p then 2 * num ?= (2 * s + 1) * 10 ^ p * den
  else 2 * num * 10 ^ (- p) ?= (2 * s + 1) * den.

(** The [k]-digit integer [s], if any, whose decimal [s * 10 ^ (n0 - k)]
    has [x] as its Number value; of two, the closer one, and the even
    one at equal distance. *)
Definition candidate (n0 k : Z) : option Z :=
  let p := n0 - k in
  let lo := scaled_floor p in
  match reads_back lo p, reads_back (lo + 1) p with
  | true, true =>
      match compare_midpoint lo p with
      | Lt => Some lo
      | Gt => Some (lo + 1)
      | Eq => Some (if Z.even lo then lo else lo + 1)
      end
  | true, false => Some lo
  | false, true => Some (lo + 1)
  | false, false => None
  end.

(** The least [k] with a candidate, from [k] on; seventeen digits
    always identify a binary64 value. *)
Fixpoint shortest (n0 : Z) (fuel : nat) (k : Z) : Z * Z :=
  match fuel with
  | O => (scaled_floor (n0 - k), k)
  | S fuel' =>
      match candidate n0 k with
      | Some s => (s, k)
      | None => shortest n0 fuel' (k + 1)
      end
  end.

End ShortestDigits.

Definition zeros (n : Z) : string := repeat "0"%char (Z.to_nat n).

(** Number::toString of a positive finite value [m * 2 ^ e], radix 10. *)
Definition toString_pos (m : positive) (e : Z) : string :=
  let x := S754_finite false m e in
  let num := Zpos m * 2 ^ Z.max e 0 in
  let den := 2 ^ Z.max (- e) 0 in
  let n0 := decimal_exponent num den in
  let '(s, k) := shortest x num den n0 17 1 in
  let '(ds, n) :=
    if s =? 10 ^ k then ("1", n0 + 1) else (decimal (Z.to_N s), n0) in
  let k := Z.of_nat (String.length ds) in
  if (k <=? n) && (n <=? 21) then ds ++ zeros (n - k)
  else if (0 <? n) && (n <=? 21) then
    substring 0 (Z.to_nat n) ds ++ "." ++
    substring (Z.to_nat n) (Z.to_nat (k - n)) ds
  else if (-6 <? n) && (n <=? 0) then "0." ++ zeros (- n) ++ ds
  else
    let sign := if 0 <=? n - 1 then "+" else "-" in
    let expo := decimal (Z.to_N (Z.abs (n - 1))) in
    if k =? 1 then ds ++ "e" ++ sign ++ expo
    else substring 0 1 ds ++ "." ++ substring 1 (Z.to_nat (k - 1)) ds ++
         "e" ++ sign ++ expo.

(** [x.toString()], also the conversion a template literal applies. *)
Definition toString (x : JSNumber.number) : string :=
  match x with
  | S754_nan => "NaN"
  | S754_zero _ => "0"
  | S754_infinity false => "Infinity"
  | S754_infinity true => "-Infinity"
  | S754_finite false m e => toString_pos m e
  | S754_finite true m e => "-" ++ toString_pos m e
  end.

(** [x.toFixed(0)]: the integer nearest to the magnitude of [x], the
    larger one at equal distance, with the sign of [x] in front. *)
Definition toFixed0 (x : JSNumber.number) : string :=
  match x with
  | S754_finite s m e =>
      let sign := if s then "-" else "" in
      if JSNumber.leb (JSNumber.of_Z (10 ^ 21)) (S754_finite false m e)
      then sign ++ toString_pos m e
      else
        let n := if 0 <=? e then Zpos m * 2 ^ e
                 else (2 * Zpos m + 2 ^ (- e)) / 2 ^ (1 - e) in
        sign ++ decimal (Z.to_N n)
  | _ => toString x
  end.

End JSString.

(** ** Promises and thrown values *)

Module JSPromise.

(** A thrown value: an [Error] with its message, or anything else. *)
Inductive Thrown : Type :=
| ErrorObject (msg : string)
| OtherValue.

(** [err instanceof Error ? err.message : fallback]. *)
Definition message_of (fallback : string) (err : Thrown) : string :=
  match err with
  | ErrorObject msg => msg
  | OtherValue => fallback
  end.

(** A settled promise. *)
Inductive Settled (A : Type) : Type :=
| Rejected (err : Thrown)
| Fulfilled (a : A).
Arguments Rejected {A} err.
Arguments Fulfilled {A} a.

(** [await p] inside a [try] block: a rejection leaves the block. *)
Definition await {A B : Type} (p : Settled A) (k : A -> Settled B)
  : Settled B :=
  match p with
  | Rejected err => Rejected err
  | Fulfilled a => k a
  end.

Notation "x <- p ;; k" := (await p (fun x => k))
  (at level 61, p at next level, right associativity).

(** A response of [fetch]; [json] is the settled [response.json()], at
    the type the caller reads the body at. *)
Record Response (T : Type) : Type := {
  status : Z;
  json : Settled T
}.
Arguments status {T} r.
Arguments json {T} r.

(** [response.ok]. *)
Definition ok {T : Type} (r : Response T) : bool :=
  (200 <=? status r) && (status r <=? 299).

(** [Promise.all([p, q])]: fulfilled when both are, rejected with the
    reason of the one that rejects first. *)
Definition Promise_all {A B : Type} (p_first : bool)
    (p : Settled A) (q : Settled B) : Settled (A * B) :=
  match p, q with
  | Fulfilled a, Fulfilled b => Fulfilled (a, b)
  | Rejected err, Fulfilled _ => Rejected err
  | Fulfilled _, Rejected err => Rejected err
  | Rejected err_p, Rejected err_q =>
      Rejected (if p_first then err_p else err_q)
  end.

End JSPromise.

(** ** The transcript page ([src/app/transcripts/page.tsx]) *)

Module Transcript.

Import JSNumber JSString JSPromise.

Record TranscriptEntry : Type := {
  text : string;
  start : number;
  duration : number
}.

Record TranscriptData : Type := {
  video_id : string;
  title : option string;
  transcript : list TranscriptEntry
}.

Record SummaryData : Type := {
  summary : option string;
  summary_error : option string;
  message : option string
}.

(** The state hooks of [TranscriptContent]. *)
Record State : Type := {
  transcriptData : option TranscriptData;
  summaryData : option SummaryData;
  isLoading : bool;
  isSummaryLoading : bool;
  error : option string;
  activeTimestamp : option number;
  includeTimestamps : bool;
  summaryError : option string
}.

Definition initial : State := {|
  transcriptData := None;
  summaryData := None;
  isLoading := true;
  isSummaryLoading := false;
  error := None;
  activeTimestamp := None;
  includeTimestamps := true;
  summaryError := None
|}.

(** *** Time codec *)

Definition formatTime (seconds : number) : string :=
  let hours := floor (div seconds (of_Z 3600)) in
  let minutes := floor (div (rem seconds (of_Z 3600)) (of_Z 60)) in
  let secs := floor (rem seconds (of_Z 60)) in
  let ms := floor (mul (rem seconds (of_Z 1)) (of_Z 1000)) in
  padStart 2 (toString hours) ++ ":" ++
  padStart 2 (toString minutes) ++ ":" ++
  padStart 2 (toString secs) ++ "," ++
  padStart 3 (toString ms).

(** The timestamp label of an entry in the transcript list. *)
Definition timestamp_label (entry : TranscriptEntry) : string :=
  toString (floor (div (start entry) (of_Z 60))) ++ ":" ++
  padStart 2 (toFixed0 (rem (start entry) (of_Z 60))).

(** *** Export *)

Inductive format : Type := txt | srt.

Definition format_name (f : format) : string :=
  match f with txt => "txt" | srt => "srt" end.

(** [entries.map((entry, index) => f(entry, index))], from index [i] on.
    An array index is an integer below [2 ^ 32]. *)
Fixpoint map_from {A B : Type} (f : A -> nat -> B) (i : nat) (l : list A)
  : list B :=
  match l with
  | [] => []
  | a :: l' => f a i :: map_from f (S i) l'
  end.

Definition mapi {A B : Type} (f : A -> nat -> B) (l : list A) : list B :=
  map_from f 0 l.

Definition timestamped_line (entry : TranscriptEntry) : string :=
  let timestamp := formatTime (start entry) in
  "[" ++ timestamp ++ "] " ++ text entry.

(** One block of the SubRip file; [index + 1] is an integer, printed as
    its decimal numeral. *)
Definition srt_block (entry : TranscriptEntry) (index : nat) : string :=
  let start_ := formatTime (start entry) in
  let end_ := formatTime (add (start entry) (duration entry)) in
  decimal (N.of_nat (index + 1)) ++ nl ++
  start_ ++ " --> " ++ end_ ++ nl ++
  text entry ++ nl.

(** The [content] that [downloadAsFile] builds. *)
Definition file_content (withTimestamps : bool) (fmt : format)
    (entries : list TranscriptEntry) : string :=
  match fmt with
  | txt =>
      if withTimestamps then join nl (map timestamped_line entries)
      else join nl (map text entries)
  | srt => join nl (mapi srt_block entries)
  end.

(** The file offered for download: the [Blob] and the anchor's
    [download] attribute. *)
Record Download : Type := {
  filename : string;
  mime : string;
  content : string
}.

Definition downloadAsFile (st : State) (fmt : format) : option Download :=
  match transcriptData st with
  | None => None
  | Some data =>
      Some {| filename := "transcript_" ++ video_id data ++ "." ++
                          format_name fmt;
              mime := "text/plain";
              content := file_content (includeTimestamps st) fmt
                                      (transcript data) |}
  end.

(** The text that [copyToClipboard] writes, if any. *)
Definition copyToClipboard (st : State) : option string :=
  match transcriptData st with
  | None => None
  | Some data => Some (join " " (map text (transcript data)))
  end.

(** *** Player sync *)

(** The command posted to the embedded player. *)
Record SeekCommand : Type := {
  func : string;
  args : number * bool
}.

Definition set_activeTimestamp (v : option number) (st : State) : State :=
  {| transcriptData := transcriptData st;
     summaryData := summaryData st;
     isLoading := isLoading st;
     isSummaryLoading := isSummaryLoading st;
     error := error st;
     activeTimestamp := v;
     includeTimestamps := includeTimestamps st;
     summaryError := summaryError st |}.

(** [seekToTime seconds]: the new state and the message posted, if the
    document has an [iframe]. *)
Definition seekToTime (iframe : bool) (seconds : number) (st : State)
  : State * option SeekCommand :=
  (set_activeTimestamp (Some seconds) st,
   if iframe then Some {| func := "seekTo"; args := (seconds, true) |}
   else None).

(** The click handler of an entry. *)
Definition onSelect (iframe : bool) (st : State) (entry : TranscriptEntry)
  : State :=
  fst (seekToTime iframe (start entry) st).

(** [activeTimestamp === entry.start], the condition of the highlight. *)
Definition isActive (st : State) (entry : TranscriptEntry) : bool :=
  match activeTimestamp st with
  | None => false
  | Some t => strict_eq t (start entry)
  end.

(** *** Loading the page *)

Definition setTranscriptData (v : option TranscriptData) (st : State)
  : State :=
  {| transcriptData := v;
     summaryData := summaryData st;
     isLoading := isLoading st;
     isSummaryLoading := isSummaryLoading st;
     error := error st;
     activeTimestamp := activeTimestamp st;
     includeTimestamps := includeTimestamps st;
     summaryError := summaryError st |}.

Definition setSummaryData (v : option SummaryData) (st : State) : State :=
  {| transcriptData := transcriptData st;
     summaryData := v;
     isLoading := isLoading st;
     isSummaryLoading := isSummaryLoading st;
     error := error st;
     activeTimestamp := activeTimestamp st;
     includeTimestamps := includeTimestamps st;
     summaryError := summaryError st |}.

Definition setIsLoading (v : bool) (st : State) : State :=
  {| transcriptData := transcriptData st;
     summaryData := summaryData st;
     isLoading := v;
     isSummaryLoading := isSummaryLoading st;
     error := error st;
     activeTimestamp := activeTimestamp st;
     includeTimestamps := includeTimestamps st;
     summaryError := summaryError st |}.

Definition setError (v : option string) (st : State) : State :=
  {| transcriptData := transcriptData st;
     summaryData := summaryData st;
     isLoading := isLoading st;
     isSummaryLoading := isSummaryLoading st;
     error := v;
     activeTimestamp := activeTimestamp st;
     includeTimestamps := includeTimestamps st;
     summaryError := summaryError st |}.

(** [fetchData]: the two requests are joined by [Promise.all], both
    bodies are read, and only then are both stored; one [catch] serves
    the whole block. [transcript_first] tells which request settles
    first. The bodies are taken at the types the page declares for them:
    the page stores them unchecked, and what it makes of a body of another
    shape is not part of this model. *)
Definition fetchData (transcript_first : bool)
    (transcriptFetch : Settled (Response TranscriptData))
    (summaryFetch : Settled (Response SummaryData))
    (st : State) : State :=
  let attempt : Settled State :=
    responses <- Promise_all transcript_first transcriptFetch summaryFetch ;;
    let '(transcriptResponse, summaryResponse) := responses in
    transcriptData <- json transcriptResponse ;;
    summaryData <- json summaryResponse ;;
    Fulfilled (setSummaryData (Some summaryData)
                 (setTranscriptData (Some transcriptData) st)) in
  let st' :=
    match attempt with
    | Fulfilled st' => st'
    | Rejected err => setError (Some (message_of "An error occurred" err)) st
    end in
  setIsLoading false st'.

(** The effect run on mount, given the [videoId] search parameter. *)
Definition onMount (videoId : option string) (transcript_first : bool)
    (transcriptFetch : Settled (Response TranscriptData))
    (summaryFetch : Settled (Response SummaryData))
    (st : State) : State :=
  match videoId with
  | None | Some "" =>
      setIsLoading false (setError (Some "No video ID provided") st)
  | Some _ => fetchData transcript_first transcriptFetch summaryFetch st
  end.

(** *** Rendering *)

Definition truthy (s : option string) : bool :=
  match s with
  | None | Some "" => false
  | Some _ => true
  end.

Inductive SummaryPanel : Type :=
| PanelLoading
| PanelError (msg : string)
| PanelUpgrade (msg : option string)
| PanelSummary (s : string)
| PanelPrompt.

Inductive View : Type :=
| Spinner
| ErrorScreen (msg : string)
| NoContent
| Studio (data : TranscriptData) (panel : SummaryPanel).

Definition summary_panel (st : State) : SummaryPanel :=
  if isSummaryLoading st then PanelLoading
  else match summaryError st with
  | Some (String _ _ as msg) => PanelError msg
  | _ =>
    match summaryData st with
    | None => PanelPrompt
    | Some d =>
        match summary_error d, summary d with
        | Some "transcript_too_long", _ => PanelUpgrade (message d)
        | _, Some (String _ _ as s) => PanelSummary s
        | _, _ => PanelPrompt
        end
    end
  end.

Definition render (st : State) : View :=
  if isLoading st then Spinner
  else match error st with
  | Some (String _ _ as msg) => ErrorScreen msg
  | _ =>
    match transcriptData st with
    | None => NoContent
    | Some data => Studio data (summary_panel st)
    end
  end.

End Transcript.

(** ** The API proxy routes ([/api/transcript], [/api/summary], [/api/quiz]) *)

Module Proxy.

Import JSNumber JSPromise.

(** A parsed JSON value; an object keeps its members in source order. *)
#[local] Set Warnings "-register-all".
Inductive Json : Type :=
| JNull
| JBool (b : bool)
| JNumber (n : number)
| JString (s : string)
| JArray (items : list Json)
| JObject (members : list (string * Json)).

(** The member of an object under [key]; the last duplicate wins. *)
Fixpoint member (key : string) (members : list (string * Json))
  : option Json :=
  match members with
  | [] => None
  | (k, v) :: rest =>
      match member key rest with
      | Some v' => Some v'
      | None => if String.eqb k key then Some v else None
      end
  end.

(** [value.detail]: [None] stands for [undefined]; reading a property of
    [null] throws, and of any other non-object finds nothing. *)
Definition get_detail (value : Json) : Settled (option Json) :=
  match value with
  | JNull =>
      Rejected
        (ErrorObject "Cannot read properties of null (reading 'detail')")
  | JObject members => Fulfilled (member "detail" members)
  | _ => Fulfilled None
  end.

(** ToBoolean. *)
Definition truthy (v : option Json) : bool :=
  match v with
  | None | Some JNull | Some (JString "") => false
  | Some (JBool b) => b
  | Some (JNumber n) =>
      match n with
      | S754_nan | S754_zero _ => false
      | _ => true
      end
  | Some _ => true
  end.

(** [detail || fallback]. *)
Definition or_else (detail : option Json) (fallback : string) : Json :=
  match detail with
  | Some v => if truthy detail then v else JString fallback
  | None => JString fallback
  end.

(** The backend's response, its body read as JSON. *)
Definition BackendResponse : Type := Response Json.

(** A value as [JSON.stringify] writes it and the reader of the answer
    parses it: a Number that is not finite (a body can hold one, [1e400]
    parses to [Infinity]) is written [null], and the sign of zero is
    lost. *)
Fixpoint reparse (v : Json) : Json :=
  match v with
  | JNumber (S754_nan | S754_infinity _) => JNull
  | JNumber (S754_zero _) => JNumber pos_zero
  | JArray items => JArray (map reparse items)
  | JObject members =>
      JObject (map (fun kv => (fst kv, reparse (snd kv))) members)
  | _ => v
  end.

(** The answer of a route handler: its status and the JSON value its body
    carries. *)
Record NextResponse : Type := {
  response_status : Z;
  response_body : Json
}.

(** The statuses from 200 to 599 that admit no body. *)
Definition null_body_status (status : Z) : bool :=
  (status =? 204) || (status =? 205) || (status =? 304).

(** [NextResponse.json(body, { status })]: the body is sent as JSON. The
    constructor of the response throws a [RangeError] for a status outside
    200 to 599, and a [TypeError] for a status that admits no body. *)
Definition NextResponse_json (body : Json) (status : Z)
  : Settled NextResponse :=
  if (status <? 200) || (599 <? status) then
    Rejected (ErrorObject "The status is outside the range 200 to 599")
  else if null_body_status status then
    Rejected (ErrorObject "Invalid response status code")
  else
    Fulfilled {| response_status := status;
                 response_body := reparse body |}.

Definition error_body (v : Json) : Json := JObject [("error", v)].

(** [process.env.NEXT_PUBLIC_BACKEND_URL || "http://localhost:8000"]. *)
Definition backend_of_env (env : option string) : string :=
  match env with
  | Some (String _ _ as url) => url
  | _ => "http://localhost:8000"
  end.

(** What tells the three route handlers apart. *)
Record Route : Type := {
  BACKEND_URL : option string -> string;
  parameter : string;
  missing_message : string;
  backend_path : string;
  compose : string -> string;
  fallback_message : string;
  catch_message : string
}.

Definition transcript_route : Route := {|
  BACKEND_URL := backend_of_env;
  parameter := "url";
  missing_message := "URL parameter is required";
  backend_path := "/transcript?url=";
  compose := fun url => url;
  fallback_message := "Failed to fetch transcript";
  catch_message := "Internal server error"
|}.

Definition summary_route : Route := {|
  BACKEND_URL := fun _ => "http://localhost:8000";
  parameter := "url";
  missing_message := "URL parameter is required";
  backend_path := "/summary?url=";
  compose := fun url => url;
  fallback_message := "Failed to fetch summary";
  catch_message := "Internal server error"
|}.

Definition quiz_route : Route := {|
  BACKEND_URL := backend_of_env;
  parameter := "videoId";
  missing_message := "Video ID is required";
  backend_path := "/quiz?url=";
  compose := fun videoId => "https://www.youtube.com/watch?v=" ++ videoId;
  fallback_message := "Failed to fetch quiz";
  catch_message := "Failed to generate quiz"
|}.

(** The [GET] handler of a route. [env] is the environment variable
    [NEXT_PUBLIC_BACKEND_URL], [param] the value of the route's search
    parameter, [backend] the backend as seen through [fetch]. The two
    answers with a fixed message have a status and a body that
    [NextResponse.json] accepts and sends as they are; the answer that
    repeats the backend's status is built inside the [try] block, so a
    status that [NextResponse.json] refuses ends in the [catch] clause. *)
Definition GET (route : Route) (env : option string)
    (param : option string)
    (backend : string -> Settled BackendResponse) : NextResponse :=
  match param with
  | None | Some "" =>
      {| response_status := 400;
         response_body := error_body (JString (missing_message route)) |}
  | Some value =>
      let attempt : Settled NextResponse :=
        response <- backend (BACKEND_URL route env ++ backend_path route ++
                             compose route value) ;;
        if negb (ok response) then
          errorData <- json response ;;
          detail <- get_detail errorData ;;
          NextResponse_json
            (error_body (or_else detail (fallback_message route)))
            (status response)
        else
          data <- json response ;;
          NextResponse_json data 200 in
      match attempt with
      | Fulfilled r => r
      | Rejected _ =>
          {| response_status := 500;
             response_body := error_body (JString (catch_message route)) |}
      end
  end.

End Proxy.

(** ** Notions for the arithmetic of Numbers *)

Module Rounding.

Import JSNumber.

(** The remainder of two positive finite Numbers, in units of [2 ^ e'],
    where [e'] is the smaller of the two exponents. *)
Definition rem_units (m : positive) (e : Z) (md : positive) (ed : Z) : Z :=
  let e' := Z.min e ed in
  (Z.pos m * 2 ^ (e - e')) mod (Z.pos md * 2 ^ (ed - e')).

(** The exponent at which a division of finite Numbers is computed. *)
Definition div_exponent (mx : positive) (ex : Z) (my : positive) (ey : Z)
  : Z :=
  Z.min (fexp prec emax (Z.pos (digits2_pos mx) + ex -
                         (Z.pos (digits2_pos my) + ey)))
        (ex - ey).

(** [located N D m l]: the location [l] places the exact value [N / D]
    with respect to the integers [m] and [m + 1] and their midpoint. *)
Definition located (N D m : Z) (l : location) : Prop :=
  match l with
  | loc_Exact => N = m * D
  | loc_Inexact Lt => m * D < N /\ 2 * N < (2 * m + 1) * D
  | loc_Inexact Eq => 2 * N = (2 * m + 1) * D
  | loc_Inexact Gt => (2 * m + 1) * D < 2 * N /\ N < (m + 1) * D
  end.

(** The same for a shift record: its round and sticky bits are a
    location. *)
Definition represents (N D : Z) (mrs : shr_record) : Prop :=
  located N D (shr_m mrs) (loc_of_shr_record mrs).

(** The result of rounding, by its mantissa [m2] and exponent [e2]. *)
Definition rounded (sx : bool) (m2 e2 : Z) : number :=
  match m2 with
  | 0 => S754_zero sx
  | Z.pos p => if e2 <=? 971 then S754_finite sx p e2 else S754_infinity sx
  | Z.neg _ => S754_nan
  end.

(** The integers from 0 up to [n], excluded. *)
Definition below (n : nat) : list Z := map Z.of_nat (seq 0 n).

End Rounding.

(** ** Sample documents *)

Module Examples.

Import JSNumber Transcript.

(** The entries of the specification's example: the first starts later
    than the second. *)
Definition unsorted_entries : list TranscriptEntry :=
  [ {| text := "a"; start := of_Z 5; duration := of_Z 1 |};
    {| text := "b"; start := of_Z 2; duration := of_Z 1 |} ].

(** An entry that starts at 1 min 5 s. *)
Definition entry_at_65 : TranscriptEntry :=
  {| text := "x"; start := of_Z 65; duration := of_Z 1 |}.

Definition entry_at_65_data : TranscriptData :=
  {| video_id := "v"; title := None; transcript := [entry_at_65] |}.

(** That document loaded, the timestamp switch left on. *)
Definition entry_at_65_state : State :=
  setIsLoading false (setTranscriptData (Some entry_at_65_data) initial).

(** The two-entry document of the specification, loaded, with the
    timestamp switch off. *)
Definition hi_there : TranscriptData :=
  {| video_id := "v"; title := None;
     transcript :=
       [ {| text := "hi"; start := of_Z 0; duration := of_Z 1 |};
         {| text := "there"; start := of_Z 1; duration := of_Z 1 |} ] |}.

Definition hi_there_state : State :=
  {| transcriptData := Some hi_there;
     summaryData := None;
     isLoading := false;
     isSummaryLoading := false;
     error := None;
     activeTimestamp := None;
     includeTimestamps := false;
     summaryError := None |}.

(** The smallest Number above 1: [1 + 2 ^ -52]. *)
Definition just_above_one : number := S754_finite false (2 ^ 52 + 1) (-52).

(** Two entries whose starts differ by one unit in the last place. *)
Definition at_one : TranscriptEntry :=
  {| text := "a"; start := of_Z 1; duration := of_Z 2 |}.

Definition near_one : TranscriptEntry :=
  {| text := "b"; start := just_above_one; duration := of_Z 2 |}.

(** An entry that starts at 119.7 s; the remainder of its start by 60 is
    just above 59.7. *)
Definition entry_at_119_7 : TranscriptEntry :=
  {| text := "y"; start := of_ratio 1197 10; duration := of_Z 1 |}.



Definition entry_at_zero : TranscriptEntry :=
  {| text := "n"; start := of_Z 0; duration := of_Z 1 |}.




(** A summary request that succeeds, and a transcript request that fails
    in transit. *)
Definition a_summary : SummaryData :=
  {| summary := Some "A talk."; summary_error := None; message := None |}.

Definition summary_ok : JSPromise.Settled (JSPromise.Response SummaryData) :=
  JSPromise.Fulfilled
    {| JSPromise.status := 200; JSPromise.json := JSPromise.Fulfilled a_summary |}.

Definition transcript_ok
  : JSPromise.Settled (JSPromise.Response TranscriptData) :=
  JSPromise.Fulfilled
    {| JSPromise.status := 200; JSPromise.json := JSPromise.Fulfilled hi_there |}.


Definition summary_down
  : JSPromise.Settled (JSPromise.Response SummaryData) :=
  JSPromise.Rejected (JSPromise.ErrorObject "Failed to fetch").

(** A backend that answers every request with status 404 and a body that
    is not JSON, and one that answers 422 with an empty [detail]. *)
Definition backend_404_html (url : string)
  : JSPromise.Settled Proxy.BackendResponse :=
  JSPromise.Fulfilled
    {| JSPromise.status := 404;
       JSPromise.json :=
         JSPromise.Rejected (JSPromise.ErrorObject "Unexpected token <") |}.

Definition backend_422_empty_detail (url : string)
  : JSPromise.Settled Proxy.BackendResponse :=
  JSPromise.Fulfilled
    {| JSPromise.status := 422;
       JSPromise.json :=
         JSPromise.Fulfilled
           (Proxy.JObject [("detail", Proxy.JString "")]) |}.

(** A backend that answers 404 with a [detail] message. *)
Definition backend_404_detail (url : string)
  : JSPromise.Settled Proxy.BackendResponse :=
  JSPromise.Fulfilled
    {| JSPromise.status := 404;
       JSPromise.json :=
         JSPromise.Fulfilled
           (Proxy.JObject [("detail", Proxy.JString "No transcript")]) |}.

(** A backend that answers with the status 999 and a [detail] message,
    and one that answers 502 with a [detail] too large for a Number, which
    parses as [Infinity]. *)
Definition backend_999_detail (url : string)
  : JSPromise.Settled Proxy.BackendResponse :=
  JSPromise.Fulfilled
    {| JSPromise.status := 999;
       JSPromise.json :=
         JSPromise.Fulfilled
           (Proxy.JObject [("detail", Proxy.JString "Blocked")]) |}.

Definition backend_502_huge_detail (url : string)
  : JSPromise.Settled Proxy.BackendResponse :=
  JSPromise.Fulfilled
    {| JSPromise.status := 502;
       JSPromise.json :=
         JSPromise.Fulfilled
           (Proxy.JObject [("detail", Proxy.JNumber Infinity)]) |}.

End Examples.

(** ** The specification's wording, as definitions *)

Module Spec.

Import JSNumber JSString Transcript.

(** Subtitle style: a field is the Number's string, zero-padded on the left
    to a minimum width. *)
Definition zero_padded (width : nat) (field : number) : string :=
  padStart width (toString field).

(** [HH:MM:SS,mmm] with the fields derived as the specification says. *)
Definition encode_subtitle (s : number) : string :=
  let hours := floor (div s (of_Z 3600)) in
  let minutes := floor (div (rem s (of_Z 3600)) (of_Z 60)) in
  let seconds := floor (rem s (of_Z 60)) in
  let millis := floor (mul (rem s (of_Z 1)) (of_Z 1000)) in
  zero_padded 2 hours ++ ":" ++ zero_padded 2 minutes ++ ":" ++
  zero_padded 2 seconds ++ "," ++ zero_padded 3 millis.

(** A subtitle block: the index line, the time range line and the text. *)
Definition subtitle_block (position : nat) (entry : TranscriptEntry)
  : string :=
  decimal (N.of_nat position) ++ nl ++
  encode_subtitle (start entry) ++ " --> " ++
  encode_subtitle (add (start entry) (duration entry)) ++ nl ++
  text entry.

(** The entries paired with their 1-based positions, from [position] on. *)
Fixpoint numbered_from (position : nat) (entries : list TranscriptEntry)
  : list (nat * TranscriptEntry) :=
  match entries with
  | [] => []
  | e :: rest => (position, e) :: numbered_from (S position) rest
  end.

Definition blank_line : string := nl ++ nl.

(** The blocks of a document, in document order. *)
Definition subtitle_blocks (entries : list TranscriptEntry) : list string :=
  map (fun pe => subtitle_block (fst pe) (snd pe)) (numbered_from 1 entries).

(** The body a request delivers, when the request and the reading of its
    body both succeed. *)
Definition delivered {T : Type}
    (request : JSPromise.Settled (JSPromise.Response T)) : option T :=
  match request with
  | JSPromise.Fulfilled response =>
      match JSPromise.json response with
      | JSPromise.Fulfilled body => Some body
      | JSPromise.Rejected _ => None
      end
  | JSPromise.Rejected _ => None
  end.

(** The [detail] member of a response body, if the body is an object that
    has one. *)
Definition detail_field (body : Proxy.Json) : option Proxy.Json :=
  match body with
  | Proxy.JObject members => Proxy.member "detail" members
  | _ => None
  end.

(** *** Time codes over the rationals *)

(** The rational number a finite Number stands for. *)
Definition value (x : number) : Q :=
  match x with
  | S754_finite sx m e => (inject_Z (cond_Zopp sx (Z.pos m)) * 2 ^ e)%Q
  | _ => 0%Q
  end.

(** [x mod y] on rationals, for [0 < y]. *)
Definition Qmod (x y : Q) : Q := (x - y * inject_Z (Qfloor (x / y)))%Q.

(** A decimal digit. *)
Definition digit (d : Z) : ascii := ascii_of_nat (48 + Z.to_nat d).

(** The two decimal digits of an integer below 100, and the three of one
    below 1000. *)
Definition two_digits (n : Z) : string :=
  String (digit (n / 10)) (String (digit (n mod 10)) "").

Definition three_digits (n : Z) : string :=
  String (digit (n / 100))
    (String (digit (n / 10 mod 10)) (String (digit (n mod 10)) "")).

(** The fields of a time code as the specification derives them, over the
    rational number [v] of seconds. *)
Definition hours (v : Q) : Z := Qfloor (v / 3600)%Q.

Definition minutes (v : Q) : Z := Qfloor (Qmod v 3600 / 60)%Q.

Definition seconds (v : Q) : Z := Qfloor (Qmod v 60)%Q.

Definition millis (v : Q) : Z := Qfloor (Qmod v 1 * 1000)%Q.

End Spec.

(** ** More of the ECMAScript library *)

Module JSText.

(** A string is a sequence of code units; the ones of this development
    are below 256. Of these, [String.prototype.trim] removes the
    following (white space and line terminators). *)
Definition is_white_space (c : ascii) : bool :=
  match nat_of_ascii c with
  | 9%nat | 10%nat | 11%nat | 12%nat | 13%nat | 32%nat | 160%nat => true
  | _ => false
  end.

Fixpoint trimStart (s : string) : string :=
  match s with
  | "" => ""
  | String c s' => if is_white_space c then trimStart s' else s
  end.

Fixpoint trimEnd (s : string) : string :=
  match s with
  | "" => ""
  | String c s' =>
      match trimEnd s' with
      | "" => if is_white_space c then "" else String c ""
      | t => String c t
      end
  end.

(** [s.trim()]. *)
Definition trim (s : string) : string := trimEnd (trimStart s).

(** [s.split(sep)] for a separator of one code unit: the pieces between
    the separators; a string without separator, the empty one too, is one
    piece. *)
Fixpoint split (sep : ascii) (s : string) : list string :=
  match s with
  | "" => [""]
  | String c s' =>
      if Ascii.eqb c sep then "" :: split sep s'
      else match split sep s' with
           | [] => [String c ""]
           | piece :: pieces => String c piece :: pieces
           end
  end.

End JSText.

Module JSMath.

Import JSNumber.

(** [Math.ceil x]; a result of zero keeps the sign of [x]. *)
Definition ceil (x : number) : number :=
  match x with
  | S754_finite s m e =>
      if 0 <=? e then x
      else binary_normalize prec emax
             (- (- cond_Zopp s (Zpos m) / 2 ^ (- e))) 0 s
  | _ => x
  end.

(** ToBoolean of a Number. *)
Definition truthy (x : number) : bool :=
  match x with
  | S754_nan | S754_zero _ => false
  | _ => true
  end.

End JSMath.

(** ** JSON values in the browser *)

Module Client.

Import JSNumber JSString JSPromise Proxy.

(** [value[key]] for a parsed JSON value and a key that no prototype
    defines: reading a property of [null] throws, a value that is not an
    object has none. *)
Definition get_property (key : string) (value : Json)
  : Settled (option Json) :=
  match value with
  | JNull =>
      Rejected
        (ErrorObject
           ("Cannot read properties of null (reading '" ++ key ++ "')"))
  | JObject members => Fulfilled (member key members)
  | _ => Fulfilled None
  end.

(** ToString of a parsed JSON value. An array joins its elements with
    commas, [null] counting as the empty string; an object is
    "[object Object]", unless a member of its own hides [toString], which
    leaves no way to a primitive. *)
Fixpoint to_string (v : Json) : Settled string :=
  match v with
  | JNull => Fulfilled "null"
  | JBool b => Fulfilled (if b then "true" else "false")
  | JNumber n => Fulfilled (toString n)
  | JString s => Fulfilled s
  | JArray items =>
      parts <-
        (fix elements (l : list Json) : Settled (list string) :=
           match l with
           | [] => Fulfilled []
           | item :: rest =>
               s <- match item with
                    | JNull => Fulfilled ""
                    | _ => to_string item
                    end ;;
               ss <- elements rest ;;
               Fulfilled (s :: ss)
           end) items ;;
      Fulfilled (join "," parts)
  | JObject members =>
      match member "toString" members with
      | None => Fulfilled "[object Object]"
      | Some _ =>
          Rejected (ErrorObject "Cannot convert object to primitive value")
      end
  end.

(** The conversion inside a template literal; [None] is [undefined]. *)
Definition template (v : option Json) : Settled string :=
  match v with
  | None => Fulfilled "undefined"
  | Some v => to_string v
  end.

(** What [fetch] resolves to when a route handler answers [r]. *)
Definition served (r : NextResponse) : Response Json :=
  {| status := response_status r;
     json := Fulfilled (response_body r) |}.

End Client.

(** ** The rest of the transcript page *)

Module Studio.

Import JSNumber JSString JSPromise JSText Transcript.

Definition setIsSummaryLoading (v : bool) (st : State) : State :=
  {| transcriptData := transcriptData st;
     summaryData := summaryData st;
     isLoading := isLoading st;
     isSummaryLoading := v;
     error := error st;
     activeTimestamp := activeTimestamp st;
     includeTimestamps := includeTimestamps st;
     summaryError := summaryError st |}.

Definition setSummaryError (v : option string) (st : State) : State :=
  {| transcriptData := transcriptData st;
     summaryData := summaryData st;
     isLoading := isLoading st;
     isSummaryLoading := isSummaryLoading st;
     error := error st;
     activeTimestamp := activeTimestamp st;
     includeTimestamps := includeTimestamps st;
     summaryError := v |}.

(** *** Summary on demand *)

(** The address [fetchSummary(videoId)] requests. *)
Definition summary_url (videoId : string) : string :=
  "/api/summary?url=https://www.youtube.com/watch?v=" ++ videoId.

(** [fetchSummary] up to its [await]: the state while the request is on
    its way. *)
Definition fetchSummary_begin (st : State) : State :=
  setSummaryError None (setIsSummaryLoading true st).

(** [fetchSummary] from the [await] on, the request being settled as
    [request]. *)
Definition fetchSummary_settle
    (request : Settled (Response SummaryData)) (st : State) : State :=
  let attempt : Settled State :=
    response <- request ;;
    data <- json response ;;
    Fulfilled (setSummaryData (Some data) st) in
  let st' :=
    match attempt with
    | Fulfilled st' => st'
    | Rejected err =>
        setSummaryError (Some (message_of "Failed to fetch summary" err)) st
    end in
  setIsSummaryLoading false st'.

(** [fetchSummary(videoId)] against a server [api]. *)
Definition fetchSummary (api : string -> Settled (Response SummaryData))
    (videoId : string) (st : State) : State :=
  fetchSummary_settle (api (summary_url videoId)) (fetchSummary_begin st).

(** [!summaryData?.summary && !isSummaryLoading]: whether the heading of
    the summary card shows its "Generate Summary" button. *)
Definition generate_button (st : State) : bool :=
  negb (truthy (match summaryData st with
                | Some d => summary d
                | None => None
                end))
  && negb (isSummaryLoading st).

(** *** Statistics *)

(** The last element of an array, [entries[entries.length - 1]];
    [undefined], here [None], when the array is empty. *)
Definition last_entry (entries : list TranscriptEntry)
  : option TranscriptEntry :=
  nth_error entries (List.length entries - 1).

(** [Math.ceil(entries[entries.length - 1]?.start / 60) || 0], the number
    of the "Duration" card and of the heading; without entries the
    quotient is that of [undefined], NaN. *)
Definition duration_minutes (entries : list TranscriptEntry) : number :=
  let quotient :=
    match last_entry entries with
    | Some e => div (start e) (of_Z 60)
    | None => NaN
    end in
  let minutes := JSMath.ceil quotient in
  if JSMath.truthy minutes then minutes else of_Z 0.

(** The text of the "Duration" card. *)
Definition duration_card (entries : list TranscriptEntry) : string :=
  toString (duration_minutes entries) ++ " min".

(** [entries.reduce((acc, entry) => acc + entry.text.split(" ").length, 0)];
    a count, far below [2 ^ 53]. *)
Definition total_words (entries : list TranscriptEntry) : nat :=
  fold_left
    (fun acc entry => (acc + List.length (split " "%char (text entry)))%nat)
    entries 0%nat.

End Studio.

(** ** The earlier transcript page *)

Module LegacyPage.

Import JSNumber JSString JSPromise Transcript.

(** The state hooks of the earlier [TranscriptContent], which has no
    summary. *)
Record State : Type := {
  transcriptData : option TranscriptData;
  isLoading : bool;
  error : option string;
  activeTimestamp : option number;
  includeTimestamps : bool
}.

Definition initial : State := {|
  transcriptData := None;
  isLoading := true;
  error := None;
  activeTimestamp := None;
  includeTimestamps := true
|}.

(** [fetchTranscript]: a response that is not [ok] is thrown away with a
    fixed message before its body is read. *)
Definition fetchTranscript
    (request : Settled (Response TranscriptData)) (st : State) : State :=
  let attempt : Settled TranscriptData :=
    response <- request ;;
    if negb (ok response) then
      Rejected (ErrorObject "Failed to fetch transcript")
    else
      data <- json response ;;
      Fulfilled data in
  match attempt with
  | Fulfilled data =>
      {| transcriptData := Some data;
         isLoading := false;
         error := error st;
         activeTimestamp := activeTimestamp st;
         includeTimestamps := includeTimestamps st |}
  | Rejected err =>
      {| transcriptData := transcriptData st;
         isLoading := false;
         error := Some (message_of "An error occurred" err);
         activeTimestamp := activeTimestamp st;
         includeTimestamps := includeTimestamps st |}
  end.

Inductive View : Type :=
| Spinner
| ErrorScreen (msg : string)
| NoContent
| Page (data : TranscriptData).

Definition render (st : State) : View :=
  if isLoading st then Spinner
  else match error st with
  | Some (String _ _ as msg) => ErrorScreen msg
  | _ =>
    match transcriptData st with
    | None => NoContent
    | Some data => Page data
    end
  end.

End LegacyPage.

(** ** The home page *)

Module Home.

Import JSString JSPromise JSText Proxy Client.

Record State : Type := {
  url : string;
  isLoading : bool;
  error : option string
}.

Definition initial : State :=
  {| url := ""; isLoading := false; error := None |}.

Definition setUrl (v : string) (st : State) : State :=
  {| url := v; isLoading := isLoading st; error := error st |}.

(** The address the form requests. *)
Definition transcript_url (url : string) : string :=
  "/api/transcript?url=" ++ url.

(** [handleGetTranscript]: the state once the handler has run to its end,
    and the address given to [router.push], if any. A blank address
    returns at once. *)
Definition handleGetTranscript (api : string -> Settled (Response Json))
    (st : State) : State * option string :=
  match trim (url st) with
  | "" => (st, None)
  | _ =>
      let attempt : Settled string :=
        response <- api (transcript_url (url st)) ;;
        if negb (ok response) then
          errorData <- json response ;;
          err <- get_property "error" errorData ;;
          message <- to_string (or_else err "Failed to fetch transcript") ;;
          Rejected (ErrorObject message)
        else
          data <- json response ;;
          video_id <- get_property "video_id" data ;;
          id <- template video_id ;;
          Fulfilled ("/transcripts?videoId=" ++ id) in
      match attempt with
      | Fulfilled target =>
          ({| url := url st; isLoading := false; error := None |},
           Some target)
      | Rejected err =>
          ({| url := url st; isLoading := false;
              error := Some (message_of "An error occurred" err) |},
           None)
      end
  end.

End Home.

(** ** The earlier home page *)

Module LegacyHome.

Import JSString JSPromise Proxy Transcript.

(** The state hooks; the page keeps room for a transcript of its own. *)
Record State : Type := {
  url : string;
  isLoading : bool;
  transcriptData : option TranscriptData;
  error : option string
}.

Definition initial : State :=
  {| url := ""; isLoading := false; transcriptData := None;
     error := None |}.

Definition setUrl (v : string) (st : State) : State :=
  {| url := v; isLoading := isLoading st;
     transcriptData := transcriptData st; error := error st |}.

(** [handleDownload], whose body is that of the present page's
    [handleGetTranscript]: it sets the loading flag and the error, and
    navigates. *)
Definition handleDownload (api : string -> Settled (Response Json))
    (st : State) : State * option string :=
  let '(home, target) :=
    Home.handleGetTranscript api
      {| Home.url := url st; Home.isLoading := isLoading st;
         Home.error := error st |} in
  ({| url := Home.url home; isLoading := Home.isLoading home;
      transcriptData := transcriptData st; error := Home.error home |},
   target).

(** The text that [copyToClipboard] writes, if any. *)
Definition copyToClipboard (st : State) : option string :=
  match transcriptData st with
  | None => None
  | Some data => Some (join " " (map text (transcript data)))
  end.

(** The file that [downloadAsFile] offers, if any; this page has no
    timestamp switch. *)
Definition downloadAsFile (st : State) (fmt : format) : option Download :=
  match transcriptData st with
  | None => None
  | Some data =>
      Some {| filename := "transcript_" ++ video_id data ++ "." ++
                          format_name fmt;
              mime := "text/plain";
              content :=
                match fmt with
                | txt => join nl (map text (transcript data))
                | srt => join nl (mapi srt_block (transcript data))
                end |}
  end.

(** [transcriptData && ...]: whether the "Transcript Ready" section, with
    its buttons and its list, is rendered. *)
Definition shows_transcript (st : State) : bool :=
  match transcriptData st with
  | None => false
  | Some _ => true
  end.

(** What the user can do: type an address, submit the form (the server
    being [api] at that time), press "Copy", press "TXT" or "SRT". *)
Inductive Event : Type :=
| Typing (v : string)
| Submit (api : string -> Settled (Response Json))
| Copy
| Download (fmt : format).

Definition step (st : State) (ev : Event) : State :=
  match ev with
  | Typing v => setUrl v st
  | Submit api => fst (handleDownload api st)
  | Copy => st
  | Download _ => st
  end.

End LegacyHome.

(** ** The quiz component *)

Module Quiz.

Import JSNumber JSPromise.

Record QuizQuestion : Type := {
  question : string;
  options : list string;
  correctAnswer : number
}.

(** A body of the quiz route's answer other than [null], as the component
    reads it: [data.questions], which a body without that member (an error
    body [{ error }], say) leaves [undefined], here [None]. *)
Record QuizData : Type := {
  data_questions : option (list QuizQuestion)
}.

(** [data.questions] of the body of an answer, where [None] is the body
    [null]: reading a property of [null] throws. *)
Definition get_questions (body : option QuizData)
  : Settled (option (list QuizQuestion)) :=
  match body with
  | None =>
      Rejected
        (ErrorObject "Cannot read properties of null (reading 'questions')")
  | Some data => Fulfilled (data_questions data)
  end.

(** The state hooks. The counters are array indices and counts, far below
    [2 ^ 53]; [selectedAnswer] is the index of an option or [null]. *)
Record State : Type := {
  showQuiz : bool;
  questions : option (list QuizQuestion);
  currentQuestion : nat;
  selectedAnswer : option nat;
  score : nat;
  quizCompleted : bool;
  isLoading : bool
}.

Definition initial : State := {|
  showQuiz := false;
  questions := Some [];
  currentQuestion := 0;
  selectedAnswer := None;
  score := 0;
  quizCompleted := false;
  isLoading := false
|}.

Definition setIsLoading (v : bool) (st : State) : State :=
  {| showQuiz := showQuiz st;
     questions := questions st;
     currentQuestion := currentQuestion st;
     selectedAnswer := selectedAnswer st;
     score := score st;
     quizCompleted := quizCompleted st;
     isLoading := v |}.

(** [fetchQuiz] up to its [await]. *)
Definition fetchQuiz_begin (st : State) : State := setIsLoading true st.

(** [fetchQuiz] from the [await] on: the questions of the body are stored
    whatever the status; a failure (of the request, of reading the body,
    of reading the questions of the body [null]) is logged and leaves the
    quiz as it is. *)
Definition fetchQuiz_settle (request : Settled (Response (option QuizData)))
    (st : State) : State :=
  let attempt : Settled State :=
    response <- request ;;
    data <- json response ;;
    found <- get_questions data ;;
    Fulfilled {| showQuiz := true;
                 questions := found;
                 currentQuestion := 0;
                 selectedAnswer := selectedAnswer st;
                 score := 0;
                 quizCompleted := false;
                 isLoading := isLoading st |} in
  let st' :=
    match attempt with
    | Fulfilled st' => st'
    | Rejected _ => st
    end in
  setIsLoading false st'.

Definition handleAnswerSelect (index : nat) (st : State) : State :=
  {| showQuiz := showQuiz st;
     questions := questions st;
     currentQuestion := currentQuestion st;
     selectedAnswer := Some index;
     score := score st;
     quizCompleted := quizCompleted st;
     isLoading := isLoading st |}.

(** [selectedAnswer === question.correctAnswer]. *)
Definition is_correct (selected : option nat) (q : QuizQuestion) : bool :=
  match selected with
  | Some index => strict_eq (of_Z (Z.of_nat index)) (correctAnswer q)
  | None => false
  end.

(** [currentQuestion < questions.length - 1]. *)
Definition has_next (current : nat) (qs : list QuizQuestion) : bool :=
  Z.of_nat current <? Z.of_nat (List.length qs) - 1.

(** [handleNextQuestion]; [None] when it throws, [questions] or
    [questions[currentQuestion]] being [undefined]. *)
Definition handleNextQuestion (st : State) : option State :=
  match questions st with
  | None => None
  | Some qs =>
      match nth_error qs (currentQuestion st) with
      | None => None
      | Some q =>
          let score' :=
            if is_correct (selectedAnswer st) q then (score st + 1)%nat
            else score st in
          if has_next (currentQuestion st) qs then
            Some {| showQuiz := showQuiz st;
                    questions := questions st;
                    currentQuestion := (currentQuestion st + 1)%nat;
                    selectedAnswer := None;
                    score := score';
                    quizCompleted := quizCompleted st;
                    isLoading := isLoading st |}
          else
            Some {| showQuiz := showQuiz st;
                    questions := questions st;
                    currentQuestion := currentQuestion st;
                    selectedAnswer := selectedAnswer st;
                    score := score';
                    quizCompleted := true;
                    isLoading := isLoading st |}
      end
  end.

(** The three closing remarks. *)
Inductive Verdict : Type := PerfectScore | GoodJob | KeepPracticing.

(** [score === total ? ... : score >= total / 2 ? ... : ...]. *)
Definition verdict (score total : nat) : Verdict :=
  if Nat.eqb score total then PerfectScore
  else if Qle_bool (inject_Z (Z.of_nat total) / 2)
                   (inject_Z (Z.of_nat score))
  then GoodJob
  else KeepPracticing.

Inductive NextLabel : Type := NextQuestion | FinishQuiz.

(** What the component renders. *)
Inductive View : Type :=
| TakeQuiz (disabled : bool) (label : string)
| Completed (score total : nat) (remark : Verdict)
| Asking (number total : nat) (text : string) (choices : list string)
         (selected : option nat) (next : option NextLabel).

(** The render function; [None] when it throws. *)
Definition render (st : State) : option View :=
  if negb (showQuiz st) then
    Some (TakeQuiz (isLoading st)
            (if isLoading st then "Generating Quiz..." else "Take Quiz"))
  else
    match questions st with
    | None => None
    | Some qs =>
        let total := List.length qs in
        if quizCompleted st then
          Some (Completed (score st) total (verdict (score st) total))
        else
          match nth_error qs (currentQuestion st) with
          | None => None
          | Some q =>
              Some (Asking (currentQuestion st + 1) total (question q)
                      (options q) (selectedAnswer st)
                      (match selectedAnswer st with
                       | None => None
                       | Some _ =>
                           Some (if has_next (currentQuestion st) qs
                                 then NextQuestion else FinishQuiz)
                       end))
          end
    end.

(** *** Sessions *)

(** What can happen to a mounted component: a click on the button that
    calls [fetchQuiz] ("Take Quiz", "Retake Quiz"), the answer to a
    request on its way, a click on an option, a click on the button that
    calls [handleNextQuestion]. *)
Inductive Event : Type :=
| ClickFetch
| Settle (request : Settled (Response (option QuizData)))
| Select (index : nat)
| ClickNext.

(** The component and the number of requests on their way. *)
Record Session : Type := {
  state : State;
  pending : nat
}.

Definition mounted : Session := {| state := initial; pending := 0 |}.

Inductive Outcome : Type :=
| Running (s : Session)
| NotOffered
| Thrown.

(** One event: it needs its control on the screen, or a request on its
    way. *)
Definition step (s : Session) (ev : Event) : Outcome :=
  let st := state s in
  match render st with
  | None => Thrown
  | Some view =>
      match ev, view with
      | ClickFetch, TakeQuiz false _
      | ClickFetch, Completed _ _ _ =>
          Running {| state := fetchQuiz_begin st;
                     pending := S (pending s) |}
      | Settle request, _ =>
          match pending s with
          | O => NotOffered
          | S n =>
              Running {| state := fetchQuiz_settle request st;
                         pending := n |}
          end
      | Select index, Asking _ _ _ choices _ _ =>
          if (index <? List.length choices)%nat then
            Running {| state := handleAnswerSelect index st;
                       pending := pending s |}
          else NotOffered
      | ClickNext, Asking _ _ _ _ _ (Some _) =>
          match handleNextQuestion st with
          | Some st' => Running {| state := st'; pending := pending s |}
          | None => Thrown
          end
      | _, _ => NotOffered
      end
  end.

Fixpoint run (events : list Event) (s : Session) : Outcome :=
  match events with
  | [] => Running s
  | ev :: rest =>
      match step s ev with
      | Running s' => run rest s'
      | other => other
      end
  end.



(** Answering in turn: select, then go on. *)
Definition answer (st : option State) (index : nat) : option State :=
  match st with
  | Some st => handleNextQuestion (handleAnswerSelect index st)
  | None => None
  end.

(** How many of the answers are the correct ones of the questions. *)
Fixpoint count_correct (qs : list QuizQuestion) (answers : list nat) : nat :=
  match qs, answers with
  | q :: qs', a :: answers' =>
      ((if is_correct (Some a) q then 1 else 0)
       + count_correct qs' answers')%nat
  | _, _ => 0%nat
  end.

End Quiz.

(** ** Notions used in the statements *)

Module Notions.

Import JSNumber JSString JSPromise JSText Transcript.

(** Whether the code unit [c] occurs in [s]. *)
Fixpoint occurs (c : ascii) (s : string) : bool :=
  match s with
  | "" => false
  | String d s' => Ascii.eqb d c || occurs c s'
  end.

(** Whether [s] is made of white space only. *)
Fixpoint blank (s : string) : bool :=
  match s with
  | "" => true
  | String c s' => is_white_space c && blank s'
  end.

(** The line feed, as a code unit. *)
Definition line_feed : ascii := ascii_of_nat 10.

(** The three route handlers. *)
Definition routes : list Proxy.Route :=
  [Proxy.transcript_route; Proxy.summary_route; Proxy.quiz_route].

(** The address a route requests from the backend for the parameter
    [value]. *)
Definition request_url (route : Proxy.Route) (env : option string)
    (value : string) : string :=
  Proxy.BACKEND_URL route env ++ Proxy.backend_path route ++
  Proxy.compose route value.

(** A status in the range 200 to 299, as [response.ok] tests it. *)
Definition success_status (code : Z) : bool :=
  (200 <=? code) && (code <=? 299).

(** A JSON value that [JSON.stringify] and [JSON.parse] give back as it
    is: none of its Numbers is infinite, NaN or the negative zero. *)
Fixpoint plain (v : Proxy.Json) : bool :=
  match v with
  | Proxy.JNumber (S754_nan | S754_infinity _ | S754_zero true) => false
  | Proxy.JArray items => forallb plain items
  | Proxy.JObject members =>
      forallb (fun kv => match kv with (_, w) => plain w end) members
  | _ => true
  end.

(** Induction on a JSON value and on the values inside it. *)
Section JsonInduction.

Variable P : Proxy.Json -> Prop.
Hypothesis P_null : P Proxy.JNull.
Hypothesis P_bool : forall b, P (Proxy.JBool b).
Hypothesis P_number : forall n, P (Proxy.JNumber n).
Hypothesis P_string : forall s, P (Proxy.JString s).
Hypothesis P_array :
  forall items, Forall P items -> P (Proxy.JArray items).
Hypothesis P_object :
  forall members, Forall (fun kv => P (snd kv)) members ->
                  P (Proxy.JObject members).

Fixpoint Json_induction (v : Proxy.Json) : P v :=
  match v with
  | Proxy.JNull => P_null
  | Proxy.JBool b => P_bool b
  | Proxy.JNumber n => P_number n
  | Proxy.JString s => P_string s
  | Proxy.JArray items =>
      P_array items
        ((fix all (l : list Proxy.Json) : Forall P l :=
            match l with
            | [] => Forall_nil P
            | w :: rest => Forall_cons w (Json_induction w) (all rest)
            end) items)
  | Proxy.JObject members =>
      P_object members
        ((fix all (l : list (string * Proxy.Json))
            : Forall (fun kv => P (snd kv)) l :=
            match l with
            | [] => Forall_nil _
            | (k, w) :: rest =>
                Forall_cons (k, w) (Json_induction w) (all rest)
            end) members)
  end.

End JsonInduction.

(** A search parameter that is present and not empty. *)
Definition given (param : option string) : bool :=
  match param with
  | None | Some "" => false
  | Some _ => true
  end.

(** The answers of a route to a missing parameter and to a failure of its
    own. *)
Definition answer_400 (route : Proxy.Route) : Proxy.NextResponse :=
  {| Proxy.response_status := 400;
     Proxy.response_body :=
       Proxy.error_body (Proxy.JString (Proxy.missing_message route)) |}.

Definition answer_500 (route : Proxy.Route) : Proxy.NextResponse :=
  {| Proxy.response_status := 500;
     Proxy.response_body :=
       Proxy.error_body (Proxy.JString (Proxy.catch_message route)) |}.

(** The home page after a submission that failed with [msg], and after
    one that went through. *)
Definition home_failed (st : Home.State) (msg : string) : Home.State :=
  {| Home.url := Home.url st; Home.isLoading := false;
     Home.error := Some msg |}.

Definition home_done (st : Home.State) : Home.State :=
  {| Home.url := Home.url st; Home.isLoading := false;
     Home.error := None |}.


(** What holds of every session of a quiz, whatever is delivered. *)
Definition steady (s : Quiz.Session) : Prop :=
  (Quiz.isLoading (Quiz.state s) = true -> (0 < Quiz.pending s)%nat)
  /\ (Quiz.quizCompleted (Quiz.state s) = true ->
      Quiz.showQuiz (Quiz.state s) = true
      /\ Quiz.selectedAnswer (Quiz.state s) <> None
      /\ Quiz.questions (Quiz.state s) <> None).

End Notions.

(** ** More sample documents *)

Module Samples.

Import JSNumber JSPromise Proxy Client.

(** A backend that knows one address only, where it answers 404 with a
    [detail]; any other request fails in transit. *)
Definition backend_one_address (url : string) : Settled BackendResponse :=
  if String.eqb url
       "http://localhost:8000/quiz?url=https://www.youtube.com/watch?v=u"
  then Examples.backend_404_detail url
  else Rejected (ErrorObject "Failed to fetch").

(** A backend that is reached at [http://localhost:8000] only, where it
    answers 404 with a [detail]. *)
Definition backend_localhost_only (url : string) : Settled BackendResponse :=
  if String.prefix "http://localhost:8000/" url
  then Examples.backend_404_detail url
  else Rejected (ErrorObject "Failed to fetch").

(** The application's server, as the home page reaches it: the transcript
    route in front of a backend, the parameter being read from the
    address as [param]. *)
Definition transcript_api (env : option string) (param : option string)
    (backend : string -> Settled BackendResponse) (url : string)
  : Settled (Response Json) :=
  Fulfilled (served (GET transcript_route env param backend)).

(** A backend that delivers a transcript for the video "abc" with status
    201, and one that delivers an empty object. *)
Definition backend_created (url : string) : Settled BackendResponse :=
  Fulfilled
    {| status := 201;
       json := Fulfilled
                 (JObject [("video_id", JString "abc");
                           ("transcript", JArray [])]) |}.

Definition backend_empty_object (url : string) : Settled BackendResponse :=
  Fulfilled {| status := 200; json := Fulfilled (JObject []) |}.

(** A backend whose body holds a number too large for a Number, which
    parses as [Infinity]. *)
Definition backend_huge_number (url : string) : Settled BackendResponse :=
  Fulfilled
    {| status := 200;
       json := Fulfilled (JObject [("duration", JNumber Infinity)]) |}.

(** A home page with an address typed in, and one with blanks. *)
Definition home_with_url : Home.State :=
  Home.setUrl "https://www.youtube.com/watch?v=abc" Home.initial.

Definition home_with_blanks : Home.State :=
  Home.setUrl "   " Home.initial.

(** Two questions with three options each; the correct answers are the
    options at indices 1 and 0. *)
Definition two_questions : list Quiz.QuizQuestion :=
  [ {| Quiz.question := "First?"; Quiz.options := ["a"; "b"; "c"];
       Quiz.correctAnswer := of_Z 1 |};
    {| Quiz.question := "Second?"; Quiz.options := ["d"; "e"; "f"];
       Quiz.correctAnswer := of_Z 0 |} ].

Definition quiz_ok : Settled (Response (option Quiz.QuizData)) :=
  Fulfilled
    {| status := 200;
       json := Fulfilled
                 (Some {| Quiz.data_questions := Some two_questions |}) |}.

(** The quiz route's answer to a failure, as the component reads it: a
    body without questions. *)
Definition quiz_failed : Settled (Response (option Quiz.QuizData)) :=
  Fulfilled
    {| status := 500;
       json := Fulfilled (Some {| Quiz.data_questions := None |}) |}.

(** An answer whose body is [null]. *)
Definition quiz_null : Settled (Response (option Quiz.QuizData)) :=
  Fulfilled {| status := 200; json := Fulfilled None |}.

(** A quiz loaded and not yet answered. *)
Definition quiz_loaded : Quiz.State :=
  Quiz.fetchQuiz_settle quiz_ok (Quiz.fetchQuiz_begin Quiz.initial).

(** A transcript request answered with status 404 and a readable body. *)
Definition transcript_404
  : Settled (Response Transcript.TranscriptData) :=
  Fulfilled {| status := 404; json := Fulfilled Examples.hi_there |}.

End Samples.

(** ** Properties *)

Module StringFacts.

Import JSString.

Lemma append_assoc (a b c : string) : (a ++ b) ++ c = a ++ (b ++ c).
Proof.
  induction a as [|ch a IH]; simpl; [reflexivity | now rewrite IH].
Qed.

Lemma append_nil_r (a : string) : a ++ "" = a.
Proof.
  induction a as [|ch a IH]; simpl; [reflexivity | now rewrite IH].
Qed.

Lemma length_append (a b : string) :
  String.length (a ++ b) = (String.length a + String.length b)%nat.
Proof.
  induction a as [|ch a IH]; simpl; [reflexivity | now rewrite IH].
Qed.

Lemma length_repeat (c : ascii) (n : nat) : String.length (repeat c n) = n.
Proof.
  induction n as [|n IH]; simpl; [reflexivity | now rewrite IH].
Qed.

(** [padStart] leaves a string that is long enough alone, and fills a
    shorter one up to the target length. *)
Lemma padStart_long (n : nat) (s : string) :
  (n <= String.length s)%nat -> padStart n s = s.
Proof.
  intros H. unfold padStart.
  replace (n - String.length s)%nat with 0%nat by lia. reflexivity.
Qed.

Lemma length_padStart (n : nat) (s : string) :
  String.length (padStart n s) = Nat.max n (String.length s).
Proof.
  unfold padStart. rewrite length_append, length_repeat. lia.
Qed.

End StringFacts.

Module NumberFacts.

Import JSNumber JSString Rounding Spec.

(** A Number between two positive finite ones of the same exponent is
    finite, positive, of that exponent, and its mantissa lies between
    theirs. *)
Lemma between_same_exponent (lo hi : positive) (e : Z) (x : number) :
  leb (S754_finite false lo e) x = true ->
  ltb x (S754_finite false hi e) = true ->
  exists m, x = S754_finite false m e /\ Z.pos lo <= Z.pos m < Z.pos hi.
Proof.
  unfold leb, ltb, SFleb, SFltb.
  destruct x as [sx | sx | | sx m ex]; simpl;
    try discriminate; try (destruct sx; discriminate).
  destruct sx; [discriminate|].
  destruct (Z.compare_spec e ex) as [He | He | He]; try discriminate.
  - subst ex. rewrite Z.compare_refl.
    change (Pos.compare_cont Eq lo m) with (lo ?= m)%positive.
    change (Pos.compare_cont Eq m hi) with (m ?= hi)%positive.
    intros Hlo Hhi. exists m. split; [reflexivity|]. split.
    + apply Pos2Z.pos_le_pos, Pos.compare_le_iff. intros Hgt.
      rewrite Hgt in Hlo. discriminate.
    + apply Pos2Z.pos_lt_pos, Pos.compare_lt_iff.
      destruct (m ?= hi)%positive eqn:E;
        [discriminate | exact E | discriminate].
  - intros _. rewrite (proj2 (Z.compare_gt_iff ex e) He). discriminate.
Qed.

Lemma div_between (a b q : Z) :
  0 < b -> b * q <= a < b * (q + 1) -> a / b = q.
Proof.
  intros Hb Ha. symmetry. apply Z.div_unique with (r := a - b * q); lia.
Qed.

Lemma fifty_nine_and_a_half :
  of_ratio 119 2 = S754_finite false (119 * 2 ^ 46) (-47).
Proof.
  vm_compute. reflexivity.
Qed.

Lemma sixty : of_Z 60 = S754_finite false (120 * 2 ^ 46) (-47).
Proof.
  vm_compute. reflexivity.
Qed.

Lemma fexp_eq (e : Z) : fexp prec emax e = Z.max (e - 53) (-1074).
Proof.
  reflexivity.
Qed.

Lemma digits2_size (p : positive) : digits2_pos p = Pos.size p.
Proof.
  induction p as [p IH | p IH |]; simpl; now rewrite ?IH.
Qed.

(** A positive number has exactly as many binary digits as [digits2_pos]
    counts. *)
Lemma digits2_bounds (p : positive) :
  2 ^ (Z.pos (digits2_pos p) - 1) <= Z.pos p < 2 ^ Z.pos (digits2_pos p).
Proof.
  rewrite digits2_size.
  pose proof (Pos.size_gt p) as Hgt. pose proof (Pos.size_le p) as Hle.
  apply Pos2Z.pos_lt_pos in Hgt. apply Pos2Z.pos_le_pos in Hle.
  rewrite Pos2Z.inj_pow in Hgt, Hle.
  change (Z.pos p~0) with (2 * Z.pos p) in Hle.
  replace (Z.pos (Pos.size p)) with (Z.succ (Z.pos (Pos.size p) - 1))
    in Hle by lia.
  rewrite Z.pow_succ_r in Hle by lia. lia.
Qed.

Lemma digits2_le (p : positive) (k : Z) :
  Z.pos p < 2 ^ k -> Z.pos (digits2_pos p) <= k.
Proof.
  intros H. destruct (Z.le_gt_cases (Z.pos (digits2_pos p)) k) as [|Hk];
    [assumption|].
  pose proof (digits2_bounds p) as [Hlo _].
  assert (0 <= k).
  { destruct (Z.le_gt_cases 0 k); [assumption|].
    rewrite Z.pow_neg_r in H by assumption. lia. }
  assert (2 ^ k <= 2 ^ (Z.pos (digits2_pos p) - 1))
    by (apply Z.pow_le_mono_r; lia).
  lia.
Qed.

Lemma digits2_gt (p : positive) (k : Z) :
  2 ^ k <= Z.pos p -> k < Z.pos (digits2_pos p).
Proof.
  intros H. destruct (Z.lt_ge_cases k (Z.pos (digits2_pos p))) as [|Hk];
    [assumption|].
  pose proof (digits2_bounds p) as [_ Hhi].
  assert (2 ^ Z.pos (digits2_pos p) <= 2 ^ k)
    by (apply Z.pow_le_mono_r; lia).
  lia.
Qed.

Lemma iter_xO_value (p d : positive) :
  Z.pos (Pos.iter xO p d) = Z.pos p * 2 ^ Z.pos d.
Proof.
  induction d as [|d IH] using Pos.peano_ind.
  - simpl. lia.
  - rewrite Pos.iter_succ, Pos2Z.inj_succ, Z.pow_succ_r by lia.
    change (Z.pos (Pos.iter xO p d)~0) with (2 * Z.pos (Pos.iter xO p d)).
    rewrite IH. ring.
Qed.

Lemma iter_xO_digits (p d : positive) :
  Z.pos (digits2_pos (Pos.iter xO p d)) = Z.pos (digits2_pos p) + Z.pos d.
Proof.
  induction d as [|d IH] using Pos.peano_ind.
  - simpl. lia.
  - rewrite Pos.iter_succ. simpl digits2_pos.
    rewrite Pos2Z.inj_succ, IH. lia.
Qed.

(** Rounding a mantissa that is already in canonical position changes
    nothing. *)
Lemma binary_round_aux_canonical (sx : bool) (m : positive) (e : Z) :
  fexp prec emax (Z.pos (digits2_pos m) + e) = e -> e <= 971 ->
  binary_round_aux prec emax sx (Z.pos m) e loc_Exact = S754_finite sx m e.
Proof.
  intros Hc He. unfold binary_round_aux, shr_fexp. cbn [Zdigits2].
  rewrite Hc, Z.sub_diag.
  cbn [shr shr_record_of_loc shr_m shr_r shr_s loc_of_shr_record
       round_nearest_even Zdigits2].
  rewrite Hc, Z.sub_diag. cbn [shr shr_record_of_loc shr_m].
  replace (e <=? emax - prec) with true; [reflexivity|].
  symmetry. apply Z.leb_le. unfold emax, prec. lia.
Qed.

Lemma valid_intro (sx : bool) (m : positive) (e : Z) :
  fexp prec emax (Z.pos (digits2_pos m) + e) = e -> e <= 971 ->
  valid (S754_finite sx m e) = true.
Proof.
  intros Hc He. unfold valid, valid_binary, bounded, canonical_mantissa.
  apply andb_true_intro. split.
  - apply Z.eqb_eq. assumption.
  - apply Z.leb_le. unfold emax, prec. lia.
Qed.

(** [binary_round] is exact on a mantissa short enough to be shifted into
    canonical position. *)
Lemma binary_round_exact (sx : bool) (p : positive) (e : Z) :
  let f := fexp prec emax (Z.pos (digits2_pos p) + e) in
  f <= e -> f <= 971 ->
  exists m, binary_round prec emax sx p e = S754_finite sx m f
            /\ Z.pos m = Z.pos p * 2 ^ (e - f)
            /\ valid (S754_finite sx m f) = true.
Proof.
  intros f Hf Hmax. unfold binary_round, shl_align.
  change (fexp prec emax (Z.pos (digits2_pos p) + e)) with f.
  assert (Ef : fexp prec emax (Z.pos (digits2_pos p) + e) = f) by reflexivity.
  clearbody f.
  destruct (f - e) as [|k|k] eqn:Hk; try lia.
  - assert (H : f = e) by lia. rewrite H in *. exists p. split; [|split].
    + apply binary_round_aux_canonical; assumption.
    + rewrite Z.sub_diag. simpl. lia.
    + apply valid_intro; assumption.
  - assert (Hcanon : fexp prec emax
                       (Z.pos (digits2_pos (Pos.iter xO p k)) + f) = f).
    { rewrite iter_xO_digits.
      replace (Z.pos (digits2_pos p) + Z.pos k + f)
        with (Z.pos (digits2_pos p) + e) by lia.
      assumption. }
    exists (Pos.iter xO p k). split; [|split].
    + apply binary_round_aux_canonical; assumption.
    + rewrite iter_xO_value. f_equal. f_equal. lia.
    + apply valid_intro; assumption.
Qed.

(** What validity says of a finite Number. *)
Lemma valid_finite (s : bool) (m : positive) (e : Z) :
  valid (S754_finite s m e) = true ->
  fexp prec emax (Z.pos (digits2_pos m) + e) = e
  /\ Z.pos (digits2_pos m) <= 53 /\ -1074 <= e <= 971.
Proof.
  unfold valid, valid_binary, bounded, canonical_mantissa. intros H.
  apply andb_prop in H. destruct H as [Hc He].
  apply Z.eqb_eq in Hc. apply Z.leb_le in He.
  unfold emax, prec in He. pose proof Hc as Hc'. rewrite fexp_eq in Hc'.
  repeat split; [assumption | lia | lia | lia].
Qed.

Lemma valid_mantissa_lt (s : bool) (m : positive) (e : Z) :
  valid (S754_finite s m e) = true -> Z.pos m < 2 ^ 53.
Proof.
  intros H. destruct (valid_finite s m e H) as (_ & Hd & _).
  pose proof (digits2_bounds m) as [_ Hhi].
  assert (2 ^ Z.pos (digits2_pos m) <= 2 ^ 53)
    by (apply Z.pow_le_mono_r; lia).
  lia.
Qed.


Lemma rem_units_bounds (m : positive) (e : Z) (md : positive) (ed : Z) :
  let r := rem_units m e md ed in
  0 <= r /\ r < Z.pos md * 2 ^ (ed - Z.min e ed)
  /\ r <= Z.pos m * 2 ^ (e - Z.min e ed).
Proof.
  intros r. subst r. unfold rem_units.
  assert (0 < 2 ^ (ed - Z.min e ed)) by (apply Z.pow_pos_nonneg; lia).
  assert (0 < 2 ^ (e - Z.min e ed)) by (apply Z.pow_pos_nonneg; lia).
  assert (0 < Z.pos md * 2 ^ (ed - Z.min e ed)) by lia.
  pose proof (Z.mod_pos_bound (Z.pos m * 2 ^ (e - Z.min e ed))
                (Z.pos md * 2 ^ (ed - Z.min e ed)) ltac:(assumption)).
  repeat split; try lia.
  apply Z.mod_le; lia.
Qed.

(** [%] on finite Numbers with a positive divisor is exact: the result
    is a zero or the remainder shifted into canonical position, with the
    sign of the dividend. *)
Lemma rem_finite (sn : bool) (m : positive) (e : Z) (md : positive)
    (ed : Z) :
  valid (S754_finite sn m e) = true ->
  valid (S754_finite false md ed) = true ->
  let e' := Z.min e ed in
  let r := rem_units m e md ed in
  (r = 0 /\ rem (S754_finite sn m e) (S754_finite false md ed)
            = S754_zero sn)
  \/ (exists mz ez,
        rem (S754_finite sn m e) (S754_finite false md ed)
          = S754_finite sn mz ez
        /\ ez <= e' /\ Z.pos mz = r * 2 ^ (e' - ez)
        /\ valid (S754_finite sn mz ez) = true).
Proof.
  intros Hs Hd e' r.
  pose proof (valid_mantissa_lt _ _ _ Hs) as Hm.
  pose proof (valid_mantissa_lt _ _ _ Hd) as Hmd.
  destruct (valid_finite _ _ _ Hs) as (_ & _ & He).
  destruct (valid_finite _ _ _ Hd) as (_ & _ & Hed).
  pose proof (rem_units_bounds m e md ed) as (Hr0 & Hr1 & Hr2).
  fold r in Hr0, Hr1, Hr2. fold e' in Hr1, Hr2.
  unfold rem. fold e'. change ((Z.pos m * 2 ^ (e - e')) mod
                                 (Z.pos md * 2 ^ (ed - e'))) with r.
  destruct r as [|p|p] eqn:Hr;
    [left; split; [reflexivity | destruct sn; reflexivity] | | lia].
  right.
  assert (Hp : Z.pos p < 2 ^ 53).
  { destruct (Z.le_ge_cases e ed).
    - replace (e - e') with 0 in Hr2 by lia. simpl in Hr2. lia.
    - replace (ed - e') with 0 in Hr1 by lia. simpl in Hr1. lia. }
  pose proof (digits2_le p 53 Hp) as Hdp.
  assert (Hf : fexp prec emax (Z.pos (digits2_pos p) + e') <= e')
    by (rewrite fexp_eq; lia).
  destruct (binary_round_exact sn p e' Hf ltac:(lia))
    as (mz & Hround & Hmz & Hvalid).
  exists mz, (fexp prec emax (Z.pos (digits2_pos p) + e')).
  repeat split; try assumption.
  destruct sn; exact Hround.
Qed.

(** [Math.floor] of a positive finite Number with a fraction part. *)
Lemma floor_finite (m : positive) (e : Z) :
  e < 0 -> floor (S754_finite false m e) = of_Z (Z.pos m / 2 ^ (- e)).
Proof.
  intros He. unfold floor.
  replace (0 <=? e) with false by (symmetry; apply Z.leb_gt; assumption).
  reflexivity.
Qed.

(** The integer part of the remainder by a Number with a negative
    exponent. *)
Lemma floor_rem (m : positive) (e : Z) (md : positive) (ed : Z) :
  valid (S754_finite false m e) = true ->
  valid (S754_finite false md ed) = true ->
  ed < 0 ->
  floor (rem (S754_finite false m e) (S754_finite false md ed)) =
  of_Z (rem_units m e md ed / 2 ^ (- Z.min e ed)).
Proof.
  intros Hs Hd Hed.
  destruct (rem_finite false m e md ed Hs Hd)
    as [(Hr & Hrem) | (mz & ez & Hrem & Hez & Hmz & _)].
  - rewrite Hrem, Hr. reflexivity.
  - rewrite Hrem, floor_finite by lia. f_equal.
    rewrite Hmz.
    replace (- ez) with ((- Z.min e ed) + (Z.min e ed - ez)) by lia.
    rewrite Z.pow_add_r by lia.
    apply Z.div_mul_cancel_r.
    + apply Z.pow_nonzero; lia.
    + apply Z.pow_nonzero; lia.
Qed.

Lemma represents_of_loc (N D m : Z) (l : location) :
  located N D m l -> represents N D (shr_record_of_loc m l).
Proof.
  unfold represents. destruct l as [|[| |]]; simpl; trivial.
Qed.

(** One shift to the right doubles the unit. *)
Lemma shr_1_represents (N D : Z) (mrs : shr_record) :
  0 < D -> 0 <= shr_m mrs -> represents N D mrs ->
  0 <= shr_m (shr_1 mrs) /\ represents N (2 * D) (shr_1 mrs).
Proof.
  destruct mrs as [m r s]. unfold represents. simpl shr_m. intros HD Hm H.
  destruct m as [|[p|p|]|p]; try lia;
    destruct r, s;
    cbn [shr_1 shr_m shr_r shr_s loc_of_shr_record located orb] in *;
    rewrite ?(Pos2Z.inj_xI p), ?(Pos2Z.inj_xO p) in *; lia.
Qed.

Lemma iter_pos_nat {A : Type} (f : A -> A) (p : positive) :
  forall x, iter_pos f p x = Nat.iter (Pos.to_nat p) f x.
Proof.
  induction p as [p IH | p IH |]; intros x; simpl iter_pos.
  - rewrite !IH, Pos2Nat.inj_xI.
    replace (S (2 * Pos.to_nat p)) with (Pos.to_nat p + (Pos.to_nat p + 1))%nat
      by lia.
    rewrite !Nat.iter_add. simpl. reflexivity.
  - rewrite !IH, Pos2Nat.inj_xO.
    replace (2 * Pos.to_nat p)%nat with (Pos.to_nat p + Pos.to_nat p)%nat
      by lia.
    rewrite Nat.iter_add. reflexivity.
  - reflexivity.
Qed.

Lemma iter_shr_1_represents (N D : Z) (n : nat) :
  0 < D ->
  forall mrs,
    0 <= shr_m mrs -> represents N D mrs ->
    0 <= shr_m (Nat.iter n shr_1 mrs)
    /\ represents N (2 ^ Z.of_nat n * D) (Nat.iter n shr_1 mrs).
Proof.
  intros HD. induction n as [|n IH]; intros mrs Hm H.
  - change (2 ^ Z.of_nat 0 * D) with (1 * D). rewrite Z.mul_1_l.
    split; assumption.
  - destruct (IH mrs Hm H) as [Hm' H'].
    assert (HD' : 0 < 2 ^ Z.of_nat n * D)
      by (apply Z.mul_pos_pos; [apply Z.pow_pos_nonneg; lia | assumption]).
    destruct (shr_1_represents _ _ _ HD' Hm' H') as [Hm'' H''].
    simpl Nat.iter. split; [assumption|].
    rewrite Nat2Z.inj_succ, Z.pow_succ_r by lia.
    now rewrite <- Z.mul_assoc.
Qed.

(** The first step of rounding: the mantissa is shifted to the exponent
    the format gives its magnitude, the unit grows accordingly. *)
Lemma shr_fexp_represents (N D m e : Z) (l : location) :
  0 < D -> 0 <= m -> located N D m l ->
  let e' := Z.max e (fexp prec emax (Zdigits2 m + e)) in
  exists mrs,
    shr_fexp prec emax m e l = (mrs, e')
    /\ 0 <= shr_m mrs
    /\ represents N (2 ^ (e' - e) * D) mrs.
Proof.
  intros HD Hm Hl e'. unfold shr_fexp, shr.
  pose proof (represents_of_loc _ _ _ _ Hl) as Hr.
  assert (Hm0 : 0 <= shr_m (shr_record_of_loc m l))
    by (destruct l as [|[| |]]; assumption).
  destruct (fexp prec emax (Zdigits2 m + e) - e) as [|n|n] eqn:Hn.
  - exists (shr_record_of_loc m l). replace e' with e by lia.
    rewrite Z.sub_diag. change (2 ^ 0 * D) with (1 * D).
    rewrite Z.mul_1_l. now repeat split.
  - exists (iter_pos shr_1 n (shr_record_of_loc m l)).
    replace e' with (e + Z.pos n) by lia.
    rewrite iter_pos_nat.
    destruct (iter_shr_1_represents N D (Pos.to_nat n) HD _ Hm0 Hr)
      as [H1 H2].
    rewrite positive_nat_Z in H2.
    replace (e + Z.pos n - e) with (Z.pos n) by lia. now repeat split.
  - exists (shr_record_of_loc m l). replace e' with e by lia.
    rewrite Z.sub_diag. change (2 ^ 0 * D) with (1 * D).
    rewrite Z.mul_1_l. now repeat split.
Qed.

(** Rounding to nearest moves the mantissa by at most half a unit. *)
Lemma round_nearest_even_represents (N D : Z) (mrs : shr_record) :
  0 < D -> represents N D mrs ->
  let m1 := round_nearest_even (shr_m mrs) (loc_of_shr_record mrs) in
  shr_m mrs <= m1
  /\ (2 * m1 - 1) * D <= 2 * N <= (2 * m1 + 1) * D.
Proof.
  unfold represents. destruct mrs as [m r s]. intros HD H. cbv zeta.
  destruct r, s;
    cbn [shr_m shr_r shr_s loc_of_shr_record located round_nearest_even]
      in *;
    try (destruct (Z.even m)); lia.
Qed.

Lemma represents_bounds (N D : Z) (mrs : shr_record) :
  0 < D -> represents N D mrs ->
  shr_m mrs * D <= N < (shr_m mrs + 1) * D.
Proof.
  unfold represents. destruct mrs as [m r s]. intros HD H.
  destruct r, s;
    cbn [shr_m shr_r shr_s loc_of_shr_record located] in *; lia.
Qed.


(** Rounding the exact value [N / D * 2 ^ ex], located at [mx]: the
    mantissa [m1] at the exponent [e1] of the format is within half a unit
    of the exact value, and the result holds [m1], possibly shifted once
    more. *)
Lemma binary_round_aux_spec (sx : bool) (N D mx ex : Z) (lx : location) :
  0 < D -> 0 <= mx -> located N D mx lx ->
  let e1 := Z.max ex (fexp prec emax (Zdigits2 mx + ex)) in
  exists m1 m2,
    0 <= m1
    /\ (2 * m1 - 1) * (2 ^ (e1 - ex) * D) <= 2 * N
         <= (2 * m1 + 1) * (2 ^ (e1 - ex) * D)
    /\ 0 <= m2
    /\ (let e2 := Z.max e1 (fexp prec emax (Zdigits2 m1 + e1)) in
        m2 * 2 ^ (e2 - e1) <= m1 < (m2 + 1) * 2 ^ (e2 - e1)
        /\ binary_round_aux prec emax sx mx ex lx = rounded sx m2 e2).
Proof.
  intros HD Hmx Hl e1. unfold binary_round_aux.
  destruct (shr_fexp_represents N D mx ex lx HD Hmx Hl)
    as (mrs' & Hshr & Hm' & Hrep).
  fold e1 in Hshr, Hrep. rewrite Hshr.
  assert (HD1 : 0 < 2 ^ (e1 - ex) * D)
    by (apply Z.mul_pos_pos; [apply Z.pow_pos_nonneg; lia | assumption]).
  destruct (round_nearest_even_represents _ _ _ HD1 Hrep) as [Hge Hhalf].
  set (m1 := round_nearest_even (shr_m mrs') (loc_of_shr_record mrs')) in *.
  assert (Hm1 : 0 <= m1) by lia.
  assert (Hl1 : located m1 1 m1 loc_Exact) by (simpl; lia).
  destruct (shr_fexp_represents m1 1 m1 e1 loc_Exact ltac:(lia) Hm1 Hl1)
    as (mrs'' & Hshr' & Hm'' & Hrep').
  rewrite Hshr'.
  set (e2 := Z.max e1 (fexp prec emax (Zdigits2 m1 + e1))) in *.
  assert (HD2 : 0 < 2 ^ (e2 - e1) * 1)
    by (rewrite Z.mul_1_r; apply Z.pow_pos_nonneg; lia).
  pose proof (represents_bounds _ _ _ HD2 Hrep') as Hb.
  rewrite Z.mul_1_r in Hb.
  exists m1, (shr_m mrs''). repeat split; try assumption; try lia;
    fold e2; lia.
Qed.

Lemma fexp_mono (a b : Z) : a <= b -> fexp prec emax a <= fexp prec emax b.
Proof.
  rewrite !fexp_eq. lia.
Qed.

Lemma Zdigits2_le (q k : Z) : 0 <= k -> 0 <= q < 2 ^ k -> Zdigits2 q <= k.
Proof.
  intros Hk [Hq0 Hq]. destruct q as [|p|p]; simpl; try lia.
  now apply digits2_le.
Qed.

Lemma pow2_pos (k : Z) : 0 <= k -> 0 < 2 ^ k.
Proof.
  intros. apply Z.pow_pos_nonneg; lia.
Qed.

Lemma pow2_split (a b : Z) : 0 <= a -> 0 <= b -> 2 ^ (a + b) = 2 ^ a * 2 ^ b.
Proof.
  intros. apply Z.pow_add_r; assumption.
Qed.

(** From the exact value to the rounded mantissa, with the units as
    unknowns: [W] is the unit of [m1] in the units of [N], [A1 = A2 * B]
    the number of units of [m1] in one, [A2] that of [m2]. *)
Lemma rounded_lower (K m1 m2 N W A1 A2 B : Z) :
  0 < W -> 0 < B -> A1 = A2 * B ->
  2 * N <= (2 * m1 + 1) * W ->
  m1 < (m2 + 1) * B ->
  K * A1 * W <= N ->
  K * A2 <= m2.
Proof.
  intros HW HB HA Hhalf Hm2 HK. subst A1.
  assert (H1 : 2 * (K * (A2 * B)) * W < (2 * m1 + 2) * W) by nia.
  apply Z.mul_lt_mono_pos_r in H1; [|assumption].
  assert (H2 : K * A2 * B < (m2 + 1) * B) by nia.
  apply Z.mul_lt_mono_pos_r in H2; [|assumption]. lia.
Qed.

Lemma rounded_upper (K m1 m2 N W A1 A2 B G : Z) :
  0 < W -> 0 < B -> A1 = A2 * B ->
  (2 * m1 - 1) * W <= 2 * N ->
  m2 * B <= m1 ->
  2 * N + G <= 2 * (K * A1 * W) ->
  W < G ->
  m2 < K * A2.
Proof.
  intros HW HB HA Hhalf Hm2 HN HG. subst A1.
  destruct (Z.lt_ge_cases m2 (K * A2)) as [|Hge]; [assumption|exfalso].
  assert (H1 : K * A2 * B <= m1) by nia.
  assert (H2 : (2 * (K * A2 * B) - 1) * W <= (2 * m1 - 1) * W) by nia.
  nia.
Qed.

(** [Math.floor] of a rounded result with a negative exponent. *)
Lemma floor_rounded (m2 e2 : Z) :
  0 <= m2 -> e2 < 0 ->
  floor (rounded false m2 e2) = of_Z (m2 / 2 ^ (- e2)).
Proof.
  intros Hm He. unfold rounded. destruct m2 as [|p|p]; try lia.
  - reflexivity.
  - replace (e2 <=? 971) with true by (symmetry; apply Z.leb_le; lia).
    now apply floor_finite.
Qed.

(** The location that a division computes from its remainder. *)
Lemma new_location_located (N D q r : Z) :
  0 < D -> 0 <= r < D -> N = q * D + r ->
  located N D q (new_location D r).
Proof.
  intros HD Hr HN. unfold new_location.
  destruct (Z.even D) eqn:Heven.
  - unfold new_location_even.
    destruct (Z.eqb_spec r 0) as [H0 | H0]; [cbn [located]; lia|].
    destruct (Z.compare_spec (2 * r) D); cbn [located]; lia.
  - unfold new_location_odd.
    destruct (Z.eqb_spec r 0) as [H0 | H0]; [cbn [located]; lia|].
    assert (Hodd : Z.odd D = true) by (rewrite <- Z.negb_even, Heven; reflexivity).
    apply Z.odd_spec in Hodd. destruct Hodd as [k Hk].
    destruct (Z.compare_spec (2 * r + 1) D); cbn [located]; lia.
Qed.


(** [x / y] on positive finite Numbers: the quotient of the mantissas,
    the dividend's being shifted to the division exponent, then rounded. *)
Lemma div_finite (mx : positive) (ex : Z) (my : positive) (ey : Z) :
  let e' := div_exponent mx ex my ey in
  let N := Z.pos mx * 2 ^ (ex - ey - e') in
  div (S754_finite false mx ex) (S754_finite false my ey) =
  binary_round_aux prec emax false (N / Z.pos my) e'
                   (new_location (Z.pos my) (N mod Z.pos my)).
Proof.
  intros e' N. unfold div, SFdiv, SFdiv_core_binary. cbn [Zdigits2 xorb].
  fold (div_exponent mx ex my ey). fold e'.
  assert (Hs : 0 <= ex - ey - e') by (unfold e', div_exponent; lia).
  assert (Hm : match ex - ey - e' with
               | 0 => Z.pos mx
               | Z.pos _ => Z.shiftl (Z.pos mx) (ex - ey - e')
               | Z.neg _ => 0
               end = N).
  { unfold N. destruct (ex - ey - e') as [|p|p] eqn:E; try lia.
    rewrite Z.shiftl_mul_pow2 by lia. reflexivity. }
  rewrite Hm. unfold Z.div, Z.modulo.
  destruct (Z.div_eucl N (Z.pos my)) as [q r]. reflexivity.
Qed.

Lemma pow2_le (a b : Z) : 0 <= a <= b -> 2 ^ a <= 2 ^ b.
Proof.
  intros. apply Z.pow_le_mono_r; lia.
Qed.

Lemma pow2_lt (a b : Z) : 0 <= a < b -> 2 ^ a < 2 ^ b.
Proof.
  intros. apply Z.pow_lt_mono_r; lia.
Qed.

Lemma half_bound (m1 W Q N P : Z) :
  1 <= m1 -> 0 < Q -> Q <= W -> (2 * m1 - 1) * W <= 2 * N -> N < P ->
  m1 * Q < P * 2.
Proof.
  intros Hm HQ HW Hhalf HN.
  assert ((2 * m1 - 1) * Q <= (2 * m1 - 1) * W)
    by (apply Z.mul_le_mono_nonneg_l; lia).
  assert (m1 * Q <= (2 * m1 - 1) * Q)
    by (apply Z.mul_le_mono_nonneg_r; lia).
  lia.
Qed.

(** The exponents met when a quotient is rounded: [e'] that of the
    division, [e1] that of the format for the quotient, [e2] that of the
    result. *)
Lemma quotient_exponents (dx ex ey j e' dq e1 : Z) :
  1 <= dx <= 53 -> -1074 <= ex <= 0 -> ey = j - 52 -> 2 <= j <= 52 ->
  e' = Z.max (dx + ex - j - 1 - 53) (-1074) ->
  dq <= Z.max (dx + (ex - ey - e') - 52) 0 ->
  e1 = Z.max e' (Z.max (dq + e' - 53) (-1074)) ->
  e' <= e1 <= Z.max (ex - j) (-1074) /\ -1074 <= e' <= -1.
Proof.
  lia.
Qed.

Lemma result_exponent (dx ex j d1 e1 e2 : Z) :
  1 <= dx <= 53 -> ex <= 0 -> 2 <= j ->
  e1 <= Z.max (ex - j) (-1074) ->
  d1 + e1 <= Z.max (dx + ex - j + 1) e1 ->
  e2 = Z.max e1 (Z.max (d1 + e1 - 53) (-1074)) ->
  e1 <= e2 < 0.
Proof.
  lia.
Qed.

(** The integer part of the quotient of a Number below [2 ^ 53] by an
    integer [c] of [j + 1] bits is computed exactly: rounding the quotient
    never reaches the next integer, because the dividend keeps at least one
    unit of its last place away from every multiple of [c]. *)
Lemma floor_div_integer (mx : positive) (ex : Z) (my : positive)
    (ey c j : Z) :
  valid (S754_finite false mx ex) = true -> ex <= 0 ->
  valid (S754_finite false my ey) = true ->
  Z.pos (digits2_pos my) = 53 ->
  Z.pos my = c * 2 ^ (- ey) -> ey = j - 52 -> 2 <= j <= 52 ->
  floor (div (S754_finite false mx ex) (S754_finite false my ey)) =
  of_Z (Z.pos mx / (c * 2 ^ (- ex))).
Proof.
  intros Hx Hex Hy Hdy Hc Hey Hj.
  destruct (valid_finite _ _ _ Hx) as (_ & Hdx & Hex').
  pose proof (digits2_bounds mx) as Hmx.
  pose proof (digits2_bounds my) as Hmy. rewrite Hdy in Hmy.
  change (2 ^ (53 - 1)) with (2 ^ 52) in Hmy.
  set (dx := Z.pos (digits2_pos mx)) in *.
  assert (Hdx1 : 1 <= dx) by (unfold dx; lia).
  rewrite div_finite.
  set (e' := div_exponent mx ex my ey).
  assert (He' : e' = fexp prec emax (dx + ex - j - 1)).
  { unfold e', div_exponent. fold dx. rewrite Hdy.
    replace (dx + ex - (53 + ey)) with (dx + ex - j - 1) by lia.
    rewrite fexp_eq. lia. }
  rewrite fexp_eq in He'.
  set (s := ex - ey - e').
  assert (Hs : 0 <= s) by (unfold s; lia).
  set (N := Z.pos mx * 2 ^ s).
  set (D := Z.pos my) in *.
  assert (HD : 0 < D) by (unfold D; lia).
  assert (Hqr : N = N / D * D + N mod D)
    by (rewrite Z.mul_comm; apply Z.div_mod; lia).
  pose proof (Z.mod_pos_bound N D HD) as Hr.
  assert (HN0 : 0 <= N) by (unfold N; pose proof (pow2_pos s Hs); lia).
  assert (Hq0 : 0 <= N / D) by (apply Z.div_pos; lia).
  pose proof (new_location_located N D (N / D) (N mod D) HD Hr Hqr) as Hloc.
  destruct (binary_round_aux_spec false N D (N / D) e' _ HD Hq0 Hloc)
    as (m1 & m2 & Hm1 & Hhalf & Hm2 & Hb & Hround).
  rewrite Hround. clear Hround Hloc.
  set (e1 := Z.max e' (fexp prec emax (Zdigits2 (N / D) + e'))) in *.
  set (e2 := Z.max e1 (fexp prec emax (Zdigits2 m1 + e1))) in *.
  (* the size of the quotient *)
  assert (HN : N < 2 ^ (dx + s)).
  { unfold N. rewrite pow2_split by lia.
    apply Z.mul_lt_mono_pos_r; [apply pow2_pos; assumption | lia]. }
  assert (Hq : Zdigits2 (N / D) <= Z.max (dx + s - 52) 0).
  { destruct (Z.le_gt_cases 52 (dx + s)) as [Hge | Hlt].
    - apply Z.le_trans with (dx + s - 52); [|lia].
      apply Zdigits2_le; [lia|]. split; [assumption|].
      apply Z.div_lt_upper_bound; [assumption|].
      assert (2 ^ (dx + s) = 2 ^ 52 * 2 ^ (dx + s - 52))
        by (rewrite <- pow2_split by lia; f_equal; lia).
      pose proof (pow2_pos (dx + s - 52) ltac:(lia)) as HT.
      destruct Hmy as [Hmy _]. fold D in Hmy.
      clear - HN H HT Hmy. nia.
    - assert (2 ^ (dx + s) < 2 ^ 52) by (apply pow2_lt; lia).
      rewrite Z.div_small by lia. simpl. lia. }
  assert (He1 : e' <= e1 <= Z.max (ex - j) (-1074) /\ -1074 <= e' <= -1).
  { apply (quotient_exponents dx ex ey j e' (Zdigits2 (N / D)) e1
             (conj Hdx1 Hdx) (conj (proj1 Hex') Hex) Hey Hj He' Hq).
    unfold e1. now rewrite fexp_eq. }
  destruct He1 as [He1 He''].
  assert (Htiny : e1 <= ex - j \/ dx + ex - j + 1 <= 0)
    by (clear - He1 Hdx; lia).
  assert (He1' : e' <= e1 < 0) by (clear - He1 Hex Hj; lia).
  assert (Hs1 : s = ex - ey - e') by reflexivity.
  clear He' Hq.
  (* the size of the rounded mantissa *)
  set (u := e1 - e').
  assert (Hu1 : u = e1 - e') by reflexivity.
  assert (Hu : 0 <= u) by (clear - Hu1 He1'; lia).
  set (W := 2 ^ u * D) in *.
  assert (HW : 2 ^ (u + 52) <= W).
  { unfold W. rewrite pow2_split by (clear - Hu; lia).
    apply Z.mul_le_mono_nonneg_l;
      [pose proof (pow2_pos u Hu) | destruct Hmy]; lia. }
  assert (Hm1d : m1 = 0 \/ (0 <= dx + s - 51 - u /\ m1 < 2 ^ (dx + s - 51 - u))).
  { destruct (Z.eq_dec m1 0) as [|Hne]; [left; assumption | right].
    assert (H1 : m1 * 2 ^ (u + 52) < 2 ^ (dx + s + 1)).
    { rewrite (pow2_split (dx + s) 1) by (clear - Hdx1 Hs; lia).
      change (2 ^ 1) with 2.
      pose proof (pow2_pos (u + 52) ltac:(clear - Hu; lia)) as HQ.
      destruct Hhalf as [Hhalf _].
      apply (half_bound m1 W _ N); try assumption.
      clear - Hne Hm1. lia. }
    destruct (Z.le_gt_cases 0 (dx + s - 51 - u)) as [Hge | Hlt].
    - split; [assumption|].
      replace (dx + s + 1) with ((dx + s - 51 - u) + (u + 52)) in H1
        by (clear; lia).
      rewrite (pow2_split (dx + s - 51 - u) (u + 52)) in H1
        by (clear - Hge Hu; lia).
      apply Z.mul_lt_mono_pos_r in H1;
        [assumption | apply pow2_pos; clear - Hu; lia].
    - exfalso.
      assert (HP : 2 ^ (dx + s + 1) <= 2 ^ (u + 52))
        by (apply pow2_le; clear - Hlt Hdx1 Hs; lia).
      pose proof (pow2_pos (u + 52) ltac:(clear - Hu; lia)) as HQ.
      clear - Hne Hm1 HQ HP H1. nia. }
  assert (Hd1 : Zdigits2 m1 + e1 <= Z.max (dx + ex - j + 1) e1).
  { destruct Hm1d as [H0 | [Hge Hlt]].
    - rewrite H0. simpl. clear. lia.
    - pose proof (Zdigits2_le m1 _ Hge (conj Hm1 Hlt)) as Hd.
      clear - Hd Hu1 Hs1 Hey. lia. }
  assert (He2 : e1 <= e2 < 0).
  { apply (result_exponent dx ex j (Zdigits2 m1) e1 e2
             (conj Hdx1 Hdx) Hex (proj1 Hj) (proj2 He1) Hd1).
    unfold e2. now rewrite fexp_eq. }
  rewrite floor_rounded by (clear - Hm2 He2; lia). f_equal.
  destruct Hhalf as [Hhalf1 Hhalf2]. destruct Hb as [Hb1 Hb2].
  fold u in Hhalf1, Hhalf2. fold W in Hhalf1, Hhalf2.
  assert (HNeq : N = Z.pos mx * 2 ^ s) by reflexivity.
  assert (HWeq : W = 2 ^ u * D) by reflexivity.
  destruct Hmy as [_ Hmy].
  clearbody N W e2 e1 u s e'. clear Hd1 He1 Hqr Hr Hq0 HN Hx Hy Hdy.
  (* the units *)
  set (A1 := 2 ^ (- e1)). set (A2 := 2 ^ (- e2)). set (B := 2 ^ (e2 - e1)) in *.
  assert (HA : A1 = A2 * B).
  { unfold A1, A2, B. rewrite <- pow2_split by lia. f_equal. lia. }
  assert (HB : 0 < B) by (apply pow2_pos; lia).
  assert (HA2 : 0 < A2) by (apply pow2_pos; lia).
  assert (HW0 : 0 < W) by (pose proof (pow2_pos (u + 52) ltac:(lia)); lia).
  set (b := c * 2 ^ (- ex)).
  assert (Hb0 : 0 < b).
  { unfold b. pose proof (pow2_pos (- ex) ltac:(lia)) as H1.
    pose proof (pow2_pos (- ey) ltac:(lia)) as H2.
    assert (H3 : 0 < c * 2 ^ (- ey)) by (rewrite <- Hc; lia).
    clear - H1 H2 H3. nia. }
  set (K := Z.pos mx / b).
  assert (HK0 : 0 <= K) by (apply Z.div_pos; lia).
  assert (HKlo : b * K <= Z.pos mx) by (apply Z.mul_div_le; assumption).
  assert (HKhi : Z.pos mx < b * Z.succ K)
    by (apply Z.mul_succ_div_gt; assumption).
  (* one, in the units of [N] *)
  assert (Hone : forall k, k * A1 * W = k * b * 2 ^ s).
  { intros k. unfold A1, b. rewrite HWeq, Hc.
    assert (P1 : 2 ^ (- e1) * 2 ^ u * 2 ^ (- ey) = 2 ^ (- ex) * 2 ^ s).
    { rewrite <- !pow2_split by lia. f_equal. lia. }
    replace (k * 2 ^ (- e1) * (2 ^ u * (c * 2 ^ (- ey))))
      with (k * c * (2 ^ (- e1) * 2 ^ u * 2 ^ (- ey))) by ring.
    replace (k * (c * 2 ^ (- ex)) * 2 ^ s)
      with (k * c * (2 ^ (- ex) * 2 ^ s)) by ring.
    now rewrite P1. }
  pose proof (pow2_pos s Hs) as HS.
  apply div_between; [assumption|]. fold A2. split.
  - rewrite Z.mul_comm.
    apply (rounded_lower K m1 m2 N W A1 A2 B HW0 HB HA Hhalf2 Hb2).
    rewrite Hone, HNeq, (Z.mul_comm K b).
    apply Z.mul_le_mono_nonneg_r; [lia | assumption].
  - rewrite Z.mul_comm.
    destruct Htiny as [Hnormal | Htiny].
    + apply (rounded_upper (K + 1) m1 m2 N W A1 A2 B (2 ^ (s + 1))
               HW0 HB HA Hhalf1 Hb1).
      * rewrite Hone, (pow2_split s 1), HNeq by lia. change (2 ^ 1) with 2.
        clear - HKhi HS. nia.
      * rewrite HWeq.
        assert (HG : 2 ^ u * 2 ^ 53 <= 2 ^ (s + 1)).
        { rewrite <- pow2_split by lia. apply pow2_le. lia. }
        pose proof (pow2_pos u Hu) as HU.
        clear - HG HU Hmy. nia.
    + assert (Hm2A : m2 < A2).
      { apply Z.mul_lt_mono_pos_r with (p := B); [assumption|].
        rewrite <- HA. unfold A1.
        destruct Hm1d as [H0 | [Hge Hlt]].
        - pose proof (pow2_pos (- e1) ltac:(lia)). lia.
        - assert (2 ^ (dx + s - 51 - u) <= 2 ^ (- e1))
            by (apply pow2_le; lia).
          lia. }
      clear - Hm2A HK0 HA2. nia.
Qed.

Lemma thousand : of_Z 1000 = S754_finite false (1000 * 2 ^ 43) (-43).
Proof.
  vm_compute. reflexivity.
Qed.

(** The integer part of a thousand times a fraction [f < 1]: multiplying
    rounds, so the result is the integer part of the exact product or the
    next integer, and it stays below 1000. *)
Lemma floor_mul_1000 (mf : positive) (ef : Z) :
  valid (S754_finite false mf ef) = true ->
  ef < 0 -> Z.pos mf < 2 ^ (- ef) ->
  exists ms,
    floor (mul (S754_finite false mf ef) (of_Z 1000)) = of_Z ms
    /\ Z.pos mf * 1000 / 2 ^ (- ef) <= ms <= Z.pos mf * 1000 / 2 ^ (- ef) + 1
    /\ ms <= 999.
Proof.
  intros Hf Hef Hlt1.
  pose proof (valid_mantissa_lt _ _ _ Hf) as Hmf.
  rewrite thousand. unfold mul, SFmul. cbn [xorb].
  rewrite Pos2Z.inj_mul.
  change (Z.pos (1000 * 2 ^ 43)) with (1000 * 2 ^ 43).
  set (N := Z.pos mf * (1000 * 2 ^ 43)).
  set (e0 := ef + -43).
  assert (HN0 : 0 <= N) by (unfold N; lia).
  assert (Hloc : located N 1 N loc_Exact) by (simpl; lia).
  destruct (binary_round_aux_spec false N 1 N e0 _ ltac:(lia) HN0 Hloc)
    as (m1 & m2 & Hm1 & [Hhalf1 Hhalf2] & Hm2 & [Hb1 Hb2] & Hround).
  rewrite Hround. clear Hround Hloc.
  set (e1 := Z.max e0 (fexp prec emax (Zdigits2 N + e0))) in *.
  set (e2 := Z.max e1 (fexp prec emax (Zdigits2 m1 + e1))) in *.
  set (U := 2 ^ (- ef)) in *.
  assert (HU : 0 < U) by (apply pow2_pos; lia).
  set (K := Z.pos mf * 1000 / U).
  assert (HKlo : U * K <= Z.pos mf * 1000) by (apply Z.mul_div_le; assumption).
  assert (HKhi : Z.pos mf * 1000 < U * Z.succ K)
    by (apply Z.mul_succ_div_gt; assumption).
  assert (HK0 : 0 <= K) by (apply Z.div_pos; lia).
  assert (HK999 : K <= 999).
  { apply Z.lt_succ_r. apply Z.div_lt_upper_bound; [assumption|].
    clear - Hlt1 HU. lia. }
  assert (HUe0 : 2 ^ (- e0) = U * 2 ^ 43).
  { unfold U, e0. rewrite <- pow2_split by lia. f_equal. lia. }
  (* the size of the product *)
  assert (HN : N < 2 ^ (10 - e0)).
  { replace (10 - e0) with (- e0 + 10) by lia.
    rewrite pow2_split, HUe0 by (unfold e0; lia). unfold N.
    change (2 ^ 10) with 1024. change (2 ^ 43) with 8796093022208.
    clear - Hlt1 HU. nia. }
  assert (HN106 : N < 2 ^ 106).
  { unfold N. change (2 ^ 106) with (2 ^ 53 * (1024 * 2 ^ 43)).
    change (2 ^ 43) with 8796093022208. clear - Hmf. nia. }
  assert (He0 : e0 <= -44) by (unfold e0; lia).
  assert (Hd : Zdigits2 N <= 10 - e0 /\ Zdigits2 N <= 106)
    by (split; apply Zdigits2_le; lia).
  assert (He1 : e0 <= e1 <= -43 /\ (e1 - e0 <= 53 \/ e0 < -1127)).
  { unfold e1. rewrite fexp_eq. lia. }
  set (u := e1 - e0) in *.
  assert (Hu : 0 <= u) by (unfold u; lia).
  set (W := 2 ^ u * 1) in *.
  assert (HWeq : W = 2 ^ u) by (unfold W; lia).
  assert (HW0 : 0 < W) by (rewrite HWeq; apply pow2_pos; assumption).
  assert (Hm1d : m1 = 0 \/ m1 < 2 ^ (11 - e1)).
  { destruct (Z.eq_dec m1 0) as [|Hne]; [left; assumption | right].
    assert (H1 : m1 * W < 2 ^ (10 - e0) * 2)
      by (apply (half_bound m1 W W N); try assumption; lia).
    replace (2 ^ (10 - e0) * 2) with (2 ^ (11 - e1) * W) in H1.
    - apply Z.mul_lt_mono_pos_r in H1; assumption.
    - rewrite HWeq, <- (pow2_split (11 - e1) u) by lia.
      change (2 ^ (10 - e0) * 2) with (2 ^ (10 - e0) * 2 ^ 1).
      rewrite <- pow2_split by lia. f_equal. unfold u. lia. }
  assert (Hd1 : Zdigits2 m1 + e1 <= 11).
  { destruct Hm1d as [H0 | Hlt].
    - rewrite H0. simpl. lia.
    - pose proof (Zdigits2_le m1 (11 - e1) ltac:(lia) (conj Hm1 Hlt)). lia. }
  assert (He2 : e1 <= e2 <= -42).
  { unfold e2. rewrite fexp_eq. lia. }
  rewrite floor_rounded by lia.
  exists (m2 / 2 ^ (- e2)). split; [reflexivity|].
  assert (Hu1 : u = e1 - e0) by reflexivity.
  assert (He0eq : e0 = ef - 43) by reflexivity.
  assert (HNeq : N = Z.pos mf * 1000 * 2 ^ 43) by (unfold N; ring).
  clearbody N W e2 e1 u e0. clear Hd Hd1 HN106 Hf.
  set (A1 := 2 ^ (- e1)). set (A2 := 2 ^ (- e2)). set (B := 2 ^ (e2 - e1)) in *.
  assert (HA : A1 = A2 * B).
  { unfold A1, A2, B. rewrite <- pow2_split by lia. f_equal. lia. }
  assert (HB : 0 < B) by (apply pow2_pos; lia).
  assert (HA2 : 0 < A2) by (apply pow2_pos; lia).
  assert (HA1 : 0 < A1) by (apply pow2_pos; lia).
  assert (Hone : A1 * W = U * 2 ^ 43).
  { rewrite <- HUe0, HWeq. unfold A1. rewrite <- pow2_split by lia.
    f_equal. lia. }
  change (2 ^ 43) with 8796093022208 in *.
  assert (Hlo : K * A2 <= m2).
  { apply (rounded_lower K m1 m2 N W A1 A2 B HW0 HB HA Hhalf2 Hb2).
    rewrite <- Z.mul_assoc, Hone, HNeq. clear - HKlo. nia. }
  assert (Hhi : m2 < (K + 2) * A2).
  { apply (rounded_upper (K + 2) m1 m2 N W A1 A2 B (2 * (A1 * W))
             HW0 HB HA Hhalf1 Hb1).
    - rewrite <- Z.mul_assoc, Hone, HNeq. clear - HKhi. nia.
    - clear - HA1 HW0. nia. }
  assert (Hhi' : m2 < 1000 * A2).
  { destruct (Z.le_gt_cases K 998) as [Hsmall | Hbig].
    - clear - Hhi Hsmall HA2. nia.
    - destruct He1 as [_ [Hnormal | Htiny]].
      + apply (rounded_upper 1000 m1 m2 N W A1 A2 B (2000 * 8796093022208)
                 HW0 HB HA Hhalf1 Hb1).
        * rewrite <- Z.mul_assoc, Hone, HNeq.
          fold U in Hlt1. clear - Hlt1. nia.
        * rewrite HWeq.
          assert (2 ^ u <= 2 ^ 53) by (apply pow2_le; lia).
          change (2 ^ 53) with 9007199254740992 in *. lia.
      + exfalso.
        assert (HU' : 2 ^ 1084 <= U) by (apply pow2_le; lia).
        assert (2 ^ 53 * 1000 < 999 * 2 ^ 1084) by (vm_compute; reflexivity).
        clear - HKlo Hbig Hmf HU' H HU. nia. }
  fold A2. repeat split.
  - apply Z.div_le_lower_bound; [assumption|]. lia.
  - apply Z.lt_succ_r. apply Z.div_lt_upper_bound; [assumption|]. lia.
  - apply Z.lt_succ_r. apply Z.div_lt_upper_bound; [assumption|]. lia.
Qed.

(** The remainder by an integer [c], in the units [2 ^ e] of the
    dividend. *)
Lemma rem_units_scaled (m : positive) (e : Z) (mc : positive) (ec c : Z) :
  e <= 0 -> ec <= 0 -> Z.pos mc = c * 2 ^ (- ec) ->
  rem_units m e mc ec =
  Z.pos m mod (c * 2 ^ (- e)) * 2 ^ (e - Z.min e ec).
Proof.
  intros He Hec Hc. unfold rem_units. rewrite Hc.
  destruct (Z.le_ge_cases e ec) as [Hle | Hge].
  - replace (Z.min e ec) with e by lia.
    rewrite Z.sub_diag, Z.pow_0_r, !Z.mul_1_r, <- Z.mul_assoc.
    rewrite <- pow2_split by lia. do 2 f_equal. f_equal. lia.
  - replace (Z.min e ec) with ec by lia.
    rewrite Z.sub_diag, Z.pow_0_r, Z.mul_1_r.
    replace (c * 2 ^ (- ec)) with (c * 2 ^ (- e) * 2 ^ (e - ec)).
    + apply Z.mul_mod_distr_r.
      * pose proof (pow2_pos (- e) ltac:(lia)) as H1.
        pose proof (pow2_pos (- ec) ltac:(lia)) as H2.
        assert (H3 : 0 < c * 2 ^ (- ec)) by (rewrite <- Hc; lia).
        clear - H1 H2 H3. nia.
      * pose proof (pow2_pos (e - ec) ltac:(lia)). lia.
    + rewrite <- Z.mul_assoc, <- pow2_split by lia. do 2 f_equal. lia.
Qed.

(** [s % c] for an integer [c]: zero, or the remainder of the mantissa by
    [c] counted in the units of [s], in canonical position. *)
Lemma rem_integer (m : positive) (e : Z) (mc : positive) (ec c : Z) :
  valid (S754_finite false m e) = true -> e <= 0 ->
  valid (S754_finite false mc ec) = true -> ec <= 0 ->
  Z.pos mc = c * 2 ^ (- ec) ->
  let R := Z.pos m mod (c * 2 ^ (- e)) in
  (R = 0 /\ rem (S754_finite false m e) (S754_finite false mc ec)
            = S754_zero false)
  \/ (exists mz ez,
        rem (S754_finite false m e) (S754_finite false mc ec)
          = S754_finite false mz ez
        /\ ez <= e /\ ez <= ec
        /\ Z.pos mz = R * 2 ^ (e - ez)
        /\ valid (S754_finite false mz ez) = true).
Proof.
  intros Hs He Hd Hec Hc R.
  pose proof (rem_units_scaled m e mc ec c He Hec Hc) as Hr. fold R in Hr.
  destruct (rem_finite false m e mc ec Hs Hd)
    as [(H0 & Hrem) | (mz & ez & Hrem & Hez & Hmz & Hv)].
  - left. split; [|assumption]. rewrite Hr in H0.
    pose proof (pow2_pos (e - Z.min e ec) ltac:(lia)). nia.
  - right. exists mz, ez. repeat split; try assumption; try lia.
    rewrite Hmz, Hr, <- Z.mul_assoc, <- pow2_split by lia.
    do 2 f_equal. lia.
Qed.

Lemma three_thousand_six_hundred :
  of_Z 3600 = S754_finite false (3600 * 2 ^ 41) (-41).
Proof.
  vm_compute. reflexivity.
Qed.

Lemma one : of_Z 1 = S754_finite false (2 ^ 52) (-52).
Proof.
  vm_compute. reflexivity.
Qed.

Section Fields.

(** A positive finite Number [s = M / U] with [U = 2 ^ -e] a power of two:
    every Number below [2 ^ 53] is one. *)
Variables (m : positive) (e : Z).
Hypothesis valid_s : valid (S754_finite false m e) = true.
Hypothesis small_s : e <= 0.

Let s : number := S754_finite false m e.
Let M : Z := Z.pos m.
Let U : Z := 2 ^ (- e).

Lemma unit_pos : 0 < U.
Proof.
  apply pow2_pos. lia.
Qed.

Lemma hours_exact :
  floor (div s (of_Z 3600)) = of_Z (M / (3600 * U)).
Proof.
  unfold s. rewrite three_thousand_six_hundred.
  apply (floor_div_integer m e (3600 * 2 ^ 41) (-41) 3600 11);
    try assumption; try reflexivity; lia.
Qed.

Lemma minutes_exact :
  floor (div (rem s (of_Z 3600)) (of_Z 60)) =
  of_Z (M mod (3600 * U) / (60 * U)).
Proof.
  unfold s. rewrite three_thousand_six_hundred, sixty.
  destruct (rem_integer m e (3600 * 2 ^ 41) (-41) 3600 valid_s small_s eq_refl
              ltac:(lia) eq_refl)
    as [(H0 & Hrem) | (mz & ez & Hrem & Hez & Hez' & Hmz & Hv)];
    rewrite Hrem.
  - fold U in H0. fold M in H0. rewrite H0. reflexivity.
  - rewrite (floor_div_integer mz ez (120 * 2 ^ 46) (-47) 60 5);
      try assumption; try reflexivity; try lia.
    f_equal. rewrite Hmz. fold M U.
    replace (60 * 2 ^ (- ez)) with (60 * U * 2 ^ (e - ez)).
    + apply Z.div_mul_cancel_r.
      * pose proof unit_pos. lia.
      * pose proof (pow2_pos (e - ez) ltac:(lia)). lia.
    + unfold U. rewrite <- Z.mul_assoc, <- pow2_split by lia.
      do 2 f_equal. lia.
Qed.

Lemma seconds_exact :
  floor (rem s (of_Z 60)) = of_Z (M mod (60 * U) / U).
Proof.
  unfold s. rewrite sixty.
  destruct (rem_integer m e (120 * 2 ^ 46) (-47) 60 valid_s small_s eq_refl
              ltac:(lia) eq_refl)
    as [(H0 & Hrem) | (mz & ez & Hrem & Hez & Hez' & Hmz & Hv)];
    rewrite Hrem.
  - fold U in H0. fold M in H0. rewrite H0. reflexivity.
  - rewrite floor_finite by lia. f_equal. rewrite Hmz. fold M U.
    replace (2 ^ (- ez)) with (U * 2 ^ (e - ez)).
    + apply Z.div_mul_cancel_r.
      * pose proof unit_pos. lia.
      * pose proof (pow2_pos (e - ez) ltac:(lia)). lia.
    + unfold U. rewrite <- pow2_split by lia. f_equal. lia.
Qed.

Lemma millis_near :
  exists ms,
    floor (mul (rem s (of_Z 1)) (of_Z 1000)) = of_Z ms
    /\ M mod U * 1000 / U <= ms <= M mod U * 1000 / U + 1
    /\ ms <= 999.
Proof.
  unfold s. rewrite one.
  destruct (rem_integer m e (2 ^ 52) (-52) 1 valid_s small_s eq_refl
              ltac:(lia) eq_refl)
    as [(H0 & Hrem) | (mz & ez & Hrem & Hez & Hez' & Hmz & Hv)];
    rewrite Hrem;
    assert (HR1 : Z.pos m mod (1 * 2 ^ (- e)) = M mod U)
      by (rewrite Z.mul_1_l; reflexivity).
  - exists 0. rewrite <- HR1, H0. split; [vm_compute; reflexivity|].
    rewrite Z.mul_0_l, Z.div_0_l by (pose proof unit_pos; lia). lia.
  - rewrite HR1 in Hmz. pose proof unit_pos as HU.
    pose proof (pow2_pos (e - ez) ltac:(lia)) as HP.
    assert (HUP : 2 ^ (- ez) = U * 2 ^ (e - ez)).
    { unfold U. rewrite <- pow2_split by lia. f_equal. lia. }
    pose proof (Z.mod_pos_bound M U HU) as HR.
    destruct (floor_mul_1000 mz ez Hv ltac:(lia)) as (ms & Hms & Hnear & H999).
    { rewrite Hmz, HUP. apply Z.mul_lt_mono_pos_r; lia. }
    exists ms. split; [assumption|]. split; [|assumption].
    replace (M mod U * 1000 / U) with (Z.pos mz * 1000 / 2 ^ (- ez));
      [assumption|].
    rewrite Hmz, HUP.
    replace (M mod U * 2 ^ (e - ez) * 1000)
      with (M mod U * 1000 * 2 ^ (e - ez)) by ring.
    apply Z.div_mul_cancel_r; lia.
Qed.

End Fields.

Lemma inject_pos_nonzero (z : Z) : 0 < z -> ~ (inject_Z z == 0)%Q.
Proof.
  intros Hz H. unfold Qeq in H. simpl in H. lia.
Qed.

Lemma value_units (m : positive) (e : Z) :
  e <= 0 ->
  (value (S754_finite false m e) ==
   inject_Z (Z.pos m) / inject_Z (2 ^ (- e)))%Q.
Proof.
  intros He. unfold value. cbn [cond_Zopp].
  rewrite Zpower_Qpower by lia.
  replace e with (- - e) at 1 by lia.
  rewrite Qpower_opp. reflexivity.
Qed.

Section ExactFields.

Variables (m : positive) (e : Z).
Hypothesis small_s : e <= 0.

Let s : number := S754_finite false m e.
Let M : Z := Z.pos m.
Let U : Z := 2 ^ (- e).

Lemma unit_nonzero : ~ (inject_Z U == 0)%Q.
Proof.
  apply inject_pos_nonzero. apply pow2_pos. lia.
Qed.

Lemma Qfloor_div_value (c : Z) :
  0 < c -> Qfloor (value s / inject_Z c) = M / (c * U).
Proof.
  intros Hc. rewrite Zdiv_Qdiv. apply Qfloor_comp.
  unfold s. rewrite value_units by assumption. fold M U.
  rewrite inject_Z_mult. field. split.
  - apply unit_nonzero.
  - now apply inject_pos_nonzero.
Qed.

Lemma Qmod_value (c : Z) :
  0 < c ->
  (Qmod (value s) (inject_Z c) == inject_Z (M mod (c * U)) / inject_Z U)%Q.
Proof.
  intros Hc. unfold Qmod. rewrite Qfloor_div_value by assumption.
  rewrite Z.mod_eq.
  - unfold s. rewrite value_units by assumption. fold M U.
    unfold Zminus. rewrite inject_Z_plus, inject_Z_opp, !inject_Z_mult.
    field. apply unit_nonzero.
  - pose proof (pow2_pos (- e) ltac:(lia)). fold U in H. nia.
Qed.

Lemma Qfloor_Qmod_div (c d : Z) :
  0 < c -> 0 < d ->
  Qfloor (Qmod (value s) (inject_Z c) / inject_Z d) =
  M mod (c * U) / (d * U).
Proof.
  intros Hc Hd. rewrite Zdiv_Qdiv. apply Qfloor_comp.
  rewrite Qmod_value by assumption. rewrite inject_Z_mult. field. split.
  - apply unit_nonzero.
  - now apply inject_pos_nonzero.
Qed.

Lemma Qfloor_Qmod (c : Z) :
  0 < c -> Qfloor (Qmod (value s) (inject_Z c)) = M mod (c * U) / U.
Proof.
  intros Hc. rewrite Zdiv_Qdiv. apply Qfloor_comp.
  now rewrite Qmod_value.
Qed.

Lemma Qfloor_Qmod_mul (c k : Z) :
  0 < c ->
  Qfloor (Qmod (value s) (inject_Z c) * inject_Z k) =
  M mod (c * U) * k / U.
Proof.
  intros Hc. rewrite Zdiv_Qdiv. apply Qfloor_comp.
  rewrite Qmod_value by assumption. rewrite inject_Z_mult. field.
  apply unit_nonzero.
Qed.

End ExactFields.

Lemma in_below (n : nat) (k : Z) : 0 <= k < Z.of_nat n -> In k (below n).
Proof.
  intros Hk. unfold below. apply in_map_iff. exists (Z.to_nat k). split.
  - lia.
  - apply in_seq. lia.
Qed.

Lemma padded_two_digits (k : Z) :
  0 <= k < 100 -> padStart 2 (toString (of_Z k)) = two_digits k.
Proof.
  intros Hk.
  assert (H : forallb (fun k => String.eqb (padStart 2 (toString (of_Z k)))
                                           (two_digits k)) (below 100) = true)
    by (vm_compute; reflexivity).
  rewrite forallb_forall in H. apply String.eqb_eq. apply H.
  apply in_below. lia.
Qed.

Lemma padded_three_digits (k : Z) :
  0 <= k < 1000 -> padStart 3 (toString (of_Z k)) = three_digits k.
Proof.
  intros Hk.
  assert (H : forallb (fun k => String.eqb (padStart 3 (toString (of_Z k)))
                                           (three_digits k)) (below 1000)
              = true)
    by (vm_compute; reflexivity).
  rewrite forallb_forall in H. apply String.eqb_eq. apply H.
  apply in_below. lia.
Qed.

Lemma hundred_hours : of_Z 360000 = S754_finite false (360000 * 2 ^ 34) (-34).
Proof.
  vm_compute. reflexivity.
Qed.

(** A valid Number below 360000 has a fraction part of at least 34 bits
    and, in its own units, a mantissa below 360000. *)
Lemma below_hundred_hours (m : positive) (e : Z) :
  valid (S754_finite false m e) = true ->
  ltb (S754_finite false m e) (of_Z 360000) = true ->
  e <= -34 /\ Z.pos m < 360000 * 2 ^ (- e).
Proof.
  intros Hv. pose proof (valid_mantissa_lt _ _ _ Hv) as Hm.
  rewrite hundred_hours. unfold ltb, SFltb, SFcompare.
  destruct (Z.compare_spec e (-34)) as [He | He | He]; try discriminate.
  - subst e. change (Pos.compare_cont Eq m (360000 * 2 ^ 34))
      with (m ?= 360000 * 2 ^ 34)%positive.
    destruct (m ?= 360000 * 2 ^ 34)%positive eqn:Hc; try discriminate.
    intros _. apply Pos.compare_lt_iff, Pos2Z.pos_lt_pos in Hc.
    split; [lia|]. exact Hc.
  - intros _. split; [lia|].
    assert (2 ^ 35 <= 2 ^ (- e)) by (apply pow2_le; lia).
    change (2 ^ 53) with 9007199254740992 in Hm.
    change (2 ^ 35) with 34359738368 in H. lia.
Qed.

(** A remainder by 60 that is at least 59.5 is below 60. *)
Lemma rem_sixty_below (x : number) :
  valid x = true ->
  leb (of_ratio 119 2) (rem x (of_Z 60)) = true ->
  ltb (rem x (of_Z 60)) (of_Z 60) = true.
Proof.
  intros Hv. rewrite sixty, fifty_nine_and_a_half.
  destruct x as [sx | sx | | sx m e].
  - destruct sx; intros H; discriminate H.
  - destruct sx; intros H; discriminate H.
  - intros H; discriminate H.
  - destruct (rem_finite sx m e (120 * 2 ^ 46) (-47) Hv eq_refl)
      as [(_ & Hrem) | (mz & ez & Hrem & Hez & Hmz & _)]; rewrite Hrem.
    + destruct sx; intros H; discriminate H.
    + destruct sx; [intros H; discriminate H | intros _].
      pose proof (rem_units_bounds m e (120 * 2 ^ 46) (-47)) as (_ & Hr & _).
      unfold ltb, SFltb, SFcompare.
      destruct (Z.compare_spec ez (-47)) as [He | He | He];
        [| reflexivity | lia].
      subst ez.
      replace (Z.min e (-47)) with (-47) in * by lia.
      rewrite Z.sub_diag, Z.pow_0_r, Z.mul_1_r in Hmz, Hr.
      rewrite <- Hmz in Hr. apply Pos2Z.pos_lt_pos in Hr.
      change (Pos.compare_cont Eq mz (120 * 2 ^ 46))
        with (mz ?= 120 * 2 ^ 46)%positive.
      apply Pos.compare_lt_iff in Hr. now rewrite Hr.
Qed.

End NumberFacts.

Module ExportFacts.

Import JSNumber JSString Transcript StringFacts Examples.

Lemma length_map_from {A B : Type} (f : A -> nat -> B) (l : list A) :
  forall i, List.length (map_from f i l) = List.length l.
Proof.
  induction l as [|a l IH]; intros i; simpl; [reflexivity | now rewrite IH].
Qed.

Lemma nth_error_map_from {A B : Type} (f : A -> nat -> B) (l : list A) :
  forall i k,
    nth_error (map_from f i l) k =
    option_map (fun a => f a (i + k)%nat) (nth_error l k).
Proof.
  induction l as [|a l IH]; intros i k.
  - destruct k; reflexivity.
  - destruct k as [|k]; simpl.
    + now rewrite Nat.add_0_r.
    + rewrite IH. now replace (S i + k)%nat with (i + S k)%nat by lia.
Qed.

Lemma subtitle_blocks_from (l : list TranscriptEntry) :
  forall i,
    map (fun pe => Spec.subtitle_block (fst pe) (snd pe))
        (Spec.numbered_from (S i) l) =
    map_from (fun e k => Spec.subtitle_block (S k) e) i l.
Proof.
  induction l as [|e l IH]; intros i; simpl; [reflexivity | now rewrite IH].
Qed.

Lemma srt_block_spec (e : TranscriptEntry) (i : nat) :
  srt_block e i = Spec.subtitle_block (S i) e ++ nl.
Proof.
  unfold srt_block, Spec.subtitle_block.
  replace (i + 1)%nat with (S i) by lia.
  now rewrite !append_assoc.
Qed.

Lemma join_srt_blocks (l : list TranscriptEntry) :
  forall i, l <> [] ->
    join nl (map_from srt_block i l) =
    join Spec.blank_line
         (map_from (fun e k => Spec.subtitle_block (S k) e) i l) ++ nl.
Proof.
  induction l as [|e l IH]; intros i Hne; [congruence|].
  destruct l as [|e' l].
  - simpl. apply srt_block_spec.
  - change (map_from srt_block i (e :: e' :: l))
      with (srt_block e i :: map_from srt_block (S i) (e' :: l)).
    change (map_from (fun e0 k => Spec.subtitle_block (S k) e0) i
              (e :: e' :: l))
      with (Spec.subtitle_block (S i) e ::
            map_from (fun e0 k => Spec.subtitle_block (S k) e0) (S i)
              (e' :: l)).
    assert (Hj : forall sep a b (r : list string),
               join sep (a :: b :: r) = a ++ sep ++ join sep (b :: r))
      by reflexivity.
    simpl map_from at 1 2. rewrite !Hj.
    change (srt_block e' (S i) :: map_from srt_block (S (S i)) l)
      with (map_from srt_block (S i) (e' :: l)).
    rewrite (IH (S i)) by congruence.
    rewrite srt_block_spec. unfold Spec.blank_line.
    simpl map_from. now rewrite !append_assoc.
Qed.

Lemma downloadAsFile_content (st : State) (data : TranscriptData)
    (fmt : format) :
  transcriptData st = Some data ->
  option_map content (downloadAsFile st fmt) =
  Some (file_content (includeTimestamps st) fmt (transcript data)).
Proof.
  intros H. unfold downloadAsFile. now rewrite H.
Qed.

(** C1. For a non-empty entry sequence the SubRip export is the subtitle
    blocks of the entries, in document order, separated by a blank line and
    closed by a line feed; there is one block per entry, and the block at
    (0-based) place [k] is the one numbered [k + 1] for the entry at that
    place: index line, time range line with the subtitle encodings of
    [start] and [start + duration], then the text. The entries' start times
    play no part in the numbering. *)
Theorem srt_export_blocks (withTimestamps : bool)
    (entries : list TranscriptEntry) :
  entries <> [] ->
  let blocks := Spec.subtitle_blocks entries in
  file_content withTimestamps srt entries =
    join Spec.blank_line blocks ++ nl
  /\ List.length blocks = List.length entries
  /\ forall k e, nth_error entries k = Some e ->
       nth_error blocks k = Some (Spec.subtitle_block (k + 1) e).
Proof.
  intros Hne blocks. subst blocks. unfold Spec.subtitle_blocks.
  rewrite subtitle_blocks_from. repeat split.
  - unfold file_content, mapi. now apply join_srt_blocks.
  - apply length_map_from.
  - intros k e Hk. rewrite nth_error_map_from, Hk. simpl.
    now replace (S k) with (k + 1)%nat by lia.
Qed.

Lemma srt_export_blocks_witness :
  unsorted_entries <> [] /\
  file_content true srt unsorted_entries =
    ("1" ++ nl ++ "00:00:05,000 --> 00:00:06,000" ++ nl ++ "a") ++
    Spec.blank_line ++
    ("2" ++ nl ++ "00:00:02,000 --> 00:00:03,000" ++ nl ++ "b") ++ nl.
Proof.
  split; [discriminate|].
  destruct (srt_export_blocks true unsorted_entries) as [H _];
    [discriminate|].
  rewrite H. vm_compute. reflexivity.
Defined.

(** C3, as the code has it. The plain-text export with timestamps has one
    line per entry, in document order, the lines joined by a line feed; the
    line of an entry is "[" + the subtitle-style encoding [HH:MM:SS,mmm] of
    [entry.start] + "] " + [entry.text]. *)
Theorem txt_export_with_timestamps (st : State) (data : TranscriptData) :
  transcriptData st = Some data ->
  includeTimestamps st = true ->
  exists lines,
    option_map content (downloadAsFile st txt) = Some (join nl lines)
    /\ List.length lines = List.length (transcript data)
    /\ forall k e, nth_error (transcript data) k = Some e ->
         nth_error lines k =
         Some ("[" ++ Spec.encode_subtitle (start e) ++ "] " ++ text e).
Proof.
  intros Hd Hts.
  exists (map timestamped_line (transcript data)). repeat split.
  - rewrite (downloadAsFile_content st data txt Hd), Hts. reflexivity.
  - apply length_map.
  - intros k e Hk. rewrite nth_error_map, Hk. reflexivity.
Qed.

Lemma txt_export_with_timestamps_witness :
  exists lines,
    option_map content (downloadAsFile entry_at_65_state txt) =
      Some (join nl lines)
    /\ List.length lines = 1%nat
    /\ forall k e, nth_error [entry_at_65] k = Some e ->
         nth_error lines k =
         Some ("[" ++ Spec.encode_subtitle (start e) ++ "] " ++ text e).
Proof.
  exact (txt_export_with_timestamps entry_at_65_state
           (entry_at_65_data) eq_refl eq_refl).
Defined.

(** C3 fails as stated: for the entry "x" starting at 65 s, whose
    display-style label is "1:05", the exported line is
    "[00:01:05,000] x" and not "[1:05] x". *)
Lemma txt_export_not_display_style :
  timestamp_label entry_at_65 = "1:05" /\
  option_map content (downloadAsFile entry_at_65_state txt) =
    Some "[00:01:05,000] x" /\
  option_map content (downloadAsFile entry_at_65_state txt) <>
    Some (join nl (map (fun e => "[" ++ timestamp_label e ++ "] " ++ text e)
                       [entry_at_65])).
Proof.
  repeat split; try (vm_compute; reflexivity).
  vm_compute. discriminate.
Qed.

(** C4. With a document that has no entries, the export offers a file
    whose content is the empty string, in either format and whatever the
    timestamp switch: nothing is raised and nothing else is written. *)
Theorem empty_export_is_empty (st : State) (videoId : string)
    (ttl : option string) (fmt : format) :
  downloadAsFile
    (setTranscriptData
       (Some {| video_id := videoId; title := ttl; transcript := [] |}) st)
    fmt =
  Some {| filename := "transcript_" ++ videoId ++ "." ++ format_name fmt;
          mime := "text/plain";
          content := "" |}.
Proof.
  unfold downloadAsFile. simpl. destruct fmt; simpl.
  - now destruct (includeTimestamps st).
  - reflexivity.
Qed.

(** C9. The clipboard text is the entries' texts joined by one space; the
    plain-text export without timestamps is the same texts joined by a
    line feed. *)
Theorem clipboard_and_plain_export (st : State) (data : TranscriptData) :
  transcriptData st = Some data ->
  includeTimestamps st = false ->
  copyToClipboard st = Some (join " " (map text (transcript data))) /\
  option_map content (downloadAsFile st txt) =
    Some (join nl (map text (transcript data))).
Proof.
  intros Hd Hts. split.
  - unfold copyToClipboard. now rewrite Hd.
  - rewrite (downloadAsFile_content st data txt Hd), Hts. reflexivity.
Qed.

Lemma clipboard_and_plain_export_witness :
  copyToClipboard hi_there_state = Some "hi there" /\
  option_map content (downloadAsFile hi_there_state txt) =
    Some ("hi" ++ nl ++ "there").
Proof.
  exact (clipboard_and_plain_export hi_there_state hi_there
           eq_refl eq_refl).
Defined.

End ExportFacts.

Module PlayerFacts.

Import JSNumber JSString Transcript Examples.

Lemma activeTimestamp_onSelect (iframe : bool) (st : State)
    (entry : TranscriptEntry) :
  activeTimestamp (onSelect iframe st entry) = Some (start entry).
Proof.
  reflexivity.
Qed.

(** After the selections [earlier] and then [last], whatever the state
    before. *)
Lemma activeTimestamp_selections (iframe : bool)
    (earlier : list TranscriptEntry) (last : TranscriptEntry) :
  forall st,
    activeTimestamp (fold_left (onSelect iframe) (earlier ++ [last]) st) =
    Some (start last).
Proof.
  induction earlier as [|e earlier IH]; intros st; simpl.
  - reflexivity.
  - apply IH.
Qed.

(** C7. After any sequence of selections that ends with [last], the
    active timestamp is [last]'s start, and an entry is highlighted exactly
    when its start is strictly equal ([===]) to that value; so an entry
    selected before, whose start differs from [last]'s, is no longer
    highlighted. *)
Theorem active_iff_last_selected (iframe : bool) (st : State)
    (earlier : list TranscriptEntry) (last : TranscriptEntry) :
  let st' := fold_left (onSelect iframe) (earlier ++ [last]) st in
  activeTimestamp st' = Some (start last)
  /\ (forall e, isActive st' e = strict_eq (start last) (start e))
  /\ (forall prev, In prev earlier ->
        strict_eq (start last) (start prev) = false ->
        isActive st' prev = false).
Proof.
  intros st'. subst st'.
  pose proof (activeTimestamp_selections iframe earlier last st) as H.
  split; [exact H|]. split.
  - intros e. unfold isActive. now rewrite H.
  - intros prev _ Hne. unfold isActive. now rewrite H.
Qed.

Lemma active_iff_last_selected_witness :
  let st' := fold_left (onSelect true) ([at_one] ++ [near_one]) initial in
  isActive st' near_one = true /\ isActive st' at_one = false.
Proof.
  destruct (active_iff_last_selected true initial [at_one] near_one)
    as (_ & Hiff & Hprev).
  split.
  - rewrite (Hiff near_one). reflexivity.
  - apply Hprev; [left; reflexivity | reflexivity].
Defined.

End PlayerFacts.

Module LoadingFacts.

Import JSPromise Transcript Examples.

Lemma fetchData_isLoading (transcript_first : bool)
    (t : Settled (Response TranscriptData))
    (s : Settled (Response SummaryData)) (st : State) :
  isLoading (fetchData transcript_first t s st) = false.
Proof.
  reflexivity.
Qed.



(** The other way round, the transcript is lost with the summary. *)
Lemma transcript_lost_when_summary_fails :
  let st' := fetchData true transcript_ok summary_down initial in
  Spec.delivered transcript_ok = Some hi_there /\
  transcriptData st' = None /\
  render st' = ErrorScreen "Failed to fetch".
Proof.
  repeat split.
Qed.

End LoadingFacts.

Module ProxyFacts.

Import JSPromise Proxy Examples.

Lemma or_else_spec (detail : option Json) (fallback : string) :
  or_else detail fallback =
  match detail with
  | Some v => if truthy (Some v) then v else JString fallback
  | None => JString fallback
  end.
Proof.
  destruct detail; reflexivity.
Qed.

(** With a status that is not a success, [NextResponse.json] accepts the
    statuses from 300 to 599 other than 304, and throws on every other. *)
Lemma NextResponse_json_failed (body : Json) (code : Z) :
  (200 <=? code) && (code <=? 299) = false ->
  if (300 <=? code) && (code <=? 599) && negb (code =? 304) then
    NextResponse_json body code =
    Fulfilled {| response_status := code; response_body := reparse body |}
  else exists err, NextResponse_json body code = Rejected err.
Proof.
  intros Hok. unfold NextResponse_json, null_body_status.
  destruct (code <? 200) eqn:H1, (599 <? code) eqn:H2,
           (code =? 204) eqn:H3, (code =? 205) eqn:H4,
           (code =? 304) eqn:H5, (300 <=? code) eqn:H6,
           (code <=? 599) eqn:H7; cbn;
    try reflexivity; try (eexists; reflexivity); lia.
Qed.

Lemma accepted_status (code : Z) :
  (200 <=? code) && (code <=? 299) = false ->
  if (300 <=? code) && (code <=? 599) && negb (code =? 304)
  then 300 <= code <= 599 /\ code <> 304
  else code < 200 \/ 599 < code \/ code = 304.
Proof.
  destruct (Z.leb_spec 200 code), (Z.leb_spec code 299),
           (Z.leb_spec 300 code), (Z.leb_spec code 599),
           (Z.eqb_spec code 304); cbn; intros Hok; try discriminate; lia.
Qed.

(** C6, as the code has it. For each route (transcript, summary, quiz;
    the handlers differ in their messages only): when the backend answers
    with a non-success status and a body that parses as JSON other than
    [null], and the status is one that a response with a body can carry
    (from 300 to 599, other than 304), the route answers with that status,
    unchanged, and the body [{ error }], where [error] is the backend
    body's [detail] if it has one that is truthy, as JSON carries it (a
    Number that is not finite is sent as [null]), and the route's
    fallback message otherwise. When the body does not parse, or is
    [null], or the status is below 200, above 599 or 304, the route
    answers 500 with its fixed catch message. *)
Theorem error_passthrough (route : Route) (env : option string)
    (value : string) (backend : string -> Settled BackendResponse)
    (response : BackendResponse) :
  value <> "" ->
  backend (BACKEND_URL route env ++ backend_path route ++
           compose route value) = Fulfilled response ->
  ok response = false ->
  GET route env (Some value) backend =
  match json response with
  | Fulfilled JNull | Rejected _ =>
      {| response_status := 500;
         response_body := error_body (JString (catch_message route)) |}
  | Fulfilled body =>
      if (300 <=? status response) && (status response <=? 599)
         && negb (status response =? 304)
      then
        {| response_status := status response;
           response_body :=
             error_body
               match Spec.detail_field body with
               | Some detail =>
                   if truthy (Some detail) then reparse detail
                   else JString (fallback_message route)
               | None => JString (fallback_message route)
               end |}
      else
        {| response_status := 500;
           response_body := error_body (JString (catch_message route)) |}
  end.
Proof.
  intros Hvalue Hfetch Hok. unfold GET.
  destruct value as [|c value]; [congruence|].
  rewrite Hfetch. cbn [await]. rewrite Hok. cbn [negb].
  destruct (json response) as [err | body]; cbn [await]; [reflexivity|].
  assert (Hsend : forall v,
    match NextResponse_json (error_body v) (status response) with
    | Fulfilled r => r
    | Rejected _ =>
        {| response_status := 500;
           response_body := error_body (JString (catch_message route)) |}
    end =
    if (300 <=? status response) && (status response <=? 599)
       && negb (status response =? 304)
    then {| response_status := status response;
            response_body := error_body (reparse v) |}
    else {| response_status := 500;
            response_body := error_body (JString (catch_message route)) |}).
  { intros v.
    pose proof (NextResponse_json_failed (error_body v) _ Hok) as Hjson.
    destruct ((300 <=? status response) && (status response <=? 599)
              && negb (status response =? 304)).
    - rewrite Hjson. reflexivity.
    - destruct Hjson as [err Hjson]. rewrite Hjson. reflexivity. }
  destruct body; cbn [get_detail await Spec.detail_field];
    try reflexivity; rewrite Hsend; try reflexivity.
  rewrite or_else_spec.
  destruct (member "detail" members) as [detail|]; [|reflexivity].
  destruct (truthy (Some detail)); reflexivity.
Qed.

Lemma nonempty_u : "u" <> "".
Proof.
  discriminate.
Defined.

Lemma error_passthrough_witness :
  GET quiz_route None (Some "u") backend_404_detail =
  {| response_status := 404;
     response_body := error_body (JString "No transcript") |}.
Proof.
  exact (error_passthrough quiz_route None "u" backend_404_detail
           {| status := 404;
              json := Fulfilled
                        (JObject [("detail", JString "No transcript")]) |}
           nonempty_u eq_refl eq_refl).
Defined.

(** C6 fails as stated: a 404 whose body is not JSON is answered with
    500, and a 422 whose [detail] is the empty string is answered with the
    fallback message in place of that [detail]; a status of 999 is
    answered with 500 and the catch message, and a [detail] that is the
    Number [Infinity] is sent as [null]. *)
Lemma error_status_not_always_passed :
  response_status
    (GET transcript_route None (Some "u")
         backend_404_html) = 500
  /\ response_status
       (GET transcript_route None (Some "u")
            backend_404_html) <> 404
  /\ GET summary_route None (Some "u")
         backend_422_empty_detail =
     {| response_status := 422;
        response_body := error_body (JString "Failed to fetch summary") |}
  /\ response_body
       (GET summary_route None (Some "u")
            backend_422_empty_detail) <> error_body (JString "")
  /\ GET quiz_route None (Some "u") backend_999_detail =
     {| response_status := 500;
        response_body := error_body (JString "Failed to generate quiz") |}
  /\ GET transcript_route None (Some "u") backend_502_huge_detail =
     {| response_status := 502; response_body := error_body JNull |}.
Proof.
  repeat split; try reflexivity; cbn; discriminate.
Qed.

End ProxyFacts.

Module FieldFacts.

Import JSNumber JSString JSMath Rounding Transcript StringFacts NumberFacts.
Import Notions Examples.

(** The time code of a Number below a hundred hours, field by field,
    against the specification's derivation over the rationals. *)
Lemma time_code_exact (s : number) :
  valid s = true -> is_finite s = true -> leb (of_Z 0) s = true ->
  ltb s (of_Z 360000) = true ->
  let v := Spec.value s in
  exists ms : Z,
    formatTime s =
      Spec.two_digits (Spec.hours v) ++ ":" ++
      Spec.two_digits (Spec.minutes v) ++ ":" ++
      Spec.two_digits (Spec.seconds v) ++ "," ++
      Spec.three_digits ms
    /\ Spec.millis v <= ms <= Spec.millis v + 1
    /\ 0 <= ms <= 999.
Proof.
  intros Hv Hfin Hpos Hlt v. subst v.
  unfold Spec.hours, Spec.minutes, Spec.seconds, Spec.millis.
  destruct s as [sx | sx | | sx m e]; try discriminate.
  - exists 0. destruct sx; vm_compute; repeat split; discriminate.
  - destruct sx; [discriminate|].
    destruct (below_hundred_hours m e Hv Hlt) as [He HM].
    assert (He0 : e <= 0) by lia.
    pose proof (pow2_pos (- e) ltac:(lia)) as HU.
    set (U := 2 ^ (- e)) in *. set (M := Z.pos m) in *.
    destruct (millis_near m e Hv He0) as (ms & Hms & Hnear & H999).
    fold U M in Hnear.
    exists ms.
    change 3600%Q with (inject_Z 3600). change 60%Q with (inject_Z 60).
    change 1000%Q with (inject_Z 1000). change 1%Q with (inject_Z 1).
    rewrite (Qfloor_div_value m e He0 3600) by lia.
    rewrite (Qfloor_Qmod_div m e He0 3600 60) by lia.
    rewrite (Qfloor_Qmod m e He0 60) by lia.
    rewrite (Qfloor_Qmod_mul m e He0 1 1000) by lia.
    fold U M. rewrite Z.mul_1_l.
    pose proof (Z.mod_pos_bound M (3600 * U) ltac:(lia)) as H1.
    pose proof (Z.mod_pos_bound M (60 * U) ltac:(lia)) as H2.
    pose proof (Z.mod_pos_bound M U HU) as H3.
    assert (Hh : 0 <= M / (3600 * U) < 100).
    { split; [apply Z.div_pos; lia|]. apply Z.div_lt_upper_bound; lia. }
    assert (Hmi : 0 <= M mod (3600 * U) / (60 * U) < 60).
    { split; [apply Z.div_pos; lia|]. apply Z.div_lt_upper_bound; lia. }
    assert (Hsec : 0 <= M mod (60 * U) / U < 60).
    { split; [apply Z.div_pos; lia|]. apply Z.div_lt_upper_bound; lia. }
    assert (Hms0 : 0 <= ms <= 999).
    { split; [|assumption].
      apply Z.le_trans with (M mod U * 1000 / U); [|lia].
      apply Z.div_pos; lia. }
    split; [|split; assumption].
    unfold formatTime.
    rewrite (hours_exact m e Hv He0), (minutes_exact m e Hv He0),
      (seconds_exact m e Hv He0), Hms.
    fold U M.
    rewrite !padded_two_digits, padded_three_digits by lia.
    reflexivity.
Qed.

Lemma floor_div_sixty (m : positive) (e : Z) :
  valid (S754_finite false m e) = true -> e <= 0 ->
  floor (div (S754_finite false m e) (of_Z 60)) =
  of_Z (Z.pos m / (60 * 2 ^ (- e))).
Proof.
  intros Hv He. rewrite sixty.
  apply (floor_div_integer m e (120 * 2 ^ 46) (-47) 60 5);
    try assumption; try reflexivity; lia.
Qed.

Lemma minutes_printed (k : Z) :
  0 <= k < 6001 -> toString (of_Z k) = decimal (Z.to_N k).
Proof.
  intros Hk.
  assert (H : forallb (fun k => String.eqb (toString (of_Z k))
                                           (decimal (Z.to_N k)))
                      (below (Z.to_nat 6001)) = true)
    by (vm_compute; reflexivity).
  rewrite forallb_forall in H. apply String.eqb_eq. apply H.
  apply in_below. lia.
Qed.

Lemma seconds_printed (n : Z) :
  0 <= n < 100 -> padStart 2 (decimal (Z.to_N n)) = Spec.two_digits n.
Proof.
  intros Hn.
  assert (H : forallb (fun n => String.eqb (padStart 2 (decimal (Z.to_N n)))
                                           (Spec.two_digits n))
                      (below 100) = true)
    by (vm_compute; reflexivity).
  rewrite forallb_forall in H. apply String.eqb_eq. apply H.
  apply in_below. lia.
Qed.

Lemma ten_to_21 :
  of_Z (10 ^ 21) = S754_finite false 7629394531250000 17.
Proof.
  vm_compute. reflexivity.
Qed.

(** [toFixed(0)] of the remainder by 60: the remainder, counted in units,
    rounded to the nearest integer, the larger one at equal distance. *)
Lemma toFixed0_rem_sixty (m : positive) (e : Z) :
  valid (S754_finite false m e) = true -> e <= 0 ->
  let U := 2 ^ (- e) in
  let R := Z.pos m mod (60 * U) in
  toFixed0 (rem (S754_finite false m e) (of_Z 60)) =
  decimal (Z.to_N ((2 * R + U) / (2 * U))).
Proof.
  intros Hv He U R. rewrite sixty.
  pose proof (pow2_pos (- e) ltac:(lia)) as HU. fold U in HU.
  destruct (rem_integer m e (120 * 2 ^ 46) (-47) 60 Hv He eq_refl
              ltac:(lia) eq_refl)
    as [(H0 & Hrem) | (mz & ez & Hrem & Hez & Hez' & Hmz & Hvz)];
    rewrite Hrem.
  - fold U in H0. fold R in H0. rewrite H0, Z.mul_0_r, Z.add_0_l.
    rewrite Z.div_small by lia. reflexivity.
  - fold U in Hmz. fold R in Hmz. unfold toFixed0.
    rewrite ten_to_21.
    assert (Hbig : leb (S754_finite false 7629394531250000 17)
                       (S754_finite false mz ez) = false).
    { unfold leb, SFleb, SFcompare.
      destruct (Z.compare_spec 17 ez); try lia; reflexivity. }
    rewrite Hbig.
    assert (Hneg : (0 <=? ez) = false) by (apply Z.leb_gt; lia).
    rewrite Hneg. cbn [append]. do 2 f_equal.
    pose proof (pow2_pos (e - ez) ltac:(lia)) as Hk.
    replace (2 ^ (- ez)) with (U * 2 ^ (e - ez))
      by (unfold U; rewrite <- pow2_split by lia; f_equal; lia).
    replace (2 ^ (1 - ez)) with (2 * U * 2 ^ (e - ez)).
    + rewrite Hmz.
      replace (2 * (R * 2 ^ (e - ez)) + U * 2 ^ (e - ez))
        with ((2 * R + U) * 2 ^ (e - ez)) by ring.
      apply Z.div_mul_cancel_r; lia.
    + replace (1 - ez) with (1 + (- e) + (e - ez)) by lia.
      rewrite !pow2_split by lia. reflexivity.
Qed.

Lemma Qfloor_rounded_rem (m : positive) (e : Z) :
  e <= 0 ->
  let U := 2 ^ (- e) in
  let R := Z.pos m mod (60 * U) in
  Qfloor (Spec.Qmod (Spec.value (S754_finite false m e)) 60 + (1 # 2)) =
  (2 * R + U) / (2 * U).
Proof.
  intros He U R. rewrite Zdiv_Qdiv. apply Qfloor_comp.
  change 60%Q with (inject_Z 60).
  rewrite (Qmod_value m e He 60) by lia. fold U R.
  rewrite inject_Z_plus, !inject_Z_mult. field.
  apply inject_pos_nonzero. apply pow2_pos. lia.
Qed.

Lemma Zdigits2_bound (q : Z) : 0 <= q -> q < 2 ^ Zdigits2 q.
Proof.
  intros Hq. destruct q as [|p|p]; simpl; try lia.
  apply digits2_bounds.
Qed.

Lemma Zdigits2_nonneg (q : Z) : 0 <= Zdigits2 q.
Proof.
  destruct q; simpl; lia.
Qed.

(** A location leaves the exact value below the next integer. *)
Lemma located_below (N D m : Z) (l : location) :
  0 < D -> located N D m l -> N < (m + 1) * D.
Proof.
  intros HD. destruct l as [|[| |]]; cbn [located]; nia.
Qed.

(** Rounding, with the second shift told exactly: the mantissa rounded
    to nearest never has more than 53 digits, unless it is [2 ^ 53], which
    is halved without loss. *)
Lemma binary_round_aux_tight (sx : bool) (N D mx ex : Z) (lx : location) :
  0 < D -> 0 <= mx -> located N D mx lx ->
  let e1 := Z.max ex (fexp prec emax (Zdigits2 mx + ex)) in
  exists m1 m2,
    0 <= m1
    /\ (2 * m1 - 1) * (2 ^ (e1 - ex) * D) <= 2 * N
         <= (2 * m1 + 1) * (2 ^ (e1 - ex) * D)
    /\ 0 <= m2
    /\ (let e2 := Z.max e1 (fexp prec emax (Zdigits2 m1 + e1)) in
        m1 = m2 * 2 ^ (e2 - e1)
        /\ binary_round_aux prec emax sx mx ex lx = rounded sx m2 e2).
Proof.
  intros HD Hmx Hl e1.
  destruct (binary_round_aux_spec sx N D mx ex lx HD Hmx Hl)
    as (m1 & m2 & Hm1 & Hhalf & Hm2 & Hb & Hround).
  fold e1 in Hhalf, Hb, Hround.
  exists m1, m2. split; [exact Hm1|]. split; [exact Hhalf|].
  split; [exact Hm2|]. cbv zeta in Hb |- *. split; [|exact Hround].
  set (e2 := Z.max e1 (fexp prec emax (Zdigits2 m1 + e1))) in *.
  assert (He1 : -1074 <= e1) by (unfold e1; rewrite fexp_eq; lia).
  pose proof (Zdigits2_bound mx Hmx) as Hdx.
  pose proof (Zdigits2_nonneg mx) as Hd0.
  set (d := Zdigits2 mx) in *.
  pose proof (located_below N D mx lx HD Hl) as HN.
  assert (Hp : 0 <= e1 - ex) by (unfold e1; lia).
  pose proof (pow2_pos (e1 - ex) Hp) as HP.
  (* the rounded mantissa is at most 2 ^ 53 *)
  assert (H53 : m1 <= 2 ^ 53).
  { destruct Hhalf as [Hlow _].
    assert (H1 : (2 * m1 - 1) * 2 ^ (e1 - ex) < 2 * (mx + 1)).
    { apply Z.mul_lt_mono_pos_r with (p := D); [assumption|].
      rewrite <- Z.mul_assoc. lia. }
    destruct (Z.le_gt_cases d 53) as [Hsmall | Hbig].
    - assert (2 ^ d <= 2 ^ 53) by (apply pow2_le; lia).
      clear - H1 HP Hdx H Hm1. nia.
    - assert (Hsh : d - 53 <= e1 - ex)
        by (unfold e1; rewrite fexp_eq; fold d; lia).
      assert (HQ : 2 ^ (d - 53) <= 2 ^ (e1 - ex)) by (apply pow2_le; lia).
      assert (Hsplit : 2 ^ d = 2 ^ 53 * 2 ^ (d - 53))
        by (rewrite <- pow2_split by lia; f_equal; lia).
      pose proof (pow2_pos (d - 53) ltac:(lia)) as HR.
      clear - H1 HQ Hsplit HR Hdx Hm1. nia. }
  destruct (Z.eq_dec m1 (2 ^ 53)) as [Heq | Hne].
  - assert (He2 : e2 = e1 + 1).
    { unfold e2. rewrite Heq. change (Zdigits2 (2 ^ 53)) with 54.
      rewrite fexp_eq. lia. }
    rewrite He2 in Hb |- *. replace (e1 + 1 - e1) with 1 in * by lia.
    change (2 ^ 1) with 2 in *. lia.
  - assert (Hd1 : Zdigits2 m1 <= 53)
      by (apply Zdigits2_le; lia).
    assert (He2 : e2 = e1) by (unfold e2; rewrite fexp_eq; lia).
    rewrite He2 in Hb |- *. rewrite Z.sub_diag in *.
    change (2 ^ 0) with 1 in *. lia.
Qed.

(** [Math.ceil] of a rounded result with a negative exponent. *)
Lemma ceil_rounded (m2 e2 : Z) :
  0 <= m2 -> e2 < 0 ->
  ceil (rounded false m2 e2) = of_Z (- (- m2 / 2 ^ (- e2))).
Proof.
  intros Hm He. destruct m2 as [|p|p]; [| |lia].
  - reflexivity.
  - unfold rounded.
    replace (e2 <=? 971) with true by (symmetry; apply Z.leb_le; lia).
    unfold ceil.
    replace (0 <=? e2) with false by (symmetry; apply Z.leb_gt; lia).
    reflexivity.
Qed.

Lemma ceil_between (a b q : Z) :
  0 < b -> b * q < a <= b * (q + 1) -> - (- a / b) = q + 1.
Proof.
  intros Hb H. rewrite (div_between (- a) b (- (q + 1))); lia.
Qed.

Lemma ceil_multiple (b q : Z) : 0 < b -> - (- (b * q) / b) = q.
Proof.
  intros Hb. rewrite (div_between (- (b * q)) b (- q)); lia.
Qed.

(** The quotient of a Number by an integer [c] of [j + 1] bits, rounded
    up to an integer, is computed exactly as long as the quotient is far
    from underflow: rounding the quotient neither reaches nor leaves an
    integer, because the dividend keeps at least one unit of its last place
    away from every multiple of [c]. *)
Lemma ceil_div_integer (mx : positive) (ex : Z) (my : positive)
    (ey c j : Z) :
  valid (S754_finite false mx ex) = true -> -1000 <= ex <= 0 ->
  valid (S754_finite false my ey) = true ->
  Z.pos (digits2_pos my) = 53 ->
  Z.pos my = c * 2 ^ (- ey) -> ey = j - 52 -> 2 <= j <= 52 ->
  ceil (div (S754_finite false mx ex) (S754_finite false my ey)) =
  of_Z (- (- Z.pos mx / (c * 2 ^ (- ex)))).
Proof.
  intros Hx [Hexlo Hex] Hy Hdy Hc Hey Hj.
  destruct (valid_finite _ _ _ Hx) as (_ & Hdx & Hex').
  pose proof (digits2_bounds mx) as Hmx.
  pose proof (digits2_bounds my) as Hmy. rewrite Hdy in Hmy.
  change (2 ^ (53 - 1)) with (2 ^ 52) in Hmy.
  set (dx := Z.pos (digits2_pos mx)) in *.
  assert (Hdx1 : 1 <= dx) by (unfold dx; lia).
  rewrite div_finite.
  set (e' := div_exponent mx ex my ey).
  assert (He' : e' = fexp prec emax (dx + ex - j - 1)).
  { unfold e', div_exponent. fold dx. rewrite Hdy.
    replace (dx + ex - (53 + ey)) with (dx + ex - j - 1) by lia.
    rewrite fexp_eq. lia. }
  rewrite fexp_eq in He'.
  set (s := ex - ey - e').
  assert (Hs : 0 <= s) by (unfold s; lia).
  set (N := Z.pos mx * 2 ^ s).
  set (D := Z.pos my) in *.
  assert (HD : 0 < D) by (unfold D; lia).
  assert (Hqr : N = N / D * D + N mod D)
    by (rewrite Z.mul_comm; apply Z.div_mod; lia).
  pose proof (Z.mod_pos_bound N D HD) as Hr.
  assert (HN0 : 0 <= N) by (unfold N; pose proof (pow2_pos s Hs); lia).
  assert (Hq0 : 0 <= N / D) by (apply Z.div_pos; lia).
  pose proof (new_location_located N D (N / D) (N mod D) HD Hr Hqr) as Hloc.
  destruct (binary_round_aux_tight false N D (N / D) e' _ HD Hq0 Hloc)
    as (m1 & m2 & Hm1 & Hhalf & Hm2 & Hb & Hround).
  rewrite Hround. clear Hround Hloc.
  set (e1 := Z.max e' (fexp prec emax (Zdigits2 (N / D) + e'))) in *.
  set (e2 := Z.max e1 (fexp prec emax (Zdigits2 m1 + e1))) in *.
  (* the size of the quotient *)
  assert (HN : N < 2 ^ (dx + s)).
  { unfold N. rewrite pow2_split by lia.
    apply Z.mul_lt_mono_pos_r; [apply pow2_pos; assumption | lia]. }
  assert (Hq : Zdigits2 (N / D) <= Z.max (dx + s - 52) 0).
  { destruct (Z.le_gt_cases 52 (dx + s)) as [Hge | Hlt].
    - apply Z.le_trans with (dx + s - 52); [|lia].
      apply Zdigits2_le; [lia|]. split; [assumption|].
      apply Z.div_lt_upper_bound; [assumption|].
      assert (2 ^ (dx + s) = 2 ^ 52 * 2 ^ (dx + s - 52))
        by (rewrite <- pow2_split by lia; f_equal; lia).
      pose proof (pow2_pos (dx + s - 52) ltac:(lia)) as HT.
      destruct Hmy as [Hmy _]. fold D in Hmy.
      clear - HN H HT Hmy. nia.
    - assert (2 ^ (dx + s) < 2 ^ 52) by (apply pow2_lt; lia).
      rewrite Z.div_small by lia. simpl. lia. }
  assert (He1 : e' <= e1 <= Z.max (ex - j) (-1074) /\ -1074 <= e' <= -1).
  { apply (quotient_exponents dx ex ey j e' (Zdigits2 (N / D)) e1
             (conj Hdx1 Hdx) (conj (proj1 Hex') Hex) Hey Hj He' Hq).
    unfold e1. now rewrite fexp_eq. }
  destruct He1 as [He1 He''].
  assert (Hnormal : e1 <= ex - j) by (clear - He1 Hexlo Hj; lia).
  assert (He1' : e' <= e1 < 0) by (clear - He1 Hex Hj; lia).
  assert (Hs1 : s = ex - ey - e') by reflexivity.
  clear He' Hq.
  (* the size of the rounded mantissa *)
  set (u := e1 - e').
  assert (Hu1 : u = e1 - e') by reflexivity.
  assert (Hu : 0 <= u) by (clear - Hu1 He1'; lia).
  set (W := 2 ^ u * D) in *.
  assert (HW : 2 ^ (u + 52) <= W).
  { unfold W. rewrite pow2_split by (clear - Hu; lia).
    apply Z.mul_le_mono_nonneg_l;
      [pose proof (pow2_pos u Hu) | destruct Hmy]; lia. }
  assert (Hm1d : m1 = 0
                 \/ (0 <= dx + s - 51 - u /\ m1 < 2 ^ (dx + s - 51 - u))).
  { destruct (Z.eq_dec m1 0) as [|Hne]; [left; assumption | right].
    assert (H1 : m1 * 2 ^ (u + 52) < 2 ^ (dx + s + 1)).
    { rewrite (pow2_split (dx + s) 1) by (clear - Hdx1 Hs; lia).
      change (2 ^ 1) with 2.
      pose proof (pow2_pos (u + 52) ltac:(clear - Hu; lia)) as HQ.
      destruct Hhalf as [Hhalf _].
      apply (half_bound m1 W _ N); try assumption.
      clear - Hne Hm1. lia. }
    destruct (Z.le_gt_cases 0 (dx + s - 51 - u)) as [Hge | Hlt].
    - split; [assumption|].
      replace (dx + s + 1) with ((dx + s - 51 - u) + (u + 52)) in H1
        by (clear; lia).
      rewrite (pow2_split (dx + s - 51 - u) (u + 52)) in H1
        by (clear - Hge Hu; lia).
      apply Z.mul_lt_mono_pos_r in H1;
        [assumption | apply pow2_pos; clear - Hu; lia].
    - exfalso.
      assert (HP : 2 ^ (dx + s + 1) <= 2 ^ (u + 52))
        by (apply pow2_le; clear - Hlt Hdx1 Hs; lia).
      pose proof (pow2_pos (u + 52) ltac:(clear - Hu; lia)) as HQ.
      clear - Hne Hm1 HQ HP H1. nia. }
  assert (Hd1 : Zdigits2 m1 + e1 <= Z.max (dx + ex - j + 1) e1).
  { destruct Hm1d as [H0 | [Hge Hlt]].
    - rewrite H0. simpl. clear. lia.
    - pose proof (Zdigits2_le m1 _ Hge (conj Hm1 Hlt)) as Hd.
      clear - Hd Hu1 Hs1 Hey. lia. }
  assert (He2 : e1 <= e2 < 0).
  { apply (result_exponent dx ex j (Zdigits2 m1) e1 e2
             (conj Hdx1 Hdx) Hex (proj1 Hj) (proj2 He1) Hd1).
    unfold e2. now rewrite fexp_eq. }
  rewrite ceil_rounded by (clear - Hm2 He2; lia). f_equal.
  destruct Hhalf as [Hhalf1 Hhalf2].
  fold u in Hhalf1, Hhalf2. fold W in Hhalf1, Hhalf2.
  assert (HNeq : N = Z.pos mx * 2 ^ s) by reflexivity.
  assert (HWeq : W = 2 ^ u * D) by reflexivity.
  destruct Hmy as [_ Hmy].
  clearbody N W e2 e1 u s e'. clear Hd1 He1 Hqr Hr Hq0 HN Hx Hy Hdy Hm1d.
  (* the units *)
  set (A1 := 2 ^ (- e1)). set (A2 := 2 ^ (- e2)). set (B := 2 ^ (e2 - e1)) in *.
  assert (HA : A1 = A2 * B).
  { unfold A1, A2, B. rewrite <- pow2_split by lia. f_equal. lia. }
  assert (HB : 0 < B) by (apply pow2_pos; lia).
  assert (HA2 : 0 < A2) by (apply pow2_pos; lia).
  assert (HW0 : 0 < W) by (pose proof (pow2_pos (u + 52) ltac:(lia)); lia).
  set (b := c * 2 ^ (- ex)).
  assert (Hb0 : 0 < b).
  { unfold b. pose proof (pow2_pos (- ex) ltac:(lia)) as H1.
    pose proof (pow2_pos (- ey) ltac:(lia)) as H2.
    assert (H3 : 0 < c * 2 ^ (- ey)) by (rewrite <- Hc; lia).
    clear - H1 H2 H3. nia. }
  set (K := Z.pos mx / b).
  assert (HK0 : 0 <= K) by (apply Z.div_pos; lia).
  pose proof (Z.div_mod (Z.pos mx) b ltac:(lia)) as Hdm. fold K in Hdm.
  pose proof (Z.mod_pos_bound (Z.pos mx) b Hb0) as Hrem.
  (* one, in the units of [N] *)
  assert (Hone : forall k, k * A1 * W = k * b * 2 ^ s).
  { intros k. unfold A1, b. rewrite HWeq, Hc.
    assert (P1 : 2 ^ (- e1) * 2 ^ u * 2 ^ (- ey) = 2 ^ (- ex) * 2 ^ s).
    { rewrite <- !pow2_split by lia. f_equal. lia. }
    replace (k * 2 ^ (- e1) * (2 ^ u * (c * 2 ^ (- ey))))
      with (k * c * (2 ^ (- e1) * 2 ^ u * 2 ^ (- ey))) by ring.
    replace (k * (c * 2 ^ (- ex)) * 2 ^ s)
      with (k * c * (2 ^ (- ex) * 2 ^ s)) by ring.
    now rewrite P1. }
  pose proof (pow2_pos s Hs) as HS.
  assert (HG : W < 2 ^ (s + 1)).
  { rewrite HWeq.
    assert (HG : 2 ^ u * 2 ^ 53 <= 2 ^ (s + 1)).
    { rewrite <- pow2_split by lia. apply pow2_le. lia. }
    pose proof (pow2_pos u Hu) as HU.
    clear - HG HU Hmy. nia. }
  rewrite (pow2_split s 1) in HG by lia. change (2 ^ 1) with 2 in HG.
  pose proof (Hone K) as HoneK. pose proof (Hone (K + 1)) as HoneK1.
  set (r := Z.pos mx mod b) in *.
  assert (HNr : N = K * A1 * W + r * 2 ^ s)
    by (rewrite HoneK, HNeq, Hdm; ring).
  destruct (Z.eq_dec r 0) as [Hr0 | Hr0].
  - (* the quotient is an integer *)
    rewrite Hr0, Z.mul_0_l, Z.add_0_r in HNr.
    rewrite Hr0, Z.add_0_r in Hdm. rewrite Hdm at 1.
    rewrite ceil_multiple by assumption.
    assert (Hm1K : m1 = K * A1).
    { clear - Hhalf1 Hhalf2 HNr HW0. nia. }
    assert (Hm2K : m2 = K * A2).
    { clear - Hm1K Hb HA HB. nia. }
    rewrite Hm2K, (Z.mul_comm K A2). now apply ceil_multiple.
  - (* the quotient lies between two integers *)
    rewrite (ceil_between (Z.pos mx) b K) by lia.
    apply ceil_between; [assumption|]. split.
    + assert (Hm1K : K * A1 < m1).
      { assert (Hr1 : 2 ^ s <= r * 2 ^ s) by (clear - Hr0 Hrem HS; nia).
        clear - Hhalf2 HNr HW0 HG Hr1. nia. }
      clear - Hm1K Hb HA HB. nia.
    + assert (Hup : m2 < (K + 1) * A2).
      { apply (rounded_upper (K + 1) m1 m2 N W A1 A2 B (2 * 2 ^ s)
                 HW0 HB HA Hhalf1).
        - clear - Hb HB. nia.
        - rewrite HoneK1, HNeq.
          assert (Z.pos mx + 1 <= (K + 1) * b) by (clear - Hdm Hrem; nia).
          clear - H HS. nia.
        - clear - HG. lia. }
      clear - Hup. lia.
Qed.














End FieldFacts.

Module TimeFacts.

Import JSNumber JSString Transcript StringFacts NumberFacts FieldFacts.
Import Examples.

(** C10. The seconds field of the on-screen label is the remainder of
    [start] by 60 rounded to the nearest integer, the larger one at equal
    distance, and not floored; the minutes are the whole minutes of the
    start, and are not raised when the seconds read 60. From 0 up to a
    hundred hours the label is the whole minutes, a colon, and the two
    digits of the rounded remainder, where flooring would give the
    seconds of the time code. Whenever the remainder is at least 59.5,
    the field reads "60" where flooring would give "59", and the label is
    the minutes followed by ":60"; so it is for the entry that starts at
    119.7, labelled "1:60". *)
Theorem label_seconds_rounded (entry : TranscriptEntry) :
  valid (start entry) = true ->
  let s := start entry in
  let v := Spec.value s in
  let r := rem s (of_Z 60) in
  (is_finite s = true -> leb (of_Z 0) s = true ->
   ltb s (of_Z 360000) = true ->
   let rounded := Qfloor (Spec.Qmod v 60 + (1 # 2)) in
   timestamp_label entry =
     decimal (Z.to_N (Qfloor (v / 60))) ++ ":" ++ Spec.two_digits rounded
   /\ toFixed0 r = decimal (Z.to_N rounded)
   /\ toString (floor r) = decimal (Z.to_N (Spec.seconds v))
   /\ Spec.seconds v <= rounded <= Spec.seconds v + 1
   /\ 0 <= rounded <= 60)
  /\ (leb (of_ratio 119 2) r = true ->
      toFixed0 r = "60"
      /\ toString (floor r) = "59"
      /\ timestamp_label entry =
         toString (floor (div s (of_Z 60))) ++ ":60").
Proof.
  intros Hvalid s v r. split.
  - subst s v r. unfold timestamp_label.
    destruct (start entry) as [sx | sx | | sx m e];
      try discriminate; intros Hfin Hpos Hlt.
    + destruct sx; vm_compute; repeat split; discriminate.
    + destruct sx; [discriminate|]. cbv zeta.
      destruct (below_hundred_hours m e Hvalid Hlt) as [He HM].
      assert (He0 : e <= 0) by lia.
      pose proof (pow2_pos (- e) ltac:(lia)) as HU.
      rewrite (Qfloor_rounded_rem m e He0).
      change 60%Q with (inject_Z 60).
      rewrite (Qfloor_div_value m e He0 60) by lia.
      unfold Spec.seconds. change 60%Q with (inject_Z 60).
      rewrite (Qfloor_Qmod m e He0 60) by lia.
      rewrite (floor_div_sixty m e Hvalid He0).
      rewrite (toFixed0_rem_sixty m e Hvalid He0).
      rewrite (seconds_exact m e Hvalid He0).
      set (U := 2 ^ (- e)) in *. set (M := Z.pos m) in *.
      pose proof (Z.mod_pos_bound M (60 * U) ltac:(lia)) as HR.
      set (R := M mod (60 * U)) in *.
      assert (Hfloor : 0 <= R / U < 60).
      { split; [apply Z.div_pos; lia|].
        apply Z.div_lt_upper_bound; lia. }
      assert (Hlow : R / U <= (2 * R + U) / (2 * U)).
      { apply Z.div_le_lower_bound; [lia|].
        pose proof (Z.mul_div_le R U HU). lia. }
      assert (Hhigh : (2 * R + U) / (2 * U) <= R / U + 1).
      { assert ((2 * R + U) / (2 * U) < R / U + 2); [|lia].
        apply Z.div_lt_upper_bound; [lia|].
        pose proof (Z.mod_pos_bound R U HU).
        pose proof (Z.div_mod R U ltac:(lia)). nia. }
      assert (Hk : 0 <= M / (60 * U) < 6000).
      { split; [apply Z.div_pos; lia|].
        apply Z.div_lt_upper_bound; lia. }
      rewrite !minutes_printed, seconds_printed by lia.
      repeat split; try reflexivity; lia.
  - intros Hlo.
    pose proof (rem_sixty_below _ Hvalid Hlo) as Hhi. fold r in Hhi.
    rewrite fifty_nine_and_a_half in Hlo. rewrite sixty in Hhi.
    destruct (between_same_exponent _ _ _ _ Hlo Hhi) as (m & Hr & Hm).
    change (Z.pos (119 * 2 ^ 46)) with 8373880557142016 in Hm.
    change (Z.pos (120 * 2 ^ 46)) with 8444249301319680 in Hm.
    assert (Hfixed : toFixed0 r = "60").
    { rewrite Hr. unfold toFixed0.
      replace (leb (of_Z (10 ^ 21)) (S754_finite false m (-47))) with false
        by (vm_compute; reflexivity).
      change (2 ^ (- (-47))) with 140737488355328.
      change (2 ^ (1 - (-47))) with 281474976710656.
      rewrite (div_between _ _ 60) by lia.
      vm_compute. reflexivity. }
    split; [exact Hfixed|]. split.
    + rewrite Hr. unfold floor.
      change (2 ^ (- (-47))) with 140737488355328. simpl cond_Zopp.
      rewrite (div_between _ _ 59) by lia.
      vm_compute. reflexivity.
    + unfold timestamp_label. fold s r. rewrite Hfixed. reflexivity.
Qed.

Lemma label_seconds_rounded_witness :
  timestamp_label entry_at_119_7 = "1:60"
  /\ timestamp_label entry_at_65 = "1:05".
Proof.
  split.
  - destruct (label_seconds_rounded entry_at_119_7 eq_refl)
      as (_ & Hsixty).
    destruct (Hsixty eq_refl) as (_ & _ & H).
    rewrite H. vm_compute. reflexivity.
  - destruct (label_seconds_rounded entry_at_65 eq_refl) as (Hrule & _).
    destruct (Hrule eq_refl eq_refl eq_refl) as (H & _).
    rewrite H. vm_compute. reflexivity.
Defined.








(** C2. For every non-negative finite [s], the subtitle-style time code is
    made of four fields: hours [floor(s / 3600)], minutes
    [floor((s mod 3600) / 60)] and seconds [floor(s mod 60)], each printed
    and zero-padded on the left to two characters, and milliseconds
    [floor((s mod 1) * 1000)], zero-padded to three, separated by ":", ":"
    and ",", all computed on Numbers. Below a hundred hours the code has
    the shape HH:MM:SS,mmm exactly: its hours, minutes and seconds are the
    two decimal digits of the values the same formulas give over the
    rationals, and its three millisecond digits are those of the rational
    value or, the product being rounded, of the next integer, never above
    999. In particular the code of 3661.5 is "01:01:01,500". *)
Theorem formatTime_subtitle_style (s : number) :
  valid s = true -> is_finite s = true -> leb (of_Z 0) s = true ->
  formatTime s = Spec.encode_subtitle s
  /\ (ltb s (of_Z 360000) = true ->
      let v := Spec.value s in
      exists ms : Z,
        formatTime s =
          Spec.two_digits (Spec.hours v) ++ ":" ++
          Spec.two_digits (Spec.minutes v) ++ ":" ++
          Spec.two_digits (Spec.seconds v) ++ "," ++
          Spec.three_digits ms
        /\ Spec.millis v <= ms <= Spec.millis v + 1
        /\ 0 <= ms <= 999)
  /\ formatTime (of_ratio 7323 2) = "01:01:01,500".
Proof.
  intros Hv Hfin Hpos. split; [reflexivity|]. split.
  - intros Hlt. exact (time_code_exact s Hv Hfin Hpos Hlt).
  - vm_compute. reflexivity.
Qed.

Lemma formatTime_subtitle_style_witness :
  formatTime (of_ratio 7323 2) = "01:01:01,500"
  /\ exists ms : Z,
       formatTime (of_ratio 7323 2) =
         "01" ++ ":" ++ "01" ++ ":" ++ "01" ++ "," ++ Spec.three_digits ms
       /\ 500 <= ms <= 501.
Proof.
  destruct (formatTime_subtitle_style (of_ratio 7323 2)
              eq_refl eq_refl eq_refl) as (_ & Hexact & Hcode).
  split; [exact Hcode|].
  destruct (Hexact eq_refl) as (ms & Hfields & Hnear & _).
  exists ms. split; [exact Hfields | exact Hnear].
Defined.

(** Multiplying by 1000 rounds: the Number nearest to 0.009 lies below
    0.009, its exact product with 1000 below 9, and yet its time code
    reads 9 milliseconds. *)
Lemma millis_rounded_up :
  formatTime (of_ratio 9 1000) = "00:00:00,009"
  /\ Spec.millis (Spec.value (of_ratio 9 1000)) = 8.
Proof.
  split; vm_compute; reflexivity.
Qed.

End TimeFacts.

Module TextFacts.

Import JSString JSText StringFacts Notions.

Lemma split_nonempty (c : ascii) (s : string) : split c s <> [].
Proof.
  destruct s as [|d s]; simpl; [discriminate|].
  destruct (Ascii.eqb d c); [discriminate|].
  destruct (split c s); discriminate.
Qed.

(** A separator between two strings separates their pieces. *)
Lemma split_app (c : ascii) (a b : string) :
  split c (a ++ String c b) = (split c a ++ split c b)%list.
Proof.
  induction a as [|d a IH]; simpl.
  - now rewrite Ascii.eqb_refl.
  - destruct (Ascii.eqb d c); [now rewrite IH|].
    rewrite IH. pose proof (split_nonempty c a) as Hne.
    destruct (split c a) as [|p ps]; [congruence | reflexivity].
Qed.

(** Joining the pieces with the separator gives the string back. *)
Lemma join_split (c : ascii) (s : string) :
  join (String c "") (split c s) = s.
Proof.
  induction s as [|d s IH]; simpl; [reflexivity|].
  destruct (Ascii.eqb d c) eqn:Hd.
  - apply Ascii.eqb_eq in Hd. subst d.
    pose proof (split_nonempty c s) as Hne.
    destruct (split c s) as [|p ps]; [congruence|].
    simpl in *. now rewrite IH.
  - pose proof (split_nonempty c s) as Hne.
    destruct (split c s) as [|p ps]; [congruence|].
    destruct ps as [|p' ps]; simpl in *; now rewrite <- IH.
Qed.

Lemma split_without (c : ascii) (s : string) :
  occurs c s = false -> split c s = [s].
Proof.
  induction s as [|d s IH]; simpl; [reflexivity|].
  intros H. apply orb_false_iff in H. destruct H as [Hd Hs].
  rewrite Hd, (IH Hs). reflexivity.
Qed.

(** The pieces of joined parts are the pieces of the parts. *)
Lemma split_join (c : ascii) (parts : list string) :
  parts <> [] ->
  split c (join (String c "") parts) = List.concat (map (split c) parts).
Proof.
  induction parts as [|p parts IH]; [congruence|]. intros _.
  destruct parts as [|q parts].
  - simpl. now rewrite app_nil_r.
  - change (join (String c "") (p :: q :: parts))
      with (p ++ String c (join (String c "") (q :: parts))).
    rewrite split_app, IH by discriminate. reflexivity.
Qed.

Lemma concat_singletons {A : Type} (l : list A) :
  List.concat (map (fun a => [a]) l) = l.
Proof.
  induction l as [|a l IH]; simpl; [reflexivity | now rewrite IH].
Qed.

Lemma split_join_without (c : ascii) (parts : list string) :
  parts <> [] ->
  (forall p, In p parts -> occurs c p = false) ->
  split c (join (String c "") parts) = parts.
Proof.
  intros Hne Hfree. rewrite (split_join c parts Hne).
  rewrite <- (concat_singletons parts) at 2. f_equal.
  apply map_ext_in. intros p Hp. now apply split_without, Hfree.
Qed.

(** Trimming leaves nothing exactly of the strings made of white space. *)
Lemma trimEnd_empty (s : string) : trimEnd s = "" -> blank s = true.
Proof.
  induction s as [|c s IH]; simpl; [reflexivity|].
  destruct (trimEnd s) eqn:Ht.
  - destruct (is_white_space c); [intros _; now apply IH | discriminate].
  - discriminate.
Qed.

Lemma trimEnd_blank (s : string) : blank s = true -> trimEnd s = "".
Proof.
  induction s as [|c s IH]; simpl; [reflexivity|].
  intros H. apply andb_true_iff in H. destruct H as [Hc Hs].
  now rewrite (IH Hs), Hc.
Qed.

Lemma trim_blank (s : string) : trim s = "" <-> blank s = true.
Proof.
  unfold trim. induction s as [|c s IH]; cbn [trimStart blank]; [tauto|].
  destruct (is_white_space c) eqn:Hc; cbn [andb].
  - exact IH.
  - split; [|discriminate]. intros H.
    apply trimEnd_empty in H. cbn [blank] in H. rewrite Hc in H.
    discriminate.
Qed.

End TextFacts.

Module CodecFacts.

Import JSNumber JSString Rounding Transcript StringFacts NumberFacts.
Import FieldFacts.
Import Notions Examples.

(** The whole seconds of [M / U], split into hours, minutes and seconds,
    add up again. *)
Lemma fields_recombine (M U : Z) :
  0 < U -> 0 <= M ->
  M / (3600 * U) * 3600 + M mod (3600 * U) / (60 * U) * 60
  + M mod (60 * U) / U = M / U.
Proof.
  intros HU HM.
  rewrite (Z.mul_comm 3600 U), (Z.mul_comm 60 U).
  rewrite <- (Z.div_div M U 3600) by lia.
  rewrite !Z.rem_mul_r by lia.
  rewrite <- (Z.div_div _ U 60) by lia.
  rewrite !(Z.mul_comm U), !Z.div_add by lia.
  rewrite (Z.div_small (M mod U) U) by (apply Z.mod_pos_bound; lia).
  rewrite !Z.add_0_l.
  generalize (M / U). intros q. Z.to_euclidean_division_equations; lia.
Qed.

(** A count of milliseconds within one of the exact one, in units. *)
Lemma millis_units (M U ms : Z) :
  0 < U -> 0 <= M ->
  M mod U * 1000 / U <= ms <= M mod U * 1000 / U + 1 ->
  1000 * M - U <= (1000 * (M / U) + ms) * U <= 1000 * M + U.
Proof.
  intros HU HM Hms.
  pose proof (Z.div_mod M U ltac:(lia)) as HMU.
  pose proof (Z.mod_pos_bound M U HU) as HF.
  pose proof (Z.div_mod (M mod U * 1000) U ltac:(lia)) as Hq.
  pose proof (Z.mod_pos_bound (M mod U * 1000) U HU) as Hr.
  set (F := M mod U) in *. set (Q := M / U) in *.
  set (k := F * 1000 / U) in *. set (r := (F * 1000) mod U) in *.
  clearbody F Q k r. nia.
Qed.

Lemma two_digits_length (k : Z) : String.length (Spec.two_digits k) = 2%nat.
Proof.
  reflexivity.
Qed.

Lemma time_code_shape (a b c d : string) :
  String.length (a ++ ":" ++ b ++ ":" ++ c ++ "," ++ d) =
  (String.length a + String.length b + String.length c
   + String.length d + 3)%nat.
Proof.
  rewrite !length_append. cbn [String.length]. lia.
Qed.

(** X2. A time code is never shorter than the twelve characters of
    HH:MM:SS,mmm, whatever the Number, NaN included; from 0 up to a hundred
    hours it has exactly twelve, so that the timestamped line of a caption is
    its text behind fifteen characters. *)
Theorem time_code_length (s : number) :
  (12 <= String.length (formatTime s))%nat
  /\ (valid s = true -> is_finite s = true -> leb (of_Z 0) s = true ->
      ltb s (of_Z 360000) = true ->
      String.length (formatTime s) = 12%nat
      /\ forall entry, start entry = s ->
           exists prefix,
             timestamped_line entry = prefix ++ text entry
             /\ String.length prefix = 15%nat).
Proof.
  split.
  - unfold formatTime. rewrite time_code_shape, !length_padStart. lia.
  - intros Hv Hfin Hpos Hlt.
    destruct (time_code_exact s Hv Hfin Hpos Hlt) as (ms & Hcode & _).
    assert (Hlen : String.length (formatTime s) = 12%nat)
      by (rewrite Hcode; reflexivity).
    split; [exact Hlen|].
    intros entry <-. exists ("[" ++ formatTime (start entry) ++ "] ").
    split.
    + unfold timestamped_line. now rewrite !append_assoc.
    + rewrite !length_append, Hlen. reflexivity.
Qed.

Lemma time_code_length_witness :
  String.length (formatTime (of_ratio 7323 2)) = 12%nat
  /\ (12 <= String.length (formatTime NaN))%nat.
Proof.
  split.
  - exact (proj1 (proj2 (time_code_length (of_ratio 7323 2))
                    eq_refl eq_refl eq_refl eq_refl)).
  - exact (proj1 (time_code_length NaN)).
Defined.

(** X1. From 0 up to a hundred hours, the time code read back as a count of
    milliseconds is within one of a thousand times the seconds encoded: its
    hours are below 100, its minutes and seconds below 60, its milliseconds
    below 1000, and hours, minutes and seconds add up to the whole seconds
    exactly. *)
Theorem time_code_within_a_millisecond (s : number) :
  valid s = true -> is_finite s = true -> leb (of_Z 0) s = true ->
  ltb s (of_Z 360000) = true ->
  exists h m sec ms : Z,
    formatTime s =
      Spec.two_digits h ++ ":" ++ Spec.two_digits m ++ ":" ++
      Spec.two_digits sec ++ "," ++ Spec.three_digits ms
    /\ 0 <= h < 100 /\ 0 <= m < 60 /\ 0 <= sec < 60 /\ 0 <= ms < 1000
    /\ 3600 * h + 60 * m + sec = Qfloor (Spec.value s)
    /\ (1000 * Spec.value s - 1
        <= inject_Z (1000 * (3600 * h + 60 * m + sec) + ms)
        <= 1000 * Spec.value s + 1)%Q.
Proof.
  intros Hv Hfin Hpos Hlt.
  destruct s as [sx | sx | | sx m e]; try discriminate.
  - exists 0, 0, 0, 0. destruct sx; vm_compute; repeat split; discriminate.
  - destruct sx; [discriminate|].
    destruct (below_hundred_hours m e Hv Hlt) as [He HM].
    assert (He0 : e <= 0) by lia.
    pose proof (pow2_pos (- e) ltac:(lia)) as HU.
    destruct (millis_near m e Hv He0) as (ms & Hms & Hnear & H999).
    set (U := 2 ^ (- e)) in *. set (M := Z.pos m) in *.
    pose proof (Z.mod_pos_bound M (3600 * U) ltac:(lia)) as H1.
    pose proof (Z.mod_pos_bound M (60 * U) ltac:(lia)) as H2.
    pose proof (Z.mod_pos_bound M U HU) as H3.
    assert (Hh : 0 <= M / (3600 * U) < 100).
    { split; [apply Z.div_pos; lia|]. apply Z.div_lt_upper_bound; lia. }
    assert (Hmi : 0 <= M mod (3600 * U) / (60 * U) < 60).
    { split; [apply Z.div_pos; lia|]. apply Z.div_lt_upper_bound; lia. }
    assert (Hsec : 0 <= M mod (60 * U) / U < 60).
    { split; [apply Z.div_pos; lia|]. apply Z.div_lt_upper_bound; lia. }
    assert (Hms0 : 0 <= ms < 1000).
    { split; [|lia].
      apply Z.le_trans with (M mod U * 1000 / U); [|lia].
      apply Z.div_pos; lia. }
    pose proof (fields_recombine M U HU ltac:(lia)) as Hsum.
    pose proof (millis_units M U ms HU ltac:(lia) Hnear) as Hclose.
    exists (M / (3600 * U)), (M mod (3600 * U) / (60 * U)),
           (M mod (60 * U) / U), ms.
    split.
    { unfold formatTime.
      rewrite (hours_exact m e Hv He0), (minutes_exact m e Hv He0),
        (seconds_exact m e Hv He0), Hms.
      fold U M.
      rewrite !padded_two_digits, padded_three_digits by lia.
      reflexivity. }
    split; [exact Hh|]. split; [exact Hmi|]. split; [exact Hsec|].
    split; [exact Hms0|].
    assert (Hvalue : (Spec.value (S754_finite false m e) ==
                      inject_Z M / inject_Z U)%Q)
      by (apply value_units; exact He0).
    assert (HUq : ~ (inject_Z U == 0)%Q) by (apply inject_pos_nonzero; lia).
    assert (HUpos : (0 < inject_Z U)%Q)
      by (change 0%Q with (inject_Z 0); rewrite <- Zlt_Qlt; exact HU).
    replace (3600 * (M / (3600 * U)) + 60 * (M mod (3600 * U) / (60 * U))
             + M mod (60 * U) / U) with (M / U) by lia.
    split.
    { rewrite Zdiv_Qdiv. apply Qfloor_comp. now rewrite Hvalue. }
    rewrite Hvalue. split.
    + setoid_replace (1000 * (inject_Z M / inject_Z U) - 1)%Q
        with (inject_Z (1000 * M - U) / inject_Z U)%Q.
      * apply Qle_shift_div_r; [exact HUpos|].
        rewrite <- inject_Z_mult, <- Zle_Qle. lia.
      * unfold Zminus. rewrite inject_Z_plus, inject_Z_opp, inject_Z_mult.
        field. exact HUq.
    + setoid_replace (1000 * (inject_Z M / inject_Z U) + 1)%Q
        with (inject_Z (1000 * M + U) / inject_Z U)%Q.
      * apply Qle_shift_div_l; [exact HUpos|].
        rewrite <- inject_Z_mult, <- Zle_Qle. lia.
      * rewrite inject_Z_plus, inject_Z_mult. field. exact HUq.
Qed.

Lemma time_code_within_a_millisecond_witness :
  exists h m sec ms : Z,
    formatTime (of_ratio 7323 2) =
      Spec.two_digits h ++ ":" ++ Spec.two_digits m ++ ":" ++
      Spec.two_digits sec ++ "," ++ Spec.three_digits ms
    /\ 3600 * h + 60 * m + sec = 3661.
Proof.
  destruct (time_code_within_a_millisecond (of_ratio 7323 2)
              eq_refl eq_refl eq_refl eq_refl)
    as (h & m & sec & ms & Hcode & _ & _ & _ & _ & Hsum & _).
  exists h, m, sec, ms. split; [exact Hcode | exact Hsum].
Defined.

(** X3. From 0 up to a hundred hours, the label of an entry is its whole
    minutes, without padding, a colon, and two digits for the remainder of its
    start by 60 rounded to the nearest integer, the larger one at equal
    distance: the seconds range from 00 to 60, and the minutes are not raised
    when the seconds read 60. *)
Theorem label_minutes_and_seconds (entry : TranscriptEntry) :
  valid (start entry) = true -> is_finite (start entry) = true ->
  leb (of_Z 0) (start entry) = true ->
  ltb (start entry) (of_Z 360000) = true ->
  let v := Spec.value (start entry) in
  let seconds := Qfloor (Spec.Qmod v 60 + (1 # 2)) in
  timestamp_label entry =
    decimal (Z.to_N (Qfloor (v / 60))) ++ ":" ++ Spec.two_digits seconds
  /\ 0 <= seconds <= 60.
Proof.
  unfold timestamp_label. destruct (start entry) as [sx | sx | | sx m e];
    try discriminate; intros Hv Hfin Hpos Hlt.
  - destruct sx; vm_compute; repeat split; discriminate.
  - destruct sx; [discriminate|]. cbv zeta.
    destruct (below_hundred_hours m e Hv Hlt) as [He HM].
    assert (He0 : e <= 0) by lia.
    pose proof (pow2_pos (- e) ltac:(lia)) as HU.
    rewrite (Qfloor_rounded_rem m e He0).
    change 60%Q with (inject_Z 60).
    rewrite (Qfloor_div_value m e He0 60) by lia.
    rewrite (floor_div_sixty m e Hv He0), (toFixed0_rem_sixty m e Hv He0).
    set (U := 2 ^ (- e)) in *. set (M := Z.pos m) in *.
    pose proof (Z.mod_pos_bound M (60 * U) ltac:(lia)) as HR.
    set (R := M mod (60 * U)) in *.
    assert (Hn : 0 <= (2 * R + U) / (2 * U) <= 60).
    { split; [apply Z.div_pos; lia|].
      assert ((2 * R + U) / (2 * U) < 61); [|lia].
      apply Z.div_lt_upper_bound; lia. }
    assert (Hk : 0 <= M / (60 * U) < 6000).
    { split; [apply Z.div_pos; lia|]. apply Z.div_lt_upper_bound; lia. }
    rewrite minutes_printed, seconds_printed by lia.
    split; [reflexivity | exact Hn].
Qed.

Lemma label_minutes_and_seconds_witness :
  timestamp_label entry_at_65 = "1:05".
Proof.
  destruct (label_minutes_and_seconds entry_at_65
              eq_refl eq_refl eq_refl eq_refl) as [H _].
  rewrite H. vm_compute. reflexivity.
Defined.

End CodecFacts.

Module DurationFacts.

Import JSNumber JSString JSMath Rounding Transcript Studio StringFacts.
Import NumberFacts FieldFacts Notions Examples.

Lemma last_entry_app (entries : list TranscriptEntry)
    (e : TranscriptEntry) :
  last_entry (entries ++ [e]) = Some e.
Proof.
  unfold last_entry. rewrite length_app. cbn [List.length].
  replace (List.length entries + 1 - 1)%nat with (List.length entries)
    by lia.
  rewrite nth_error_app2 by lia. now rewrite Nat.sub_diag.
Qed.

Lemma one_thousandth :
  of_ratio 1 1000 = S754_finite false 4611686018427388 (-62).
Proof.
  vm_compute. reflexivity.
Qed.

(** A Number of at least a thousandth is positive and finite or infinite,
    with an exponent of -62 at least. *)
Lemma above_one_thousandth (x : number) :
  leb (of_ratio 1 1000) x = true ->
  x = S754_infinity false
  \/ exists m e, x = S754_finite false m e /\ -62 <= e.
Proof.
  rewrite one_thousandth. unfold leb, SFleb, SFcompare.
  destruct x as [sx | [|] | | [|] m e]; try discriminate.
  - now left.
  - intros H. right. exists m, e. split; [reflexivity|].
    destruct (Z.compare_spec (-62) e); try discriminate; lia.
Qed.

Lemma minutes_truthy (k : Z) :
  1 <= k < 6001 -> JSMath.truthy (of_Z k) = true.
Proof.
  intros Hk.
  assert (H : forallb (fun k => (k =? 0) || JSMath.truthy (of_Z k))
                      (below (Z.to_nat 6001)) = true)
    by (vm_compute; reflexivity).
  rewrite forallb_forall in H.
  specialize (H k (in_below (Z.to_nat 6001) k ltac:(lia))).
  apply orb_true_iff in H. destruct H as [H | H]; [|exact H].
  apply Z.eqb_eq in H. lia.
Qed.

Lemma Qceiling_div_value (m : positive) (e : Z) (c : Z) :
  e <= 0 -> 0 < c ->
  Qceiling (Spec.value (S754_finite false m e) / inject_Z c) =
  - (- Z.pos m / (c * 2 ^ (- e))).
Proof.
  intros He Hc. unfold Qceiling. f_equal.
  rewrite Zdiv_Qdiv. apply Qfloor_comp.
  rewrite value_units by assumption.
  rewrite inject_Z_opp, inject_Z_mult. field. split.
  - apply inject_pos_nonzero. apply pow2_pos. lia.
  - now apply inject_pos_nonzero.
Qed.

(** X22. The "Duration" card and the heading count minutes from the start of
    the last entry alone, whatever the entries before it and whatever its own
    duration: for a start of zero, or from a thousandth of a second up to a
    hundred hours, the number is the start divided by 60 and rounded up to an
    integer, exactly, and the card reads that number and " min". Without
    entries the number is 0. *)
Theorem duration_is_last_start_in_minutes
    (entries : list TranscriptEntry) (e : TranscriptEntry) :
  valid (start e) = true ->
  start e = pos_zero \/ start e = neg_zero
  \/ (leb (of_ratio 1 1000) (start e) = true
      /\ ltb (start e) (of_Z 360000) = true) ->
  let minutes := Qceiling (Spec.value (start e) / 60) in
  duration_minutes (entries ++ [e]) = of_Z minutes
  /\ duration_card (entries ++ [e]) = decimal (Z.to_N minutes) ++ " min"
  /\ 0 <= minutes <= 6000
  /\ duration_minutes [] = of_Z 0.
Proof.
  intros Hv Hs minutes. subst minutes.
  unfold duration_card, duration_minutes. rewrite last_entry_app.
  destruct Hs as [Hz | [Hz | [Hlo Hhi]]].
  - rewrite Hz. vm_compute. repeat split; discriminate.
  - rewrite Hz. vm_compute. repeat split; discriminate.
  - destruct (above_one_thousandth _ Hlo) as [Hinf | (m & ex & Hx & Hex)];
      rewrite ?Hinf, ?Hx in *; [discriminate Hhi|].
    destruct (below_hundred_hours m ex Hv Hhi) as [He HM].
    assert (He0 : ex <= 0) by lia.
    pose proof (pow2_pos (- ex) ltac:(lia)) as HU.
    change 60%Q with (inject_Z 60).
    rewrite (Qceiling_div_value m ex 60 He0) by lia.
    rewrite sixty.
    rewrite (ceil_div_integer m ex (120 * 2 ^ 46) (-47) 60 5);
      try assumption; try reflexivity; try lia.
    set (U := 2 ^ (- ex)) in *. set (M := Z.pos m) in *.
    assert (Hk : 1 <= - (- M / (60 * U)) <= 6000).
    { assert (H1 : - M / (60 * U) < 0)
        by (apply Z.div_lt_upper_bound; lia).
      assert (H2 : -6000 <= - M / (60 * U))
        by (apply Z.div_le_lower_bound; lia).
      lia. }
    rewrite minutes_truthy by lia.
    rewrite minutes_printed by lia.
    repeat split; lia.
Qed.

Lemma duration_is_last_start_in_minutes_witness :
  duration_card [entry_at_zero; entry_at_119_7] = "2 min"
  /\ duration_card [entry_at_65; entry_at_zero] = "0 min".
Proof.
  split.
  - destruct (duration_is_last_start_in_minutes [entry_at_zero]
                entry_at_119_7 eq_refl
                (or_intror (or_intror (conj eq_refl eq_refl))))
      as (_ & Hcard & _).
    cbn [app] in Hcard. rewrite Hcard. vm_compute. reflexivity.
  - destruct (duration_is_last_start_in_minutes [entry_at_65]
                entry_at_zero eq_refl (or_introl eq_refl))
      as (_ & Hcard & _).
    cbn [app] in Hcard. rewrite Hcard. vm_compute. reflexivity.
Defined.

End DurationFacts.

Module StudioFacts.

Import JSNumber JSString JSPromise JSText Transcript Studio Notions.
Import StringFacts TextFacts Examples.

Lemma total_words_from (entries : list TranscriptEntry) :
  forall acc,
    fold_left
      (fun acc entry =>
         (acc + List.length (split " "%char (text entry)))%nat)
      entries acc =
    (acc + List.length
             (List.concat (map (split " "%char) (map text entries))))%nat.
Proof.
  induction entries as [|e entries IH]; intros acc; simpl.
  - lia.
  - rewrite IH, length_app. lia.
Qed.

Lemma pieces_at_least (c : ascii) (parts : list string) :
  (List.length parts <=
   List.length (List.concat (map (split c) parts)))%nat.
Proof.
  induction parts as [|p parts IH]; simpl; [lia|].
  rewrite length_app. pose proof (split_nonempty c p) as Hne.
  destruct (split c p); [congruence | simpl; lia].
Qed.

(** X4. The "Total Words" card counts the pieces of the texts between single
    spaces: every entry counts for one word at least, an empty text too, and
    for a document with entries the count is the number of pieces of the
    clipboard text. *)
Theorem total_words_of_clipboard (st : State) (data : TranscriptData) :
  transcriptData st = Some data ->
  transcript data <> [] ->
  exists clip,
    copyToClipboard st = Some clip
    /\ total_words (transcript data) =
       List.length (split " "%char clip)
    /\ (List.length (transcript data) <= total_words (transcript data))%nat.
Proof.
  intros Hd Hne. unfold copyToClipboard. rewrite Hd.
  eexists. split; [reflexivity|].
  unfold total_words. rewrite total_words_from. simpl Nat.add. split.
  - change " " with (String " "%char "").
    rewrite split_join; [reflexivity|].
    destruct (transcript data); [congruence | discriminate].
  - rewrite <- (length_map text (transcript data)) at 1.
    apply pieces_at_least.
Qed.

Lemma total_words_of_clipboard_witness :
  exists clip,
    copyToClipboard hi_there_state = Some clip
    /\ total_words (transcript hi_there) =
       List.length (split " "%char clip)
    /\ (2 <= total_words (transcript hi_there))%nat.
Proof.
  exact (total_words_of_clipboard hi_there_state hi_there eq_refl
           ltac:(discriminate)).
Defined.

(** X5. The plain export without timestamps of captions that hold no line feed
    splits, at the line feeds, into the captions' texts again. *)
Theorem plain_export_lines (st : State) (data : TranscriptData) :
  transcriptData st = Some data ->
  includeTimestamps st = false ->
  transcript data <> [] ->
  (forall e, In e (transcript data) -> occurs line_feed (text e) = false) ->
  exists file,
    downloadAsFile st txt = Some file
    /\ split line_feed (content file) = map text (transcript data).
Proof.
  intros Hd Hts Hne Hfree. unfold downloadAsFile. rewrite Hd.
  eexists. split; [reflexivity|]. cbn [content file_content]. rewrite Hts.
  apply split_join_without.
  - destruct (transcript data); [congruence | discriminate].
  - intros p Hp. apply in_map_iff in Hp. destruct Hp as (e & <- & He).
    now apply Hfree.
Qed.

Lemma plain_export_lines_witness :
  exists file,
    downloadAsFile hi_there_state txt = Some file
    /\ split line_feed (content file) = ["hi"; "there"].
Proof.
  apply (plain_export_lines hi_there_state hi_there eq_refl eq_refl).
  - discriminate.
  - intros e [<- | [<- | []]]; reflexivity.
Defined.

End StudioFacts.

Module SummaryFacts.

Import JSNumber JSString JSPromise Transcript Studio Notions Examples.

(** X7. A request for a summary that fails, in transit or while its body is
    read, leaves the summary stored before where it was and stores one
    message; unless the message is empty the card shows it, with "Try Again",
    in place of that summary. The loading flag is lowered. *)
Theorem failed_summary_keeps_earlier
    (api : string -> Settled (Response SummaryData)) (videoId : string)
    (st : State) :
  Spec.delivered (api (summary_url videoId)) = None ->
  let st' := fetchSummary api videoId st in
  summaryData st' = summaryData st
  /\ isSummaryLoading st' = false
  /\ exists msg,
       summaryError st' = Some msg
       /\ (msg <> "" -> summary_panel st' = PanelError msg).
Proof.
  intros Hnone st'. subst st'. unfold fetchSummary, fetchSummary_settle.
  unfold Spec.delivered in Hnone.
  destruct (api (summary_url videoId)) as [err | [code [err | body]]];
    cbn in Hnone |- *; try discriminate;
    (split; [reflexivity|]; split; [reflexivity|];
     eexists; split; [reflexivity|]; intros Hm;
     unfold summary_panel; cbn;
     match goal with
     | |- context [message_of ?f ?e] =>
         destruct (message_of f e); [congruence | reflexivity]
     end).
Qed.

(** The state of [summary_ok] stored, then a request that fails. *)
Lemma failed_summary_keeps_earlier_witness :
  let st := setSummaryData (Some a_summary) entry_at_65_state in
  let st' := fetchSummary (fun _ => summary_down) "v" st in
  summaryData st' = Some a_summary
  /\ summary_panel st' = PanelError "Failed to fetch".
Proof.
  destruct (failed_summary_keeps_earlier (fun _ => summary_down) "v"
              (setSummaryData (Some a_summary) entry_at_65_state) eq_refl)
    as (Hdata & _ & msg & Hmsg & Hpanel).
  split; [exact Hdata|].
  injection Hmsg as <-. apply Hpanel. discriminate.
Defined.

(** The card of a state that is neither loading nor in error, by the
    summary stored. *)
Lemma marked_match {A : Type} (e : option string) (x y : A) :
  match e with
  | Some "transcript_too_long" => x
  | _ => y
  end =
  match e with
  | Some s => if String.eqb s "transcript_too_long" then x else y
  | None => y
  end.
Proof.
  destruct e as [e|]; [|reflexivity].
  destruct (String.eqb_spec e "transcript_too_long") as [->|Hne];
    [reflexivity|].
  repeat (destruct e as [|[[|] [|] [|] [|] [|] [|] [|] [|]] e];
          try reflexivity; try congruence).
Qed.

Lemma panel_of_summary (st : State) (d : SummaryData) :
  isSummaryLoading st = false -> summaryError st = None ->
  summaryData st = Some d ->
  summary_panel st =
  match summary_error d with
  | Some "transcript_too_long" => PanelUpgrade (message d)
  | _ =>
      match summary d with
      | Some (String _ _ as s) => PanelSummary s
      | _ => PanelPrompt
      end
  end.
Proof.
  intros H1 H2 H3. unfold summary_panel. rewrite H1, H2, H3. reflexivity.
Qed.

(** X8. A request for a summary that delivers a body stores it and clears the
    message of an earlier failure, so that the card shows neither the spinner
    nor an error; it shows the summary delivered if that is not empty, unless
    the body is marked "transcript_too_long", and the heading then drops its
    "Generate Summary" button. What the page shows around the card does not
    change. *)
Theorem delivered_summary_replaces
    (api : string -> Settled (Response SummaryData)) (videoId : string)
    (st : State) (d : SummaryData) :
  Spec.delivered (api (summary_url videoId)) = Some d ->
  let st' := fetchSummary api videoId st in
  summaryData st' = Some d
  /\ summaryError st' = None
  /\ isSummaryLoading st' = false
  /\ summary_panel st' <> PanelLoading
  /\ (forall msg, summary_panel st' <> PanelError msg)
  /\ (forall s, summary d = Some s -> s <> "" ->
        summary_error d <> Some "transcript_too_long" ->
        summary_panel st' = PanelSummary s)
  /\ (forall s, summary d = Some s -> s <> "" ->
        generate_button st' = false)
  /\ (forall data panel, render st = Studio data panel ->
        render st' = Studio data (summary_panel st')).
Proof.
  intros Hsome st'.
  assert (Hst : st' = setIsSummaryLoading false
                        (setSummaryData (Some d) (fetchSummary_begin st))).
  { subst st'. unfold fetchSummary, fetchSummary_settle.
    unfold Spec.delivered in Hsome.
    destruct (api (summary_url videoId)) as [err | [code [err | body]]];
      cbn in Hsome |- *; try discriminate.
    now injection Hsome as ->. }
  clearbody st'. subst st'.
  set (st' := setIsSummaryLoading false _).
  pose proof (panel_of_summary st' d eq_refl eq_refl eq_refl) as Hpanel.
  rewrite marked_match in Hpanel.
  split; [reflexivity|]. split; [reflexivity|]. split; [reflexivity|].
  split; [|split; [|split; [|split]]].
  - rewrite Hpanel.
    destruct (summary_error d) as [mark|];
      [destruct (String.eqb mark "transcript_too_long")|];
      try discriminate; destruct (summary d) as [[|c s]|]; discriminate.
  - intros msg. rewrite Hpanel.
    destruct (summary_error d) as [mark|];
      [destruct (String.eqb mark "transcript_too_long")|];
      try discriminate; destruct (summary d) as [[|c s]|]; discriminate.
  - intros s Hs Hne Hmark. rewrite Hpanel, Hs.
    destruct (summary_error d) as [e|].
    + destruct (String.eqb_spec e "transcript_too_long") as [Heq|_];
        [congruence|]. destruct s; [congruence | reflexivity].
    + destruct s; [congruence | reflexivity].
  - intros s Hs Hne. unfold generate_button. subst st'. cbn. rewrite Hs.
    destruct s; [congruence | reflexivity].
  - intros data panel Hrender. unfold render in *. cbn.
    destruct (isLoading st); [discriminate|].
    destruct (error st) as [[|c m]|]; try discriminate;
      destruct (transcriptData st); try discriminate;
      now injection Hrender as -> _.
Qed.

Lemma delivered_summary_replaces_witness :
  let st := setSummaryError (Some "Failed to fetch") entry_at_65_state in
  let st' := fetchSummary (fun _ => summary_ok) "v" st in
  summaryError st' = None
  /\ summary_panel st' = PanelSummary "A talk."
  /\ render st' = Studio entry_at_65_data (PanelSummary "A talk.").
Proof.
  destruct (delivered_summary_replaces (fun _ => summary_ok) "v"
              (setSummaryError (Some "Failed to fetch") entry_at_65_state)
              a_summary eq_refl)
    as (_ & Herr & _ & _ & _ & Hshow & _ & Hpage).
  assert (Hpanel := Hshow "A talk." eq_refl ltac:(discriminate)
                      ltac:(discriminate)).
  split; [exact Herr|]. split; [exact Hpanel|].
  rewrite <- Hpanel.
  exact (Hpage entry_at_65_data (PanelError "Failed to fetch") eq_refl).
Defined.

(** X6. After mounting, the page shows the studio only if the address names
    a video and both requests delivered their bodies: the transcript shown
    is then the body of the transcript request, and the summary card the
    one that the body of the summary request gives. Conversely, when the
    address names a video and the requests deliver a transcript and a
    summary of the shapes that the page declares, the studio is shown with
    them. *)
Theorem studio_with_both_bodies (videoId : option string)
    (transcript_first : bool)
    (t : Settled (Response TranscriptData))
    (s : Settled (Response SummaryData)) :
  (forall data panel,
     render (onMount videoId transcript_first t s initial) =
       Studio data panel ->
     truthy videoId = true
     /\ Spec.delivered t = Some data
     /\ exists sd, Spec.delivered s = Some sd
          /\ panel = summary_panel (setSummaryData (Some sd) initial))
  /\ (forall data sd,
        truthy videoId = true ->
        Spec.delivered t = Some data ->
        Spec.delivered s = Some sd ->
        render (onMount videoId transcript_first t s initial) =
          Studio data (summary_panel (setSummaryData (Some sd) initial))).
Proof.
  unfold onMount, fetchData, Spec.delivered. split.
  - intros data panel.
    destruct videoId as [[|c v]|]; try discriminate;
      destruct t as [et | [ts [ejt | td]]], s as [es | [ss [ejs | sd]]];
      cbn; unfold render; cbn;
      try match goal with
          | |- context [message_of ?f ?e] => destruct (message_of f e)
          end;
      try discriminate.
    intros H. injection H as -> <-. repeat split. now exists sd.
  - intros data sd Hv Ht Hs.
    destruct videoId as [[|c v]|]; try discriminate.
    destruct t as [et | [ts [ejt | td]]]; try discriminate.
    destruct s as [es | [ss [ejs | sd']]]; try discriminate.
    cbn in Ht, Hs. injection Ht as ->. injection Hs as ->. reflexivity.
Qed.

End SummaryFacts.

Module RouteFacts.

Import JSPromise Proxy Notions Examples Samples.

Lemma given_some (param : option string) :
  given param = true -> exists value, param = Some value /\ value <> "".
Proof.
  destruct param as [[|c v]|]; try discriminate.
  intros _. eexists. split; [reflexivity | discriminate].
Qed.

(** A handler by cases: the parameter, the request, the status, the
    body. *)
Lemma GET_cases (route : Route) (env : option string)
    (param : option string) (backend : string -> Settled BackendResponse) :
  let r := GET route env param backend in
  (given param = false /\ r = answer_400 route)
  \/ exists value, param = Some value /\ value <> "" /\
     ((exists err, backend (request_url route env value) = Rejected err
                   /\ r = answer_500 route)
      \/ exists response,
           backend (request_url route env value) = Fulfilled response /\
           ((ok response = true /\
             ((exists data, json response = Fulfilled data /\
                 r = {| response_status := 200;
                        response_body := reparse data |})
              \/ (exists err, json response = Rejected err)
                 /\ r = answer_500 route))
            \/ (ok response = false /\
                (((exists err, json response = Rejected err)
                  \/ json response = Fulfilled JNull)
                 /\ r = answer_500 route
                 \/ exists body,
                      json response = Fulfilled body /\ body <> JNull /\
                      ((300 <= status response <= 599
                        /\ status response <> 304
                        /\ r = {| response_status := status response;
                                  response_body :=
                                    error_body
                                      (reparse
                                         (or_else (Spec.detail_field body)
                                            (fallback_message route))) |})
                       \/ ((status response < 200 \/ 599 < status response
                            \/ status response = 304)
                           /\ r = answer_500 route)))))).
Proof.
  intros r. subst r. unfold GET, request_url.
  destruct param as [[|c v]|]; [left; now split | | left; now split].
  right. exists (String c v). split; [reflexivity|].
  split; [discriminate|].
  destruct (backend _) as [err | response]; cbn [await].
  - left. now exists err.
  - right. exists response. split; [reflexivity|].
    destruct (ok response) eqn:Hok; cbn [negb].
    + left. split; [reflexivity|].
      destruct (json response) as [err | data]; cbn [await].
      * right. split; [now exists err | reflexivity].
      * left. now exists data.
    + right. split; [reflexivity|].
      destruct (json response) as [err | body]; cbn [await].
      * left. split; [left; now exists err | reflexivity].
      * assert (Hnull : body = JNull
                \/ (body <> JNull
                    /\ get_detail body =
                       Fulfilled (Spec.detail_field body))).
        { destruct body; [left; reflexivity | right ..];
            (split; [discriminate | reflexivity]). }
        destruct Hnull as [-> | [Hb Hdetail]].
        { left. split; [now right | reflexivity]. }
        right. exists body. split; [reflexivity|]. split; [exact Hb|].
        rewrite Hdetail. cbn [await].
        pose proof (ProxyFacts.NextResponse_json_failed
                      (error_body (or_else (Spec.detail_field body)
                                     (fallback_message route)))
                      (status response) Hok) as Hjson.
        pose proof (ProxyFacts.accepted_status (status response) Hok)
          as Hstatus.
        destruct ((300 <=? status response) && (status response <=? 599)
                  && negb (status response =? 304)).
        -- left. rewrite Hjson. split; [apply Hstatus|].
           split; [apply Hstatus | reflexivity].
        -- right. destruct Hjson as [err Hjson]. rewrite Hjson.
           split; [exact Hstatus | reflexivity].
Qed.

Lemma routes_messages (route : Route) :
  In route routes ->
  missing_message route <> "" /\ fallback_message route <> ""
  /\ catch_message route <> "".
Proof.
  intros [<- | [<- | [<- | []]]]; repeat split; discriminate.
Qed.

Lemma success_status_ok {T : Type} (response : Response T) :
  success_status (status response) = ok response.
Proof.
  reflexivity.
Qed.

(** A plain value is sent as it is. *)
Lemma reparse_plain (v : Json) : plain v = true -> reparse v = v.
Proof.
  induction v using Json_induction;
    cbn [plain reparse]; intros Hplain; try reflexivity.
  - destruct n as [[|] | s | | s m e]; try discriminate; reflexivity.
  - f_equal. induction H as [|w rest Hw _ IH]; [reflexivity|].
    cbn [forallb] in Hplain. apply andb_true_iff in Hplain.
    cbn [map]. f_equal; [apply Hw | apply IH]; apply Hplain.
  - f_equal. induction H as [|[k w] rest Hw _ IH]; [reflexivity|].
    cbn [forallb] in Hplain. apply andb_true_iff in Hplain.
    cbn [map fst snd]. f_equal; [f_equal; apply Hw | apply IH];
      apply Hplain.
Qed.

(** What sending does to a truthy value: it stays truthy, unless it is an
    infinite Number, which is sent as [null]. *)
Lemma reparse_truthy (v : Json) :
  truthy (Some v) = true ->
  truthy (Some (reparse v)) = true
  \/ (reparse v = JNull
      /\ exists n, v = JNumber n /\ JSNumber.is_finite n = false).
Proof.
  destruct v as [| b | n | s | items | members]; cbn; intros Hv;
    try (left; assumption); try (left; reflexivity).
  destruct n as [sz | si | | sn m e]; try discriminate.
  - right. split; [reflexivity|]. eexists. split; reflexivity.
  - left. reflexivity.
Qed.

(** X9. A route answers 200 with a body exactly when its parameter is given
    and the backend delivered a body with a status from 200 to 299, of
    which the route's body is the JSON: whichever of these statuses the
    backend chose, the route's is 200, and a body without infinite Numbers
    and negative zeros is passed on as it is, where a Number [Infinity] is
    passed on as [null]. *)
Theorem success_answer_iff (route : Route) (env : option string)
    (param : option string) (backend : string -> Settled BackendResponse)
    (data : Json) :
  (GET route env param backend =
     {| response_status := 200; response_body := data |}
   <->
   exists value response body,
     param = Some value /\ value <> ""
     /\ backend (request_url route env value) = Fulfilled response
     /\ ok response = true
     /\ json response = Fulfilled body
     /\ data = reparse body)
  /\ (plain data = true -> reparse data = data)
  /\ GET transcript_route None (Some "u") backend_huge_number =
     {| response_status := 200;
        response_body := JObject [("duration", JNull)] |}.
Proof.
  split; [|split; [apply reparse_plain | reflexivity]]. split.
  - intros H.
    destruct (GET_cases route env param backend)
      as [[_ Hr] | (value & Hp & Hv & [(err & _ & Hr) |
           (response & Hb &
            [[Hok [(d & Hj & Hr) | [_ Hr]]] |
             [Hok [[_ Hr] | (body & Hj & _ &
                             [(Hrange & _ & Hr) | (_ & Hr)])]]])])];
      rewrite Hr in H; try discriminate.
    + injection H as <-. now exists value, response, d.
    + injection H as Hs _. lia.
  - intros (value & response & body & -> & Hv & Hb & Hok & Hj & ->).
    unfold GET. destruct value as [|c v]; [congruence|].
    unfold request_url in Hb. rewrite Hb. cbn [await]. rewrite Hok.
    cbn [negb]. rewrite Hj. reflexivity.
Qed.

(** X10. Every other answer of the three routes is an error object: its
    status is outside 200 to 299, being 400, 500 or the status of a backend
    response from 300 to 599 other than 304, and its body is [{ error }].
    The [error] is truthy, with one exception: a [detail] of the backend
    that is an infinite Number is sent as [null]. *)
Theorem failure_answer_shape (route : Route) (env : option string)
    (param : option string) (backend : string -> Settled BackendResponse) :
  In route routes ->
  let r := GET route env param backend in
  response_status r <> 200 ->
  success_status (response_status r) = false
  /\ (exists v,
        response_body r = error_body v
        /\ (truthy (Some v) = true
            \/ (v = JNull
                /\ exists value response body n,
                     param = Some value
                     /\ backend (request_url route env value) =
                        Fulfilled response
                     /\ json response = Fulfilled body
                     /\ Spec.detail_field body = Some (JNumber n)
                     /\ JSNumber.is_finite n = false)))
  /\ (response_status r = 400 \/ response_status r = 500
      \/ exists value response,
           param = Some value
           /\ backend (request_url route env value) = Fulfilled response
           /\ response_status r = status response
           /\ 300 <= status response <= 599
           /\ status response <> 304).
Proof.
  intros Hroute r Hnot.
  destruct (routes_messages route Hroute) as (Hm & Hf & Hc).
  assert (Hstr : forall msg, msg <> "" -> truthy (Some (JString msg)) = true)
    by (intros [|c m]; [congruence | reflexivity]).
  destruct (GET_cases route env param backend)
    as [[_ Hr] | (value & Hp & Hv & [(err & _ & Hr) |
         (response & Hb &
          [[Hok [(d & Hj & Hr) | [_ Hr]]] |
           [Hok [[_ Hr] | (body & Hj & _ &
                           [(Hrange & H304 & Hr) | (_ & Hr)])]]])])];
    fold r in Hr; rewrite Hr in Hnot |- *; cbn in Hnot |- *.
  - split; [reflexivity|]. split; [|now left].
    eexists. split; [reflexivity | left; now apply Hstr].
  - split; [reflexivity|]. split; [|now right; left].
    eexists. split; [reflexivity | left; now apply Hstr].
  - congruence.
  - split; [reflexivity|]. split; [|now right; left].
    eexists. split; [reflexivity | left; now apply Hstr].
  - split; [reflexivity|]. split; [|now right; left].
    eexists. split; [reflexivity | left; now apply Hstr].
  - split; [now rewrite success_status_ok|]. split.
    + eexists. split; [reflexivity|].
      rewrite ProxyFacts.or_else_spec.
      destruct (Spec.detail_field body) as [detail|] eqn:Hd;
        [destruct (truthy (Some detail)) eqn:Ht|];
        try (left; now apply Hstr).
      destruct (reparse_truthy detail Ht) as [Hsent | (Hnull & n & Hn & Hfin)];
        [now left | right].
      split; [exact Hnull|]. exists value, response, body, n.
      subst detail. repeat split; assumption.
    + right; right. exists value, response. repeat split; try assumption; lia.
  - split; [reflexivity|]. split; [|now right; left].
    eexists. split; [reflexivity | left; now apply Hstr].
Qed.

Lemma failure_answer_shape_witness :
  success_status
    (response_status (GET summary_route None (Some "u")
                          backend_422_empty_detail)) = false
  /\ exists v,
       response_body (GET summary_route None (Some "u")
                          backend_422_empty_detail) = error_body v
       /\ truthy (Some v) = true.
Proof.
  destruct (failure_answer_shape summary_route None (Some "u")
              backend_422_empty_detail
              ltac:(right; left; reflexivity) ltac:(discriminate))
    as (Hs & (v & Hbody & Hv) & _).
  split; [exact Hs|]. exists v. split; [exact Hbody|].
  destruct Hv as [Hv | [Hnull _]]; [exact Hv|].
  rewrite Hnull in Hbody. discriminate Hbody.
Defined.

(** X11. A route makes at most one request, to the address built from the
    backend's base, the route's path and the parameter as it came, and nothing
    else of the backend matters to its answer; without the parameter it makes
    none. *)
Theorem one_request (route : Route) (env : option string)
    (param : option string)
    (backend backend' : string -> Settled BackendResponse) :
  (forall value, param = Some value -> value <> "" ->
     backend (request_url route env value) =
     backend' (request_url route env value)) ->
  GET route env param backend = GET route env param backend'.
Proof.
  intros Hsame. unfold GET.
  destruct param as [[|c v]|]; try reflexivity.
  unfold request_url in Hsame.
  now rewrite (Hsame (String c v) eq_refl ltac:(discriminate)).
Qed.

Lemma one_request_witness :
  GET quiz_route None (Some "u") backend_one_address =
  GET quiz_route None (Some "u") backend_404_detail.
Proof.
  apply one_request. intros value Hvalue _.
  injection Hvalue as <-. reflexivity.
Defined.

(** The answer of a route depends on the backend at one address only. *)
Lemma GET_at (route : Route) (env : option string) (value : string)
    (backend backend' : string -> Settled BackendResponse) :
  backend (request_url route env value) =
  backend' (request_url route env value) ->
  GET route env (Some value) backend = GET route env (Some value) backend'.
Proof.
  intros Hsame. unfold GET. destruct value as [|c v]; [reflexivity|].
  unfold request_url in Hsame. now rewrite Hsame.
Qed.

(** X12. The summary route takes no notice of [NEXT_PUBLIC_BACKEND_URL]:
    whatever the variable, its answer is the same, and is decided by what
    the backend does at [http://localhost:8000/summary?url=] followed by
    the parameter. The answers of the other two routes are decided at the
    variable's value followed by the route's path and the parameter, when
    the variable is set and not empty, and at [http://localhost:8000]
    followed by them when it is unset or empty; and there the variable
    does change the answer. *)
Theorem summary_route_ignores_env (env env' : option string)
    (param : option string) (base value : string)
    (backend backend' : string -> Settled BackendResponse) :
  GET summary_route env param backend = GET summary_route env' param backend
  /\ (backend ("http://localhost:8000/summary?url=" ++ value) =
      backend' ("http://localhost:8000/summary?url=" ++ value) ->
      GET summary_route env (Some value) backend =
      GET summary_route env (Some value) backend')
  /\ (base <> "" ->
      (backend (base ++ "/transcript?url=" ++ value) =
       backend' (base ++ "/transcript?url=" ++ value) ->
       GET transcript_route (Some base) (Some value) backend =
       GET transcript_route (Some base) (Some value) backend')
      /\ (backend (base ++ "/quiz?url=https://www.youtube.com/watch?v=" ++
                   value) =
          backend' (base ++ "/quiz?url=https://www.youtube.com/watch?v=" ++
                    value) ->
          GET quiz_route (Some base) (Some value) backend =
          GET quiz_route (Some base) (Some value) backend'))
  /\ (env = None \/ env = Some "" ->
      (backend ("http://localhost:8000/transcript?url=" ++ value) =
       backend' ("http://localhost:8000/transcript?url=" ++ value) ->
       GET transcript_route env (Some value) backend =
       GET transcript_route env (Some value) backend')
      /\ (backend ("http://localhost:8000/quiz?url=" ++
                   "https://www.youtube.com/watch?v=" ++ value) =
          backend' ("http://localhost:8000/quiz?url=" ++
                    "https://www.youtube.com/watch?v=" ++ value) ->
          GET quiz_route env (Some value) backend =
          GET quiz_route env (Some value) backend'))
  /\ GET quiz_route (Some "http://backend:8000") (Some "u")
         backend_one_address <>
     GET quiz_route None (Some "u") backend_one_address
  /\ GET transcript_route (Some "http://backend:8000") (Some "u")
         backend_localhost_only <>
     GET transcript_route None (Some "u") backend_localhost_only.
Proof.
  split; [reflexivity|].
  split; [exact (GET_at summary_route env value backend backend')|].
  split; [|split; [|split]].
  - intros Hbase. destruct base as [|c base]; [congruence|]. split.
    + exact (GET_at transcript_route (Some (String c base)) value
               backend backend').
    + exact (GET_at quiz_route (Some (String c base)) value
               backend backend').
  - intros [-> | ->]; split;
      first [ exact (GET_at transcript_route None value backend backend')
            | exact (GET_at quiz_route None value backend backend')
            | exact (GET_at transcript_route (Some "") value
                       backend backend')
            | exact (GET_at quiz_route (Some "") value backend backend') ].
  - cbn. discriminate.
  - cbn. discriminate.
Qed.

End RouteFacts.

Module HomeFacts.

Import JSString JSPromise JSText Proxy Client Home Notions TextFacts.
Import Examples Samples.

(** X13. Submitting an address that is empty or made of white space does
    nothing: no request, no change of state, no navigation. *)
Theorem blank_url_ignored (api : string -> Settled (Response Json))
    (st : State) :
  blank (url st) = true -> handleGetTranscript api st = (st, None).
Proof.
  intros H. apply trim_blank in H. unfold handleGetTranscript.
  now rewrite H.
Qed.

Lemma blank_url_ignored_witness :
  handleGetTranscript (transcript_api None None backend_404_detail)
    home_with_blanks = (home_with_blanks, None).
Proof.
  exact (blank_url_ignored _ home_with_blanks eq_refl).
Defined.

(** The handler on an address that is not blank, by the answer. *)
Lemma handle_answer (api : string -> Settled (Response Json)) (st : State)
    (response : Response Json) :
  blank (url st) = false ->
  api (transcript_url (url st)) = Fulfilled response ->
  handleGetTranscript api st =
  match
    (if negb (ok response) then
       errorData <- json response ;;
       err <- get_property "error" errorData ;;
       message <- to_string (or_else err "Failed to fetch transcript") ;;
       Rejected (ErrorObject message)
     else
       data <- json response ;;
       video_id <- get_property "video_id" data ;;
       id <- template video_id ;;
       Fulfilled ("/transcripts?videoId=" ++ id))
  with
  | Fulfilled target => (home_done st, Some target)
  | Rejected err => (home_failed st (message_of "An error occurred" err), None)
  end.
Proof.
  intros Hb Hapi. unfold handleGetTranscript.
  destruct (trim (url st)) eqn:Ht.
  - apply trim_blank in Ht. congruence.
  - rewrite Hapi. reflexivity.
Qed.

(** An error object with a message, answered with a status that is no
    success, puts that message on the page. *)
Lemma error_answer_shown (api : string -> Settled (Response Json))
    (st : State) (r : NextResponse) (msg : string) :
  blank (url st) = false ->
  api (transcript_url (url st)) = Fulfilled (served r) ->
  success_status (response_status r) = false ->
  response_body r = error_body (JString msg) -> msg <> "" ->
  handleGetTranscript api st = (home_failed st msg, None).
Proof.
  intros Hb Hapi Hs Hbody Hmsg.
  rewrite (handle_answer api st (served r) Hb Hapi).
  unfold ok, served. cbn [status json].
  change ((200 <=? response_status r) && (response_status r <=? 299))
    with (success_status (response_status r)).
  rewrite Hs, Hbody. cbn.
  destruct msg as [|c msg]; [congruence | reflexivity].
Qed.

(** The transcript route in front of a backend that refuses. *)
Lemma refusal_answer (env : option string) (value : string)
    (backend : string -> Settled BackendResponse)
    (response : BackendResponse) :
  value <> "" ->
  backend (request_url transcript_route env value) = Fulfilled response ->
  ok response = false ->
  (300 <= status response <= 599 -> status response <> 304 ->
   forall members detail,
     json response = Fulfilled (JObject members) ->
     member "detail" members = Some (JString detail) -> detail <> "" ->
     GET transcript_route env (Some value) backend =
     {| response_status := status response;
        response_body := error_body (JString detail) |})
  /\ (status response < 200 \/ 599 < status response
      \/ status response = 304 ->
      GET transcript_route env (Some value) backend =
      answer_500 transcript_route).
Proof.
  intros Hv Hreq Hok. unfold GET.
  destruct value as [|c v]; [congruence|].
  unfold request_url in Hreq. rewrite Hreq. cbn [await].
  rewrite Hok. cbn [negb].
  pose proof (ProxyFacts.accepted_status (status response) Hok) as Hstatus.
  split.
  - intros Hrange H304 members detail Hj Hd Hne.
    rewrite Hj. cbn [await get_detail]. rewrite Hd.
    pose proof (ProxyFacts.NextResponse_json_failed
                  (error_body
                     (or_else (Some (JString detail))
                        (fallback_message transcript_route)))
                  (status response) Hok) as Hjson.
    destruct ((300 <=? status response) && (status response <=? 599)
              && negb (status response =? 304)); [|lia].
    rewrite Hjson. destruct detail; [congruence | reflexivity].
  - intros Hout.
    destruct (json response) as [err | body]; cbn [await]; [reflexivity|].
    destruct (get_detail body) as [err | detail]; cbn [await];
      [reflexivity|].
    pose proof (ProxyFacts.NextResponse_json_failed
                  (error_body
                     (or_else detail (fallback_message transcript_route)))
                  (status response) Hok) as Hjson.
    destruct ((300 <=? status response) && (status response <=? 599)
              && negb (status response =? 304)); [lia|].
    destruct Hjson as [err Hjson]. rewrite Hjson. reflexivity.
Qed.

(** X14. What the transcript route reports reaches the user of the home
    page word for word: the message for a missing parameter, the message
    for a backend out of reach, and the [detail] with which the backend
    refused, when that is a string and not empty and the backend's status
    is from 300 to 599 and not 304. With any other status that is no
    success the user reads "Internal server error". Nothing is navigated
    to. *)
Theorem route_error_reaches_user (api : string -> Settled (Response Json))
    (st : State) (env param : option string)
    (backend : string -> Settled BackendResponse) :
  blank (url st) = false ->
  api (transcript_url (url st)) =
    Fulfilled (served (GET transcript_route env param backend)) ->
  let outcome := handleGetTranscript api st in
  (given param = false ->
     outcome = (home_failed st "URL parameter is required", None))
  /\ (forall value err,
        param = Some value -> value <> "" ->
        backend (request_url transcript_route env value) = Rejected err ->
        outcome = (home_failed st "Internal server error", None))
  /\ (forall value response members detail,
        param = Some value -> value <> "" ->
        backend (request_url transcript_route env value) =
          Fulfilled response ->
        ok response = false ->
        300 <= status response <= 599 -> status response <> 304 ->
        json response = Fulfilled (JObject members) ->
        member "detail" members = Some (JString detail) -> detail <> "" ->
        outcome = (home_failed st detail, None))
  /\ (forall value response,
        param = Some value -> value <> "" ->
        backend (request_url transcript_route env value) =
          Fulfilled response ->
        ok response = false ->
        status response < 200 \/ 599 < status response
        \/ status response = 304 ->
        outcome = (home_failed st "Internal server error", None)).
Proof.
  intros Hb Hapi outcome. subst outcome. split; [|split; [|split]].
  - intros Hp. apply (error_answer_shown api st _ _ Hb Hapi).
    + destruct param as [[|c v]|]; try discriminate; reflexivity.
    + destruct param as [[|c v]|]; try discriminate; reflexivity.
    + discriminate.
  - intros value err -> Hv Hreq.
    apply (error_answer_shown api st _ _ Hb Hapi);
      unfold GET; destruct value as [|c v]; try congruence;
      unfold request_url in Hreq; rewrite Hreq;
      try reflexivity; discriminate.
  - intros value response members detail -> Hv Hreq Hok Hrange H304 Hj Hd
      Hne.
    destruct (refusal_answer env value backend response Hv Hreq Hok)
      as [Hr _].
    specialize (Hr Hrange H304 members detail Hj Hd Hne).
    apply (error_answer_shown api st _ _ Hb Hapi);
      [rewrite Hr; exact Hok | rewrite Hr; reflexivity | exact Hne].
  - intros value response -> Hv Hreq Hok Hout.
    destruct (refusal_answer env value backend response Hv Hreq Hok)
      as [_ Hr].
    specialize (Hr Hout).
    apply (error_answer_shown api st _ _ Hb Hapi);
      rewrite ?Hr; try reflexivity; discriminate.
Qed.

Lemma route_error_reaches_user_witness :
  handleGetTranscript (transcript_api None (Some "u") backend_404_detail)
    home_with_url =
  (home_failed home_with_url "No transcript", None)
  /\ handleGetTranscript
       (transcript_api None (Some "u") backend_999_detail) home_with_url =
     (home_failed home_with_url "Internal server error", None).
Proof.
  split.
  - destruct (route_error_reaches_user
                (transcript_api None (Some "u") backend_404_detail)
                home_with_url None (Some "u") backend_404_detail
                eq_refl eq_refl) as (_ & _ & Hdetail & _).
    apply (Hdetail "u"
             {| status := 404;
                json := Fulfilled
                          (JObject [("detail", JString "No transcript")]) |}
             [("detail", JString "No transcript")] "No transcript");
      try reflexivity; try discriminate; cbn; lia.
  - destruct (route_error_reaches_user
                (transcript_api None (Some "u") backend_999_detail)
                home_with_url None (Some "u") backend_999_detail
                eq_refl eq_refl) as (_ & _ & _ & Hout).
    apply (Hout "u"
             {| status := 999;
                json := Fulfilled
                          (JObject [("detail", JString "Blocked")]) |});
      try reflexivity; try discriminate.
    right. left. reflexivity.
Defined.

(** X15. An answer with a success status and an object for a body sends the
    browser to the transcript page of the object's [video_id], put into the
    address as it is; an object without [video_id] sends it to the page of the
    video "undefined". *)
Theorem success_navigates (api : string -> Settled (Response Json))
    (st : State) (response : Response Json)
    (members : list (string * Json)) :
  blank (url st) = false ->
  api (transcript_url (url st)) = Fulfilled response ->
  ok response = true ->
  json response = Fulfilled (JObject members) ->
  (forall id, member "video_id" members = Some (JString id) ->
     handleGetTranscript api st =
       (home_done st, Some ("/transcripts?videoId=" ++ id)))
  /\ (member "video_id" members = None ->
      handleGetTranscript api st =
        (home_done st, Some "/transcripts?videoId=undefined")).
Proof.
  intros Hb Hapi Hok Hj.
  rewrite (handle_answer api st response Hb Hapi), Hok, Hj. cbn.
  split; [intros id H | intros H]; now rewrite H.
Qed.

Lemma success_navigates_witness :
  handleGetTranscript (transcript_api None (Some "u") backend_created)
    home_with_url =
    (home_done home_with_url, Some "/transcripts?videoId=abc")
  /\ handleGetTranscript
       (transcript_api None (Some "u") backend_empty_object)
       home_with_url =
     (home_done home_with_url, Some "/transcripts?videoId=undefined").
Proof.
  split.
  - apply (success_navigates
             (transcript_api None (Some "u") backend_created)
             home_with_url
             (served (GET transcript_route None (Some "u") backend_created))
             [("video_id", JString "abc"); ("transcript", JArray [])]
             eq_refl eq_refl eq_refl eq_refl).
    reflexivity.
  - apply (success_navigates
             (transcript_api None (Some "u") backend_empty_object)
             home_with_url
             (served (GET transcript_route None (Some "u")
                          backend_empty_object))
             [] eq_refl eq_refl eq_refl eq_refl).
    reflexivity.
Defined.

End HomeFacts.

Module LegacyFacts.

Import JSPromise Transcript Notions Examples Samples.

(** X16. The earlier page reads no body of a response whose status is no
    success: it stores nothing, shows the fixed message "Failed to fetch
    transcript" and drops what the route reported. The present page has no
    such test: when both of its requests deliver a body, it stores the
    transcript body whatever the status. *)
Theorem legacy_page_tests_status
    (response : Response TranscriptData) (st : LegacyPage.State) :
  ok response = false ->
  let st' := LegacyPage.fetchTranscript (Fulfilled response) st in
  LegacyPage.transcriptData st' = LegacyPage.transcriptData st
  /\ LegacyPage.error st' = Some "Failed to fetch transcript"
  /\ LegacyPage.render st' = LegacyPage.ErrorScreen "Failed to fetch transcript"
  /\ (forall transcript_first body s sd st0,
        json response = Fulfilled body ->
        Spec.delivered s = Some sd ->
        transcriptData
          (fetchData transcript_first (Fulfilled response) s st0) =
        Some body).
Proof.
  intros Hok st'. subst st'. unfold LegacyPage.fetchTranscript. cbn.
  rewrite Hok. cbn. repeat split.
  intros tf body s sd st0 Hj Hs. unfold fetchData, Spec.delivered in *.
  destruct s as [es | [ss [ejs | sd']]]; try discriminate.
  cbn. rewrite Hj. reflexivity.
Qed.

Lemma legacy_page_tests_status_witness :
  LegacyPage.render
    (LegacyPage.fetchTranscript transcript_404 LegacyPage.initial) =
    LegacyPage.ErrorScreen "Failed to fetch transcript"
  /\ transcriptData (fetchData true transcript_404 summary_ok initial) =
     Some hi_there.
Proof.
  destruct (legacy_page_tests_status
              {| status := 404; json := Fulfilled hi_there |}
              LegacyPage.initial eq_refl) as (_ & _ & Hrender & Hnow).
  split; [exact Hrender|].
  exact (Hnow true hi_there summary_ok a_summary initial eq_refl eq_refl).
Defined.

End LegacyFacts.

Module QuizFacts.

Import JSNumber JSPromise Quiz Notions Samples.

Local Open Scope nat_scope.

Lemma has_next_iff (c : nat) (qs : list QuizQuestion) :
  has_next c qs = true <-> c + 1 < List.length qs.
Proof.
  unfold has_next. rewrite Z.ltb_lt. lia.
Qed.

Lemma count_correct_nil (qs : list QuizQuestion) : count_correct qs [] = 0.
Proof.
  now destruct qs.
Qed.

(** Answering from question [c] on, one answer for each question left. *)
Lemma answers_from (qs : list QuizQuestion) (answers : list nat) :
  forall st,
    questions st = Some qs ->
    answers <> [] ->
    currentQuestion st + List.length answers = List.length qs ->
    exists st',
      fold_left answer answers (Some st) = Some st'
      /\ quizCompleted st' = true
      /\ questions st' = Some qs
      /\ currentQuestion st' = List.length qs - 1
      /\ score st' =
         score st + count_correct (skipn (currentQuestion st) qs) answers
      /\ showQuiz st' = showQuiz st.
Proof.
  induction answers as [|a answers IH]; intros st Hqs Hne Hlen;
    [congruence|].
  cbn [fold_left answer List.length] in *.
  destruct (nth_error qs (currentQuestion st)) as [q|] eqn:Hq;
    [|apply nth_error_None in Hq; lia].
  assert (Hskip : skipn (currentQuestion st) qs =
                  q :: skipn (S (currentQuestion st)) qs).
  { clear - Hq. revert Hq. generalize (currentQuestion st) as c.
    induction qs as [|q' qs IHq]; intros [|c] H; try discriminate.
    - now injection H as ->.
    - cbn [skipn]. now apply IHq. }
  unfold handleNextQuestion, handleAnswerSelect.
  cbn [questions currentQuestion selectedAnswer score showQuiz
       quizCompleted isLoading].
  rewrite Hqs, Hq, Hskip. cbn [count_correct].
  destruct answers as [|a' answers].
  - assert (Hlast : has_next (currentQuestion st) qs = false).
    { destruct (has_next (currentQuestion st) qs) eqn:E; [|reflexivity].
      apply has_next_iff in E. cbn [List.length] in Hlen. lia. }
    rewrite Hlast. cbn [fold_left]. eexists. split; [reflexivity|].
    cbn [questions currentQuestion score quizCompleted count_correct].
    repeat split; try assumption.
    + cbn [List.length] in Hlen. lia.
    + rewrite count_correct_nil.
      destruct (is_correct (Some a) q); lia.
  - assert (Hmore : has_next (currentQuestion st) qs = true).
    { apply has_next_iff. cbn [List.length] in Hlen. lia. }
    rewrite Hmore.
    match goal with
    | |- context [fold_left answer _ (Some ?s)] => set (st1 := s)
    end.
    destruct (IH st1) as (st' & Hrun & Hdone & Hqs' & Hc & Hscore & Hshow).
    + reflexivity.
    + discriminate.
    + subst st1. cbn [currentQuestion List.length] in *. lia.
    + exists st'. split; [exact Hrun|]. repeat split; try assumption.
      rewrite Hscore. subst st1. cbn [currentQuestion score].
      replace (currentQuestion st + 1) with (S (currentQuestion st))
        by lia.
      destruct (is_correct (Some a) q); lia.
Qed.

(** X17. A quiz that has just been loaded, answered question after question
    (an option selected, then the button), ends completed with the last
    question still the current one, and its score is the number of answers
    that are strictly equal to the question's [correctAnswer]. *)
Theorem score_counts_correct_answers (st : State)
    (qs : list QuizQuestion) (answers : list nat) :
  questions st = Some qs ->
  currentQuestion st = 0 -> score st = 0 ->
  answers <> [] ->
  List.length answers = List.length qs ->
  exists st',
    fold_left answer answers (Some st) = Some st'
    /\ quizCompleted st' = true
    /\ currentQuestion st' = List.length qs - 1
    /\ score st' = count_correct qs answers
    /\ (score st' <= List.length qs).
Proof.
  intros Hqs Hc Hs Hne Hlen.
  destruct (answers_from qs answers st Hqs Hne) as
    (st' & Hrun & Hdone & _ & Hcur & Hscore & _); [lia|].
  exists st'. rewrite Hc, Hs in Hscore. cbn [skipn Nat.add] in Hscore.
  repeat split; try assumption. rewrite Hscore.
  clear. revert answers.
  induction qs as [|q qs IH]; intros [|a answers];
    cbn [count_correct List.length]; try lia.
  specialize (IH answers). destruct (is_correct (Some a) q); lia.
Qed.

Lemma score_counts_correct_answers_witness :
  exists st',
    fold_left answer [1; 2] (Some quiz_loaded) = Some st'
    /\ quizCompleted st' = true
    /\ score st' = 1.
Proof.
  destruct (score_counts_correct_answers quiz_loaded two_questions [1; 2]
              eq_refl eq_refl eq_refl ltac:(discriminate) eq_refl)
    as (st' & Hrun & Hdone & _ & Hscore & _).
  exists st'. split; [exact Hrun|]. split; [exact Hdone|].
  rewrite Hscore. reflexivity.
Defined.








Lemma steady_step (s : Session) (ev : Event) :
  steady s ->
  match step s ev with
  | Running s' => steady s'
  | _ => True
  end.
Proof.
  intros [Hload Hdone]. unfold step.
  destruct (render (state s)) as [view|] eqn:Hview; [|trivial].
  destruct ev as [| request | index |].
  - destruct view as [[|] label | | ]; trivial;
      (split; [cbn; lia | exact Hdone]).
  - destruct (pending s) as [|n] eqn:Hp; [trivial|].
    unfold fetchQuiz_settle.
    destruct request as [err | [code [err | [data|]]]]; cbn;
      (split; [discriminate|]); try exact Hdone. discriminate.
  - destruct view as [ | | n total text choices sel next]; trivial.
    destruct (index <? List.length choices); [|trivial].
    split; [exact Hload|]. cbn. intros Hc.
    destruct (Hdone Hc) as (H1 & _ & H3). repeat split; try assumption.
    discriminate.
  - destruct view as [ | | n total text choices sel [label|]]; trivial.
    unfold render in Hview.
    destruct (showQuiz (state s)) eqn:Es; [|discriminate].
    cbn [negb] in Hview.
    destruct (questions (state s)) as [qs|] eqn:Hqs; [|discriminate].
    destruct (quizCompleted (state s)) eqn:Ec; [discriminate|].
    destruct (nth_error qs (currentQuestion (state s))) as [q|] eqn:Hq;
      [|discriminate].
    destruct (selectedAnswer (state s)) as [sel0|] eqn:Hsel;
      [|discriminate].
    unfold handleNextQuestion. rewrite Hqs, Hq.
    destruct (has_next (currentQuestion (state s)) qs).
    + split; [exact Hload|]. cbn. rewrite Ec. discriminate.
    + split; [exact Hload|]. cbn. intros _. rewrite Es, Hsel.
      repeat split; discriminate.
Qed.

Lemma steady_run (events : list Event) :
  forall s s', steady s -> run events s = Running s' -> steady s'.
Proof.
  induction events as [|ev events IH]; intros s s' Hs Hrun; cbn [run] in Hrun.
  - now injection Hrun as <-.
  - pose proof (steady_step s ev Hs) as Hstep.
    destruct (step s ev) as [s1 | | ]; try discriminate.
    now apply (IH s1).
Qed.

Lemma steady_mounted : steady mounted.
Proof.
  split; discriminate.
Qed.

(** X21. The button that starts a quiz is disabled only while a request is on
    its way: whatever the answers, failures included, the loading flag is
    never left raised. *)
Theorem loading_means_request_pending (events : list Event) (s : Session) :
  run events mounted = Running s ->
  isLoading (state s) = true -> 0 < pending s.
Proof.
  intros Hrun. exact (proj1 (steady_run events mounted s steady_mounted Hrun)).
Qed.

Lemma loading_means_request_pending_witness :
  exists s,
    run [ClickFetch] mounted = Running s
    /\ render (state s) = Some (TakeQuiz true "Generating Quiz...")
    /\ 0 < pending s.
Proof.
  eexists. split; [reflexivity|]. split; [reflexivity|].
  apply (loading_means_request_pending [ClickFetch]); reflexivity.
Defined.

(** X19. Taking a completed quiz again does not clear the selection:
    [fetchQuiz] resets the question, the score and the completion, not
    [selectedAnswer]. So the first question of the new round comes up with the
    index of the last answer of the round before selected, and with the button
    to go on already offered. *)
Theorem retake_keeps_selection (events : list Event) (s : Session)
    (request : Settled (Response (option QuizData))) (q : QuizQuestion)
    (rest : list QuizQuestion) :
  run events mounted = Running s ->
  quizCompleted (state s) = true ->
  Spec.delivered request =
    Some (Some {| data_questions := Some (q :: rest) |}) ->
  exists s' index label,
    run [ClickFetch; Settle request] s = Running s'
    /\ selectedAnswer (state s) = Some index
    /\ score (state s') = 0
    /\ render (state s') =
       Some (Asking 1 (S (List.length rest)) (question q) (options q)
               (Some index) (Some label)).
Proof.
  intros Hrun Hdone Hreq.
  destruct (steady_run events mounted s steady_mounted Hrun) as [_ Hs].
  destruct (Hs Hdone) as (Hshow & Hsel & Hqs).
  destruct (selectedAnswer (state s)) as [index|] eqn:Esel; [|congruence].
  destruct (questions (state s)) as [qs|] eqn:Eqs; [|congruence].
  unfold Spec.delivered in Hreq.
  destruct request as [err | [code [err | data]]]; try discriminate.
  cbn in Hreq. injection Hreq as ->.
  assert (Hbegin : step s ClickFetch =
                   Running {| state := fetchQuiz_begin (state s);
                              pending := S (pending s) |}).
  { unfold step, render. now rewrite Hshow, Eqs, Hdone. }
  assert (Hsettle :
    step {| state := fetchQuiz_begin (state s); pending := S (pending s) |}
         (Settle
            (Fulfilled
               {| status := code;
                  json := Fulfilled
                            (Some {| data_questions :=
                                       Some (q :: rest) |}) |}))
    = Running {| state :=
                   fetchQuiz_settle
                     (Fulfilled
                        {| status := code;
                           json := Fulfilled
                                     (Some {| data_questions :=
                                                Some (q :: rest) |}) |})
                     (fetchQuiz_begin (state s));
                 pending := pending s |}).
  { unfold step, render. cbn. now rewrite Hshow, Eqs, Hdone. }
  cbn [run]. rewrite Hbegin, Hsettle.
  eexists. exists index. eexists. split; [reflexivity|].
  split; [reflexivity|]. split; [reflexivity|].
  unfold render. cbn. rewrite Esel. reflexivity.
Qed.

Lemma retake_keeps_selection_witness :
  exists s' label,
    run [ClickFetch; Settle quiz_ok; Select 1; ClickNext; Select 2;
         ClickNext; ClickFetch; Settle quiz_ok] mounted = Running s'
    /\ render (state s') =
       Some (Asking 1 2 "First?" ["a"; "b"; "c"] (Some 2) (Some label)).
Proof.
  destruct (retake_keeps_selection
              [ClickFetch; Settle quiz_ok; Select 1; ClickNext; Select 2;
               ClickNext]
              _ quiz_ok _ _ eq_refl eq_refl eq_refl)
    as (s' & index & label & Hrun & Hsel & _ & Hview).
  exists s', label. split; [exact Hrun|].
  injection Hsel as <-. exact Hview.
Defined.

(** X20. A body other than [null] that is delivered without questions, or
    with an empty list of them, breaks the component, whatever its state
    was and whatever the status of the response: the quiz is switched on,
    rendering throws, and so does every event after. The body [null] does
    not: reading its questions throws inside the [try] block, and the
    component stays as it was, the loading flag cleared. *)
Theorem quiz_without_questions_throws
    (request : Settled (Response (option QuizData))) (st : State) :
  (forall data,
     Spec.delivered request = Some (Some data) ->
     data_questions data = None \/ data_questions data = Some [] ->
     let st' := fetchQuiz_settle request st in
     showQuiz st' = true
     /\ render st' = None
     /\ handleNextQuestion st' = None
     /\ forall n ev, step {| state := st'; pending := n |} ev = Thrown)
  /\ (Spec.delivered request = Some None ->
      fetchQuiz_settle request st = setIsLoading false st).
Proof.
  split.
  - intros data Hreq Hdata st'. subst st'.
    unfold Spec.delivered in Hreq.
    destruct request as [err | [code [err | data']]]; try discriminate.
    cbn in Hreq. injection Hreq as ->.
    unfold fetchQuiz_settle, step, render, handleNextQuestion. cbn.
    destruct Hdata as [-> | ->]; repeat split.
  - intros Hreq. unfold Spec.delivered in Hreq.
    destruct request as [err | [code [err | data']]]; try discriminate.
    cbn in Hreq. injection Hreq as ->. reflexivity.
Qed.

Lemma quiz_without_questions_throws_witness :
  run [ClickFetch; Settle quiz_failed; ClickFetch] mounted = Thrown
  /\ run [ClickFetch; Settle quiz_null] mounted = Running mounted.
Proof.
  destruct (quiz_without_questions_throws quiz_failed
              (fetchQuiz_begin initial)) as (Hbreaks & _).
  destruct (Hbreaks {| data_questions := None |} eq_refl
              (or_introl eq_refl)) as (_ & _ & _ & Hstep).
  destruct (quiz_without_questions_throws quiz_null
              (fetchQuiz_begin initial)) as (_ & Hnull).
  specialize (Hnull eq_refl).
  split.
  - cbn [run]. change (step mounted ClickFetch)
      with (Running {| state := fetchQuiz_begin initial; pending := 1 |}).
    cbn [run].
    change (step {| state := fetchQuiz_begin initial; pending := 1 |}
                 (Settle quiz_failed))
      with (Running {| state := fetchQuiz_settle quiz_failed
                                  (fetchQuiz_begin initial);
                       pending := 0 |}).
    cbn [run]. now rewrite Hstep.
  - cbn [run]. change (step mounted ClickFetch)
      with (Running {| state := fetchQuiz_begin initial; pending := 1 |}).
    cbn [run].
    change (step {| state := fetchQuiz_begin initial; pending := 1 |}
                 (Settle quiz_null))
      with (Running {| state := fetchQuiz_settle quiz_null
                                  (fetchQuiz_begin initial);
                       pending := 0 |}).
    cbn [run]. rewrite Hnull. reflexivity.
Defined.

End QuizFacts.

Module LegacyHomeFacts.

Import JSPromise Proxy Transcript LegacyHome Samples.

Lemma step_keeps_transcript (st : State) (ev : Event) :
  transcriptData (step st ev) = transcriptData st.
Proof.
  destruct ev as [v | api | | fmt]; try reflexivity.
  unfold step, handleDownload.
  now destruct (Home.handleGetTranscript api _).
Qed.

(** X23. The earlier home page never holds a transcript: no handler stores
    one, so after any typing, submissions and presses the "Transcript Ready"
    section is not rendered, and its copy and download handlers, were they
    called, would do nothing. *)
Theorem legacy_home_never_shows_transcript (events : list Event) :
  let st := fold_left step events initial in
  transcriptData st = None
  /\ shows_transcript st = false
  /\ copyToClipboard st = None
  /\ forall fmt, downloadAsFile st fmt = None.
Proof.
  intros st.
  assert (H : transcriptData st = None).
  { subst st.
    assert (Hall : forall st0, transcriptData st0 = None ->
                     transcriptData (fold_left step events st0) = None).
    { induction events as [|ev events IH]; intros st0 H0; cbn [fold_left].
      - exact H0.
      - apply IH. now rewrite step_keeps_transcript. }
    now apply Hall. }
  unfold shows_transcript, copyToClipboard, downloadAsFile.
  rewrite H. repeat split.
Qed.

End LegacyHomeFacts.

Module VerdictFacts.

Import JSNumber JSPromise Quiz Notions Samples QuizFacts.

Local Open Scope nat_scope.

(** The closing remark, by the counts. *)
Lemma verdict_cases (n total : nat) :
  (verdict n total = PerfectScore <-> n = total)
  /\ (verdict n total = GoodJob <-> n <> total /\ total <= 2 * n)
  /\ (verdict n total = KeepPracticing <-> n <> total /\ 2 * n < total).
Proof.
  unfold verdict.
  assert (Hhalf : Qle_bool (inject_Z (Z.of_nat total) / 2)
                           (inject_Z (Z.of_nat n)) = true
                  <-> total <= 2 * n).
  { rewrite Qle_bool_iff. unfold Qle, Qdiv, Qmult, Qinv, inject_Z.
    cbn [Qnum Qden]. lia. }
  destruct (Nat.eqb_spec n total) as [Heq | Hne].
  - repeat split; try discriminate; intros; try reflexivity; try tauto;
      lia.
  - destruct (Nat.le_gt_cases total (2 * n)) as [Hle | Hgt].
    + rewrite (proj2 Hhalf Hle).
      repeat split; try discriminate; try tauto;
        intros; try reflexivity; lia.
    + assert (Hq : Qle_bool (inject_Z (Z.of_nat total) / 2)
                            (inject_Z (Z.of_nat n)) = false).
      { destruct (Qle_bool _ _); [|reflexivity].
        pose proof (proj1 Hhalf eq_refl). lia. }
      rewrite Hq.
      repeat split; try discriminate; try tauto; intros;
        try reflexivity; lia.
Qed.

(** X24. Once every question of a quiz on the screen is answered, the
    component shows the closing view with the number of correct answers out of
    the number of questions, and with "Perfect score" exactly when all answers
    are correct, "Good job" when not all but at least half of them are, and
    "Keep practicing" when fewer than half are. *)
Theorem completed_view_counts (st : State) (qs : list QuizQuestion)
    (answers : list nat) :
  showQuiz st = true ->
  questions st = Some qs ->
  currentQuestion st = 0 -> score st = 0 ->
  answers <> [] ->
  List.length answers = List.length qs ->
  let n := count_correct qs answers in
  let total := List.length qs in
  exists st' remark,
    fold_left answer answers (Some st) = Some st'
    /\ render st' = Some (Completed n total remark)
    /\ (remark = PerfectScore <-> n = total)
    /\ (remark = GoodJob <-> n <> total /\ total <= 2 * n)
    /\ (remark = KeepPracticing <-> 2 * n < total).
Proof.
  intros Hshow Hqs Hc Hs Hne Hlen n total.
  destruct (answers_from qs answers st Hqs Hne) as
    (st' & Hrun & Hdone & Hqs' & _ & Hscore & Hshow'); [lia|].
  rewrite Hc, Hs in Hscore. cbn [skipn Nat.add] in Hscore.
  exists st', (verdict n total). split; [exact Hrun|]. split.
  - unfold render. rewrite Hshow', Hshow, Hqs', Hdone, Hscore. reflexivity.
  - destruct (verdict_cases n total) as (H1 & H2 & H3).
    split; [exact H1|]. split; [exact H2|].
    rewrite H3. split; [tauto|]. intros H. split; [lia | exact H].
Qed.

Lemma completed_view_counts_witness :
  exists st',
    fold_left answer [1; 0] (Some quiz_loaded) = Some st'
    /\ render st' = Some (Completed 2 2 PerfectScore).
Proof.
  destruct (completed_view_counts quiz_loaded two_questions [1; 0]
              eq_refl eq_refl eq_refl eq_refl ltac:(discriminate) eq_refl)
    as (st' & remark & Hrun & Hview & Hperfect & _).
  exists st'. split; [exact Hrun|].
  rewrite Hview. do 2 f_equal. apply Hperfect. reflexivity.
Defined.

End VerdictFacts.
